(** * obs_bible_free_version: the apocrypha scraper and its helpers

    A shallow embedding of
      - bible-versions/scraping/apocrypha/bible_scraper.py
      - bible-versions/scraping/multi_language/helpers/organize_versions_by_locale.py
      - bible-versions/scraping/multi_language/helpers/apply_book_name_mapping.py
    Python [str] is a list of Unicode code points, [int] is [Z], a [dict]
    is a [gmap] (an association list where the iteration order is used), and
    the code that touches the disk, the network or the logger runs in a state
    monad over a [world] that records every such event. *)

From Stdlib Require Import ZArith NArith List Bool Lia Ascii String.
From Stdlib Require Import DecimalString DecimalPos DecimalZ.
From stdpp Require Import base option list gmap.

#[local] Set Warnings "-register-all,-clear-no-such-hyp".
Local Open Scope N_scope.

(* ================================================================== *)
(** * Python strings

    The code points of a [str]. The texts of the scraper come from
    [response.text] and from files read as UTF-8, so they encode. *)

Abbreviation pystr := (list N).

(** A string literal of the source, as code points (ASCII literals only). *)
Definition py (s : string) : pystr := map N_of_ascii (list_ascii_of_string s).
Arguments py s%_string.

(** [str.isspace] on one code point: the white space of CPython's
    [_PyUnicode_IsWhitespace], which is also what [str.strip()] removes and
    what [\s] matches in a [str] pattern. *)
Definition isspace (c : N) : bool :=
  ((0x09 <=? c) && (c <=? 0x0D)) || ((0x1C <=? c) && (c <=? 0x20))
  || (c =? 0x85) || (c =? 0xA0) || (c =? 0x1680)
  || ((0x2000 <=? c) && (c <=? 0x200A))
  || (c =? 0x2028) || (c =? 0x2029) || (c =? 0x202F) || (c =? 0x205F)
  || (c =? 0x3000).

Fixpoint lstrip (s : pystr) : pystr :=
  match s with
  | c :: s' => if isspace c then lstrip s' else s
  | [] => []
  end.

Definition rstrip (s : pystr) : pystr := rev (lstrip (rev s)).

(** [s.strip()] *)
Definition strip (s : pystr) : pystr := rstrip (lstrip s).

(** [s.startswith(p)] *)
Fixpoint startswith (p s : pystr) : bool :=
  match p, s with
  | [], _ => true
  | a :: p', b :: s' => (a =? b) && startswith p' s'
  | _ :: _, [] => false
  end.

(** [s.endswith(p)] *)
Definition endswith (p s : pystr) : bool := startswith (rev p) (rev s).

(** [sub in s] *)
Fixpoint contains (sub s : pystr) : bool :=
  startswith sub s
  || match s with
     | [] => false
     | _ :: s' => contains sub s'
     end.

(** [s.replace(a, b)] for one-character [a] and [b]. *)
Definition replace_char (a b : N) (s : pystr) : pystr :=
  map (fun c => if c =? a then b else c) s.

(** [str(n)] for an [int]. *)
Definition str_of_int (n : Z) : pystr := py (NilZero.string_of_int (Z.to_int n)).

(** A character of [str(n)] is a digit or the minus sign. *)
Definition int_char (c : N) : Prop := c = 0x2D ∨ (0x30 ≤ c ≤ 0x39).

(** [not s] / [if s:] for a string. *)
Definition truthy (s : pystr) : bool :=
  match s with [] => false | _ :: _ => true end.

(** [re.sub(r'\s+', ' ', s)]: every maximal run of white space becomes one
    space; [in_run] tells that the run's space has been written already. *)
Fixpoint collapse_ws_from (in_run : bool) (s : pystr) : pystr :=
  match s with
  | [] => []
  | c :: s' =>
      if isspace c
      then (if in_run then collapse_ws_from true s' else 0x20 :: collapse_ws_from true s')
      else c :: collapse_ws_from false s'
  end.

Definition collapse_ws (s : pystr) : pystr := collapse_ws_from false s.

(** [sep.join(parts)] *)
Fixpoint join (sep : pystr) (parts : list pystr) : pystr :=
  match parts with
  | [] => []
  | [p] => p
  | p :: rest => p ++ sep ++ join sep rest
  end.

(** The size in bytes of the UTF-8 encoding of a string: what [st_size]
    reports for a file the string was written to with [encoding='utf-8']. *)
Definition utf8_len (c : N) : N :=
  if c <? 0x80 then 1 else if c <? 0x800 then 2 else if c <? 0x10000 then 3 else 4.

Definition utf8_size (s : pystr) : N := fold_right (fun c n => utf8_len c + n) 0 s.

(** Reading a text file opened with [newline=None] (the default of [open]):
    universal newlines, every [\r\n] and every lone [\r] comes back as
    [\n]. Writing on POSIX leaves the text as it is. *)
Fixpoint universal_newlines (s : pystr) : pystr :=
  match s with
  | [] => []
  | c :: s' =>
      if c =? 0x0D
      then 0x0A :: match s' with
                   | d :: s'' => if d =? 0x0A then universal_newlines s''
                                 else universal_newlines s'
                   | [] => []
                   end
      else c :: universal_newlines s'
  end.

(* ================================================================== *)
(** * Insertion-ordered dictionaries

    A Python [dict] whose iteration order the code relies on
    ([translations], [all_translations], the top level of a version file):
    an association list with one entry per key, in insertion order. *)

Section odict.
Context {V : Type}.

(** [d.get(k)] *)
Fixpoint od_get (k : pystr) (d : list (pystr * V)) : option V :=
  match d with
  | [] => None
  | (k', v) :: d' => if decide (k' = k) then Some v else od_get k d'
  end.

(** [d[k] = v]: a present key keeps its place, a new one goes last. *)
Fixpoint od_set (k : pystr) (v : V) (d : list (pystr * V)) : list (pystr * V) :=
  match d with
  | [] => [(k, v)]
  | (k', v') :: d' =>
      if decide (k' = k) then (k, v) :: d' else (k', v') :: od_set k v d'
  end.

(** [d.update(e)] *)
Definition od_update (d e : list (pystr * V)) : list (pystr * V) :=
  fold_left (fun acc kv => od_set kv.1 kv.2 acc) e d.
End odict.

(* ================================================================== *)
(** * The parsed page

    What BeautifulSoup hands to the code: text nodes and tags. Of a tag's
    attributes the code reads [class] (a list of tokens), [id] and [src].
    Comments and the other special strings of bs4 are not in the model. *)

Record tag_attrs := {
  attr_class : list pystr;
  attr_id : option pystr;
  attr_src : option pystr
}.

Inductive node :=
| NavigableString (s : pystr)
| Tag (name : pystr) (attrs : tag_attrs) (children : list node).

Definition no_attrs : tag_attrs :=
  {| attr_class := []; attr_id := None; attr_src := None |}.

(** [x in l] for a list of strings. *)
Definition str_in (x : pystr) (l : list pystr) : bool := bool_decide (x ∈ l).

(** [bool(node)]: a tag is always true, a string is true when not empty. *)
Definition node_truthy (n : node) : bool :=
  match n with
  | NavigableString s => truthy s
  | Tag _ _ _ => true
  end.

(** [node.name == 'span' and 'versiontext' in (node.get('class') or [])] *)
Definition is_version_span (n : node) : bool :=
  match n with
  | NavigableString _ => false
  | Tag name attrs _ =>
      bool_decide (name = py "span") && str_in (py "versiontext") (attr_class attrs)
  end.

Definition BLOCK_TAGS : list pystr :=
  [py "div"; py "table"; py "tr"; py "td"; py "th"; py "ul"; py "ol"; py "li"; py "hr"].

(** [node.name in ['div', 'table', 'tr', 'td', 'th', 'ul', 'ol', 'li', 'hr']] *)
Definition is_block_tag (n : node) : bool :=
  match n with
  | NavigableString _ => false
  | Tag name _ _ => str_in name BLOCK_TAGS
  end.

(** [node.descendants], each element with the siblings that follow it (the
    chain of its [next_sibling]), in document order. *)
Fixpoint descendants (n : node) : list (node * list node) :=
  match n with
  | NavigableString _ => []
  | Tag _ _ children =>
      (fix of_children (l : list node) : list (node * list node) :=
         match l with
         | [] => []
         | c :: rest => (c, rest) :: descendants c ++ of_children rest
         end) children
  end.

(** The strings below a node, in document order. *)
Fixpoint strings (n : node) : list pystr :=
  match n with
  | NavigableString s => [s]
  | Tag _ _ children => flat_map strings children
  end.

(** [node.get_text(separator, strip=True)] *)
Definition get_text_strip (separator : pystr) (n : node) : pystr :=
  join separator (filter (fun s => truthy s = true) (map strip (strings n))).

Definition tag_named (name : pystr) (n : node) : bool :=
  match n with
  | NavigableString _ => false
  | Tag name' _ _ => bool_decide (name' = name)
  end.

(** [soup.find_all('span', class_='versiontext')] *)
Definition find_all_version_spans (soup : node) : list (node * list node) :=
  filter (fun e => is_version_span e.1 = true) (descendants soup).

(** [node.find_all(name)] *)
Definition find_all_named (name : pystr) (n : node) : list (node * list node) :=
  filter (fun e => tag_named name e.1 = true) (descendants n).

(** [node.find(name)] *)
Definition find_named (name : pystr) (n : node) : option node :=
  fst <$> head (find_all_named name n).

(** [soup.find('div', id='par')] *)
Definition find_par_div (soup : node) : option node :=
  fst <$> head (filter (fun e =>
    match e.1 with
    | Tag name attrs _ => bool_decide (name = py "div" ∧ attr_id attrs = Some (py "par"))
    | NavigableString _ => false
    end = true) (descendants soup)).

(** The inner function [collect_text] of [parse_verse_page]: the text of a
    node and of its children is appended to [verse_parts]; [false] is
    returned at the next version marker or block-level tag. *)
Fixpoint collect_text (n : node) (verse_parts : list pystr) : bool * list pystr :=
  match n with
  | NavigableString s =>
      let text := strip s in
      (true, if truthy text then verse_parts ++ [text] else verse_parts)
  | Tag name attrs children =>
      if is_version_span (Tag name attrs children) then (false, verse_parts)
      else if str_in name BLOCK_TAGS then (false, verse_parts)
      else
        (fix over (l : list node) (parts : list pystr) : bool * list pystr :=
           match l with
           | [] => (true, parts)
           | child :: l' =>
               let '(go_on, parts') := collect_text child parts in
               if go_on then over l' parts' else (false, parts')
           end) children verse_parts
  end.

(** [while current and (str(current).strip() == '' or current.name == 'br')]:
    the blank strings and line breaks that follow the marker are passed. *)
Fixpoint skip_blank (siblings : list node) : list node :=
  match siblings with
  | [] => []
  | NavigableString s :: rest =>
      if truthy s && negb (truthy (strip s)) then skip_blank rest else siblings
  | Tag name _ _ :: rest =>
      if bool_decide (name = py "br") then skip_blank rest else siblings
  end.

(** The second [while current:] loop of the primary strategy. *)
Fixpoint collect_siblings (siblings : list node) (verse_parts : list pystr) : list pystr :=
  match siblings with
  | [] => verse_parts
  | current :: rest =>
      if negb (node_truthy current) then verse_parts
      else if is_version_span current then verse_parts
      else if is_block_tag current then verse_parts
      else
        let '(go_on, parts') := collect_text current verse_parts in
        if go_on then collect_siblings rest parts' else parts'
  end.

(** The [while current:] loop of the fallback strategy. *)
Fixpoint collect_parallel (siblings : list node) (verse_parts : list pystr) : list pystr :=
  match siblings with
  | [] => verse_parts
  | current :: rest =>
      if negb (node_truthy current) then verse_parts
      else match current with
           | Tag name _ _ =>
               if str_in name [py "a"; py "p"; py "hr"] then verse_parts
               else
                 let text := get_text_strip [] current in
                 collect_parallel rest (if truthy text then verse_parts ++ [text] else verse_parts)
           | NavigableString s =>
               let text := strip s in
               collect_parallel rest (if truthy text then verse_parts ++ [text] else verse_parts)
           end
  end.

(* ================================================================== *)
(** * The scraper's world

    [self.progress] and [self.data], the files the scraper reads and writes,
    the web, and the trace of what the run did. An operating-system error of
    a write (the [except] branches that only log it) is not modelled: a write
    to the disk succeeds. *)

(** A file of [html_cache]: book directory, source directory, file name. *)
Abbreviation cache_path := (pystr * pystr * pystr)%type.

(** A cached file: text that was written with [encoding='utf-8'], or bytes
    of a given size that do not decode (reading them raises). *)
Inductive blob :=
| Stored (text : pystr)
| Undecodable (size : N).

(** [cache_file.stat().st_size] *)
Definition st_size (b : blob) : N :=
  match b with
  | Stored text => utf8_size text
  | Undecodable size => size
  end.

(** A JSON file of the scraper: missing, not loadable, or holding a value
    of the shape the scraper writes. A file that holds JSON of another
    shape is not in the model. *)
Inductive json_file (A : Type) :=
| Missing
| Unloadable
| Holds (a : A).
Arguments Missing {A}.
Arguments Unloadable {A}.
Arguments Holds {A} a.

(** What [session.get] gives: a response, or a [requests.RequestException]. *)
Inductive response :=
| Response (status_code : Z) (text : pystr)
| RequestException.

Inductive level := DEBUG | INFO | WARNING | ERROR.

Inductive message :=
| LoadedProgress
| CouldNotLoadProgress
| LoadedData
| CouldNotLoadData
| SavedData
| CacheVerySmall (f : cache_path) (size : N)
| LoadedFromCache (f : cache_path)
| CouldNotReadCache (f : cache_path)
| Fetching (url : pystr) (attempt : nat)
| SavedToCache (f : cache_path)
| PageNotFound (url : pystr)
| HttpStatus (status_code : Z) (url : pystr)
| RequestFailed (url : pystr)
| FailedToFetch (url : pystr)
| NoTranslationsFound
| SkippingCompleted (book : pystr) (chapter verse : Z)
| ScrapingFromWeb (book : pystr) (chapter verse : Z) (url : pystr)
| NoTranslationsExtracted (book : pystr) (chapter verse : Z)
| SuccessfullyScraped (count : nat) (book : pystr) (chapter verse : Z).

Inductive event :=
| CacheExists (f : cache_path)
| CacheRead (f : cache_path)
| CacheWrite (f : cache_path)
| HttpGet (url : pystr)
| Sleep (seconds : Z)
| Log (l : level) (m : message).

(** translation -> book -> chapter -> verse -> text *)
Abbreviation corpus := (gmap pystr (gmap pystr (gmap pystr (gmap pystr pystr)))).

Record world := {
  progress : gmap pystr bool;                  (* self.progress *)
  data : corpus;                               (* self.data *)
  html_cache : gmap cache_path blob;           (* the html_cache directory *)
  progress_file : json_file (gmap pystr bool); (* self.progress_file on disk *)
  output_file : json_file corpus;              (* self.output_file on disk *)
  web : nat → pystr → response;                (* the answer to the n-th request of the run *)
  requests : nat;                              (* requests issued so far *)
  trace : list event                           (* oldest event first *)
}.

Definition M (A : Type) : Type := world → A * world.

#[export] Instance M_ret : MRet M := λ A a w, (a, w).
#[export] Instance M_bind : MBind M := λ A B k m w, let '(a, w') := m w in k a w'.

Definition emit (e : event) : M unit := λ w,
  (tt, {| progress := progress w; data := data w; html_cache := html_cache w;
          progress_file := progress_file w; output_file := output_file w;
          web := web w; requests := requests w; trace := trace w ++ [e] |}).

Definition logger (l : level) (m : message) : M unit := emit (Log l m).

Definition sleep (seconds : Z) : M unit := emit (Sleep seconds).

Definition get_progress : M (gmap pystr bool) := λ w, (progress w, w).

Definition set_progress (p : gmap pystr bool) : M unit := λ w,
  (tt, {| progress := p; data := data w; html_cache := html_cache w;
          progress_file := progress_file w; output_file := output_file w;
          web := web w; requests := requests w; trace := trace w |}).

Definition get_data : M corpus := λ w, (data w, w).

Definition set_data (d : corpus) : M unit := λ w,
  (tt, {| progress := progress w; data := d; html_cache := html_cache w;
          progress_file := progress_file w; output_file := output_file w;
          web := web w; requests := requests w; trace := trace w |}).

Definition write_progress_file (p : gmap pystr bool) : M unit := λ w,
  (tt, {| progress := progress w; data := data w; html_cache := html_cache w;
          progress_file := Holds p; output_file := output_file w;
          web := web w; requests := requests w; trace := trace w |}).

Definition write_output_file (d : corpus) : M unit := λ w,
  (tt, {| progress := progress w; data := data w; html_cache := html_cache w;
          progress_file := progress_file w; output_file := Holds d;
          web := web w; requests := requests w; trace := trace w |}).

(** [cache_file.exists()] and, when it does, the file. *)
Definition cache_stat (f : cache_path) : M (option blob) := λ w,
  (html_cache w !! f,
   {| progress := progress w; data := data w; html_cache := html_cache w;
      progress_file := progress_file w; output_file := output_file w;
      web := web w; requests := requests w; trace := trace w ++ [CacheExists f] |}).

(** [open(cache_file, 'w', encoding='utf-8')] and [f.write(html_content)] *)
Definition cache_write (f : cache_path) (html_content : pystr) : M unit := λ w,
  (tt, {| progress := progress w; data := data w;
          html_cache := <[f := Stored html_content]> (html_cache w);
          progress_file := progress_file w; output_file := output_file w;
          web := web w; requests := requests w; trace := trace w ++ [CacheWrite f] |}).

(** [self.session.get(url, timeout=REQUEST_TIMEOUT)] *)
Definition session_get (url : pystr) : M response := λ w,
  (web w (requests w) url,
   {| progress := progress w; data := data w; html_cache := html_cache w;
      progress_file := progress_file w; output_file := output_file w;
      web := web w; requests := S (requests w); trace := trace w ++ [HttpGet url] |}).

(** A fresh [BibleScraper]: what [__init__] sets up, over a given disk and web. *)
Definition fresh_process (w : world) : world :=
  {| progress := ∅; data := ∅; html_cache := html_cache w;
     progress_file := progress_file w; output_file := output_file w;
     web := web w; requests := 0%nat; trace := [] |}.

(* ------------------------------------------------------------------ *)
(** ** Module constants *)

Definition REQUEST_DELAY : Z := 0.
Definition MAX_RETRIES : nat := 3.
Definition RETRY_DELAY : Z := 5.

Definition BIBLE_HUB_BOOK_MAP : gmap pystr pystr :=
  list_to_map [
    (py "Song_of_Solomon", py "songs");
    (py "1 Esdras", py "1_esdras");
    (py "2 Esdras", py "2_esdras");
    (py "Esther (Greek)", py "esther_greek");
    (py "Wisdom of Solomon", py "wisdom_of_solomon");
    (py "Ecclesiasticus (Sira)", py "ecclesiasticus");
    (py "Epistle of Jeremiah", py "epistle_of_jeremiah");
    (py "Prayer of Azariah", py "prayer_of_azariah");
    (py "Bel and the Dragon", py "bel_and_the_dragon");
    (py "Prayer of Manasseh", py "prayer_of_manasseh");
    (py "1 Maccabees", py "1_maccabees");
    (py "2 Maccabees", py "2_maccabees")
  ].

(* ================================================================== *)
(** * bible_scraper.py *)

Section bible_scraper.

(** Library functions the scraper calls, taken as they are:
    [str.lower], [str.upper], [html.unescape], [Path(p).stem],
    [BeautifulSoup(markup, 'html5lib')] and
    [BeautifulSoup(markup, 'html.parser')]. *)
Variable lower upper unescape path_stem : pystr → pystr.
Variable html5lib html_parser : pystr → node.

(** [f"{book}_{chapter}_{verse}"] *)
Definition progress_key (book : pystr) (chapter verse : Z) : pystr :=
  book ++ py "_" ++ str_of_int chapter ++ py "_" ++ str_of_int verse.

Definition load_progress : M unit :=
  pf ← (λ w, (progress_file w, w));
  match pf with
  | Missing => mret tt
  | Holds p => set_progress p;; logger INFO LoadedProgress
  | Unloadable => logger WARNING CouldNotLoadProgress;; set_progress ∅
  end;;
  outf ← (λ w, (output_file w, w));
  match outf with
  | Missing => mret tt
  | Holds d => set_data d;; logger INFO LoadedData
  | Unloadable => logger WARNING CouldNotLoadData;; set_data ∅
  end.

Definition save_progress : M unit :=
  p ← get_progress;
  write_progress_file p.

Definition save_data : M unit :=
  d ← get_data;
  write_output_file d;;
  logger INFO SavedData.

Definition is_verse_completed (book : pystr) (chapter verse : Z) : M bool :=
  p ← get_progress;
  mret (default false (p !! progress_key book chapter verse)).

Definition mark_verse_completed (book : pystr) (chapter verse : Z) : M unit :=
  p ← get_progress;
  set_progress (<[progress_key book chapter verse := true]> p);;
  p' ← get_progress;
  if decide (size p' `mod` 10 = 0)%nat then save_progress else mret tt.

(** [f"https://biblehub.com/{base}/{book_slug}/{ch}-{verse}.htm"] *)
Definition verse_url (base book_slug : pystr) (ch verse : Z) : pystr :=
  py "https://biblehub.com/" ++ base ++ py "/" ++ book_slug ++ py "/"
  ++ str_of_int ch ++ py "-" ++ str_of_int verse ++ py ".htm".

Definition EPISTLE_OF_JEREMIAH : pystr := py "Epistle of Jeremiah".

(** [BIBLE_HUB_BOOK_MAP.get(book, book.lower().replace(' ', '_'))] *)
Definition book_slug_of (book : pystr) : pystr :=
  default (replace_char 0x20 0x5F (lower book)) (BIBLE_HUB_BOOK_MAP !! book).

(** The list [chapters] of [build_urls]. *)
Definition candidate_chapters (book : pystr) (chapter : Z) : list Z :=
  [chapter] ++ (if decide (book = EPISTLE_OF_JEREMIAH ∧ chapter = 1%Z) then [6%Z] else []).

Definition build_urls (book : pystr) (chapter verse : Z) : list pystr :=
  let book_slug := book_slug_of book in
  let chapters := candidate_chapters book chapter in
  ch ← chapters;
  base ← [py "catholic"; py "apocrypha"];
  [verse_url base book_slug ch verse].

(** Lines 167-177 of [fetch_page]: the cache file of a request, [None]
    unless [chapter and verse]. [html_cache] holds the files of the cache:
    the directory that [cache_dir.mkdir(parents=True, exist_ok=True)]
    creates on the way is not in the model, and the call is taken not to
    raise. *)
Definition cache_file_of (url book : pystr) (chapter verse : Z) : option cache_path :=
  let source :=
    if contains (py "/catholic/") url then py "catholic"
    else if contains (py "/apocrypha/") url then py "apocrypha"
    else py "unknown" in
  let book_dir := if truthy book then replace_char 0x20 0x5F book else py "unknown" in
  if bool_decide (chapter ≠ 0%Z) && bool_decide (verse ≠ 0%Z)
  then Some (book_dir, source, str_of_int chapter ++ py "-" ++ str_of_int verse ++ py ".htm")
  else None.

(** Lines 180-192 of [fetch_page]: "Try to load from cache first". *)
Definition load_from_cache (cache_file : option cache_path) : M (option pystr) :=
  match cache_file with
  | None => mret None
  | Some f =>
      found ← cache_stat f;
      match found with
      | None => mret None
      | Some b =>
          if (st_size b <? 100)%N
          then logger WARNING (CacheVerySmall f (st_size b));; mret None
          else
            emit (CacheRead f);;
            match b with
            | Undecodable _ => logger WARNING (CouldNotReadCache f);; mret None
            | Stored text =>
                let content := universal_newlines text in
                if truthy (strip content)
                then logger INFO (LoadedFromCache f);; mret (Some content)
                else mret None
            end
      end
  end.

(** Lines 200-225 of [fetch_page]: the [for attempt in range(MAX_RETRIES)]
    loop, over the attempts that are left. *)
Fixpoint fetch_from_web (url : pystr) (cache_file : option cache_path)
    (attempts : list nat) : M (option pystr) :=
  match attempts with
  | [] => logger ERROR (FailedToFetch url);; mret None
  | attempt :: later =>
      logger DEBUG (Fetching url (attempt + 1));;
      r ← session_get url;
      let next : M (option pystr) :=
        (if decide (attempt < MAX_RETRIES - 1)%nat then sleep RETRY_DELAY else mret tt);;
        fetch_from_web url cache_file later in
      match r with
      | Response status_code html_content =>
          if decide (status_code = 200%Z) then
            match cache_file with
            | Some f => cache_write f html_content;; logger INFO (SavedToCache f)
            | None => mret tt
            end;;
            mret (Some html_content)
          else if decide (status_code = 404%Z) then
            logger WARNING (PageNotFound url);; mret None
          else
            logger WARNING (HttpStatus status_code url);; next
      | RequestException =>
          logger WARNING (RequestFailed url);; next
      end
  end.

Definition fetch_page (url book : pystr) (chapter verse : Z) (skip_fetch : bool)
    : M (option pystr) :=
  let cache_file := cache_file_of url book chapter verse in
  cached ← load_from_cache cache_file;
  match cached with
  | Some content => mret (Some content)
  | None =>
      if skip_fetch then mret None
      else
        sleep REQUEST_DELAY;;
        fetch_from_web url cache_file (seq 0 MAX_RETRIES)
  end.

Definition clean_verse_text (text : pystr) : pystr :=
  if negb (truthy text) then []
  else
    let text := get_text_strip (py " ") (html_parser text) in
    let text := unescape text in
    let text := collapse_ws text in
    strip text.

(** One pass of [for version_span in version_spans:]. *)
Definition extract_version (translations : list (pystr * pystr))
    (version_span : node * list node) : list (pystr * pystr) :=
  match find_named (py "a") version_span.1 with
  | None => translations
  | Some link =>
      let translation_name := get_text_strip [] link in
      if negb (truthy translation_name) then translations
      else
        let current := skip_blank version_span.2 in
        let verse_parts := collect_siblings current [] in
        let verse_text := clean_verse_text (join (py " ") verse_parts) in
        if truthy verse_text then od_set translation_name verse_text translations
        else translations
  end.

(** One pass of [for a_tag in par_div.find_all('a'):]. *)
Definition extract_parallel (translations : list (pystr * pystr))
    (a_tag : node * list node) : list (pystr * pystr) :=
  let trans_name :=
    match find_named (py "img") a_tag.1 with
    | Some (Tag _ attrs _) =>
        match attr_src attrs with
        | Some src => if truthy src then upper (path_stem src)
                      else upper (get_text_strip [] a_tag.1)
        | None => upper (get_text_strip [] a_tag.1)
        end
    | _ => upper (get_text_strip [] a_tag.1)
    end in
  if negb (truthy trans_name) || str_in trans_name [[]; py "PARALLEL"] then translations
  else
    let verse_parts := collect_parallel a_tag.2 [] in
    let verse_text := clean_verse_text (join (py " ") verse_parts) in
    if truthy verse_text then od_set trans_name verse_text translations
    else translations.

(** [parse_verse_page] without its log line. *)
Definition extract_translations (soup : node) : list (pystr * pystr) :=
  let translations := fold_left extract_version (find_all_version_spans soup) [] in
  match translations with
  | _ :: _ => translations
  | [] =>
      match find_par_div soup with
      | Some par_div => fold_left extract_parallel (find_all_named (py "a") par_div) []
      | None => []
      end
  end.

Definition parse_verse_page (html_content : pystr) : M (list (pystr * pystr)) :=
  let translations := extract_translations (html5lib html_content) in
  match translations with
  | [] => logger WARNING NoTranslationsFound
  | _ :: _ => mret tt
  end;;
  mret translations.

(** Lines 398-409 of [scrape_verse]: one verse text goes into [self.data]
    under translation, book, [str(chapter)], [str(verse)]; a level that is
    not there yet starts as an empty dict. *)
Definition record (d : corpus) (trans_upper book_save chapter_key verse_key : pystr)
    (verse_text : pystr) : corpus :=
  let books := default ∅ (d !! trans_upper) in
  let chapters := default ∅ (books !! book_save) in
  let verses := default ∅ (chapters !! chapter_key) in
  <[trans_upper := <[book_save := <[chapter_key :=
      <[verse_key := verse_text]> verses]> chapters]> books]> d.

(** Lines 396-409: [for translation_name, verse_text in all_translations.items()]. *)
Definition store_translations (book : pystr) (chapter verse : Z)
    (all_translations : list (pystr * pystr)) : M unit :=
  d ← get_data;
  set_data (fold_left (λ d item,
              record d (upper item.1) (replace_char 0x5F 0x20 book)
                     (str_of_int chapter) (str_of_int verse) item.2)
            all_translations d).

(** "Phase 1: Check ALL candidate URLs in cache FIRST". The state of the
    loop is [(all_translations, found_any)]. *)
Fixpoint cache_phase (urls : list pystr) (book : pystr) (chapter verse : Z)
    (st : list (pystr * pystr) * bool) : M (list (pystr * pystr) * bool) :=
  match urls with
  | [] => mret st
  | url :: rest =>
      html_content ← fetch_page url book chapter verse true;
      st' ← match html_content with
            | Some content =>
                if truthy content then
                  translations ← parse_verse_page content;
                  match translations with
                  | _ :: _ => mret (od_update st.1 translations, true)
                  | [] => mret st
                  end
                else mret st
            | None => mret st
            end;
      cache_phase rest book chapter verse st'
  end.

(** "Phase 2: If nothing found in cache, try fetching from the web": the
    loop is entered with [found_any] false and left at the first page
    with translations. *)
Fixpoint web_phase (urls : list pystr) (book : pystr) (chapter verse : Z)
    (all_translations : list (pystr * pystr)) : M (list (pystr * pystr) * bool) :=
  match urls with
  | [] => mret (all_translations, false)
  | url :: rest =>
      logger INFO (ScrapingFromWeb book chapter verse url);;
      html_content ← fetch_page url book chapter verse false;
      match html_content with
      | Some content =>
          if truthy content then
            translations ← parse_verse_page content;
            match translations with
            | _ :: _ => mret (od_update all_translations translations, true)
            | [] => web_phase rest book chapter verse all_translations
            end
          else web_phase rest book chapter verse all_translations
      | None => web_phase rest book chapter verse all_translations
      end
  end.

(** Lines 395-423 of [scrape_verse]: the translations that were found go
    into [self.data] and the verse is marked. *)
Definition store_and_mark (book : pystr) (chapter verse : Z)
    (all_translations : list (pystr * pystr)) : M bool :=
  store_translations book chapter verse all_translations;;
  mark_verse_completed book chapter verse;;
  p ← get_progress;
  (if decide (size p `mod` 10 = 0)%nat then save_data else mret tt);;
  logger INFO (SuccessfullyScraped (length all_translations) book chapter verse);;
  sleep REQUEST_DELAY;;
  mret true.

Definition scrape_verse (book : pystr) (chapter verse : Z) : M bool :=
  completed ← is_verse_completed book chapter verse;
  if (completed : bool) then
    logger DEBUG (SkippingCompleted book chapter verse);; mret true
  else
    let urls := build_urls book chapter verse in
    st ← cache_phase urls book chapter verse ([], false);
    st ← (if negb st.2 then web_phase urls book chapter verse st.1 else mret st);
    let '(all_translations, found_any) := st in
    if negb found_any then
      logger WARNING (NoTranslationsExtracted book chapter verse);; mret false
    else
      store_and_mark book chapter verse all_translations.

End bible_scraper.

(* ================================================================== *)
(** * organize_versions_by_locale.py *)

(** One rule of the locale table, in the spec's words: a locale and the
    substring tests that select it. A test asks for a substring and may
    forbid another one. *)
Record locale_rule := {
  rule_locale : pystr;
  rule_tests : list (pystr * option pystr)
}.

Definition test_holds (name : pystr) (t : pystr * option pystr) : bool :=
  contains t.1 name
  && match t.2 with
     | Some forbidden => negb (contains forbidden name)
     | None => true
     end.

Definition rule_matches (name : pystr) (r : locale_rule) : bool :=
  existsb (test_holds name) (rule_tests r).

(** The first rule that matches decides; [und] when none does. *)
Fixpoint first_match (rules : list locale_rule) (name : pystr) : pystr :=
  match rules with
  | [] => py "und"
  | r :: rules' => if rule_matches name r then rule_locale r else first_match rules' name
  end.

Definition plain (locale : string) (needles : list pystr) : locale_rule :=
  {| rule_locale := py locale; rule_tests := map (λ n, (n, None)) needles |}.

(** The rules of [detect_locale_from_name], in the order of its [if]s. *)
Definition LOCALE_RULES : list locale_rule := [
  {| rule_locale := py "es";
     rule_tests := [(py "spanish", None); (py "reina valera", None);
                    (py "biblia", Some (py "portugu"));
                    (py "sagradas escrituras", None)] |};
  plain "pt" [py "portuge"; py "portugu"];
  plain "de" [py "german"; py "luther"; py "deutsch"];
  plain "fr" [py "french"; py "louis segond"; py "martin (1744)"];
  plain "it" [py "italian"; py "giovanni diodati"; py "riveduta"];
  plain "nl" [py "dutch"; py "staten vertaling"];
  plain "sv" [py "swedish"];
  plain "no" [py "norwegian"];
  plain "da" [py "danish"];
  plain "af" [py "afrikaans"];
  plain "sq" [py "albanian"];
  plain "eu" [py "basque"];
  plain "bar" [py "bavarian"];
  plain "hy" [py "armenian"];
  plain "tr" [py "turkish"];
  plain "fi" [py "finnish"];
  plain "lv" [py "latvian"];
  plain "lt" [py "lithuanian"];
  plain "hu" [py "hungarian"; py "karoli"];
  plain "ro" [py "romanian"];
  plain "hr" [py "croatian"];
  plain "cs" [py "czech"; py "bkr"];
  plain "bg" [py "bulgarian"];
  plain "mi" [py "maori"];
  plain "sw" [py "swahili"];
  plain "eo" [py "esperanto"];
  plain "id" [py "indonesian"];
  plain "vi" [py "vietnamese"];
  plain "th" [py "thai"];
  plain "ko" [py "korean"];
  plain "zh" [py "chinese"; [0x4E2D; 0x6587]; [0xE6; 0x153; 0xAC]];
  plain "ar" [py "arabic"; py "arab"];
  plain "ru" [py "russian"; py "koi8r"];
  plain "uk" [py "ukrainian"];
  plain "el" [py "greek"; py "septuagint"; py "textus receptus"; py "byzantine";
              py "tischendorf"; py "westcott"];
  plain "he" [py "hebrew"; py "westminster leningrad codex"; py "wlc"; py "aleppo"];
  plain "la" [py "latin"; py "vulgata"];
  plain "en" [py "english"; py "kjv"; py "king james"; py "niv"; py "nasb";
              py "american standard"; py "bible"; py "testament"; py "webster";
              py "weymouth"; py "young's"; py "jubilee"; py "international version";
              py "international standard version"; py "living translation";
              py "god's word"]
].

(** A file system: a path is the list of its components. *)
Abbreviation path := (list pystr).

Inductive entry :=
| File (content : pystr)
| Dir.

Abbreviation filesystem := (gmap path entry).

(** [p.is_file()] *)
Definition is_file (fs : filesystem) (p : path) : bool :=
  match fs !! p with
  | Some (File _) => true
  | _ => false
  end.

(** [p.is_dir()] *)
Definition is_dir (fs : filesystem) (p : path) : bool :=
  match fs !! p with
  | Some Dir => true
  | _ => false
  end.

(** [p.exists()] *)
Definition exists_ (fs : filesystem) (p : path) : bool :=
  match fs !! p with
  | Some _ => true
  | None => false
  end.

(** The path itself and the directories above it, topmost first. *)
Definition prefixes (p : path) : list path :=
  map (λ n, take n p) (seq 1 (length p)).

(** [p.mkdir(parents=True, exist_ok=True)]: [None] when it raises, which it
    does when the path or one of its parents is a file. *)
Definition mkdir_parents (p : path) (fs : filesystem) : option filesystem :=
  if existsb (is_file fs) (prefixes p) then None
  else Some (fold_left (λ fs q, <[q := Dir]> fs) (prefixes p) fs).

(** [a < b] of two strings, and [a <= b]. *)
Fixpoint str_ltb (a b : pystr) : bool :=
  match a, b with
  | _, [] => false
  | [], _ :: _ => true
  | x :: a', y :: b' => (x <? y) || ((x =? y) && str_ltb a' b')
  end.

Fixpoint insert_sorted (x : pystr) (l : list pystr) : list pystr :=
  match l with
  | [] => [x]
  | y :: l' => if str_ltb y x then y :: insert_sorted x l' else x :: l
  end.

(** [sorted(names)] *)
Definition sorted (l : list pystr) : list pystr := fold_right insert_sorted [] l.

(** The names of the entries right below [dir]: [dir.iterdir()]. *)
Definition iterdir (fs : filesystem) (dir : path) : list pystr :=
  omap (λ pe, match reverse pe.1 with
              | name :: parent => if decide (reverse parent = dir) then Some name else None
              | [] => None
              end) (map_to_list fs).

(** [s[:-n]] for [n] at least 1. *)
Definition drop_last (n : nat) (s : pystr) : pystr := take (length s - n) s.

(** How a call ends: it returns, or an exception leaves it. *)
Inductive outcome :=
| Returned
| Raised.

Section organize_versions_by_locale.
Variable lower : pystr → pystr.

Definition detect_locale_from_name (version_name : pystr) : pystr :=
  let name := lower version_name in
  let has (s : pystr) := contains s name in
  if has (py "spanish") || has (py "reina valera")
     || (has (py "biblia") && negb (has (py "portugu")))
     || has (py "sagradas escrituras") then py "es"
  else if has (py "portuge") || has (py "portugu") then py "pt"
  else if has (py "german") || has (py "luther") || has (py "deutsch") then py "de"
  else if has (py "french") || has (py "louis segond") || has (py "martin (1744)") then py "fr"
  else if has (py "italian") || has (py "giovanni diodati") || has (py "riveduta") then py "it"
  else if has (py "dutch") || has (py "staten vertaling") then py "nl"
  else if has (py "swedish") then py "sv"
  else if has (py "norwegian") then py "no"
  else if has (py "danish") then py "da"
  else if has (py "afrikaans") then py "af"
  else if has (py "albanian") then py "sq"
  else if has (py "basque") then py "eu"
  else if has (py "bavarian") then py "bar"
  else if has (py "armenian") then py "hy"
  else if has (py "turkish") then py "tr"
  else if has (py "finnish") then py "fi"
  else if has (py "latvian") then py "lv"
  else if has (py "lithuanian") then py "lt"
  else if has (py "hungarian") || has (py "karoli") then py "hu"
  else if has (py "romanian") then py "ro"
  else if has (py "croatian") then py "hr"
  else if has (py "czech") || has (py "bkr") then py "cs"
  else if has (py "bulgarian") then py "bg"
  else if has (py "maori") then py "mi"
  else if has (py "swahili") then py "sw"
  else if has (py "esperanto") then py "eo"
  else if has (py "indonesian") then py "id"
  else if has (py "vietnamese") then py "vi"
  else if has (py "thai") then py "th"
  else if has (py "korean") then py "ko"
  else if has (py "chinese") || has [0x4E2D; 0x6587] || has [0xE6; 0x153; 0xAC] then py "zh"
  else if has (py "arabic") || has (py "arab") then py "ar"
  else if has (py "russian") || has (py "koi8r") then py "ru"
  else if has (py "ukrainian") then py "uk"
  else if has (py "greek") || has (py "septuagint") || has (py "textus receptus")
          || has (py "byzantine") || has (py "tischendorf") || has (py "westcott") then py "el"
  else if has (py "hebrew") || has (py "westminster leningrad codex") || has (py "wlc")
          || has (py "aleppo") then py "he"
  else if has (py "latin") || has (py "vulgata") then py "la"
  else if has (py "english") || has (py "kjv") || has (py "king james") || has (py "niv")
          || has (py "nasb") || has (py "american standard") || has (py "bible")
          || has (py "testament") || has (py "webster") || has (py "weymouth")
          || has (py "young's") || has (py "jubilee") || has (py "international version")
          || has (py "international standard version") || has (py "living translation")
          || has (py "god's word") then py "en"
  else py "und".

(** Lines 163-168: the version name of a file name. *)
Definition version_name_of (file_name : pystr) : pystr :=
  if endswith (py ".json.gz") file_name then drop_last 8 file_name
  else if endswith (py ".json") file_name then drop_last 5 file_name
  else file_name.

(** [locale_dir / path.name] *)
Definition target_path (dst : path) (file_name : pystr) : path :=
  dst ++ [detect_locale_from_name (version_name_of file_name); file_name].

(** The [for path in sorted(files):] loop over the names that are left.
    [shutil.move] moves a file that is there; a move that fails for
    another reason (the [except] branch of lines 183-184) is not in the
    model. *)
Fixpoint organize_loop (src dst : path) (names : list pystr) (fs : filesystem)
    : outcome * filesystem :=
  match names with
  | [] => (Returned, fs)
  | file_name :: later =>
      let locale := detect_locale_from_name (version_name_of file_name) in
      match mkdir_parents (dst ++ [locale]) fs with
      | None => (Raised, fs)
      | Some fs1 =>
          let target := dst ++ [locale; file_name] in
          if exists_ fs1 target then organize_loop src dst later fs1
          else
            match fs1 !! (src ++ [file_name]) with
            | Some (File content) =>
                (* shutil.move *)
                organize_loop src dst later
                  (<[target := File content]> (delete (src ++ [file_name]) fs1))
            | _ => organize_loop src dst later fs1
            end
      end
  end.

(** The version files of the source directory, as the loop visits them. *)
Definition version_files (fs : filesystem) (src : path) : list pystr :=
  sorted (filter (λ n, is_file fs (src ++ [n]) = true
                       ∧ (endswith (py ".json") n || endswith (py ".json.gz") n) = true)
                 (iterdir fs src)).

Definition organize_versions (source_dir target_dir : path) (fs : filesystem)
    : outcome * filesystem :=
  let src := source_dir in
  let dst := target_dir in
  if negb (exists_ fs src) || negb (is_dir fs src) then (Returned, fs)
  else
    match mkdir_parents dst fs with
    | None => (Raised, fs)
    | Some fs1 => organize_loop src dst (version_files fs1 src) fs1
    end.
End organize_versions_by_locale.

(* ================================================================== *)
(** * apply_book_name_mapping.py *)

(** What [json.load] returns. An object keeps the order of its members. *)
Inductive json :=
| JNull
| JBool (b : bool)
| JNumber (literal : pystr)
| JString (s : pystr)
| JArray (items : list json)
| JObject (members : list (pystr * json)).

(** Lines 86-91: the name a book key is written under. [if local_book:]
    takes the entry of the map only when it is a non-empty string. *)
Definition target_name_of (book_map : gmap pystr pystr) (english_book : pystr) : pystr :=
  match book_map !! english_book with
  | Some local_book => if truthy local_book then local_book else english_book
  | None => english_book
  end.

(** Lines 93-98: the value [new_data] holds under the target name once
    [chapters] has arrived there. *)
Definition merge_chapters (present : option json) (chapters : json) : json :=
  match present, chapters with
  | Some (JObject old), JObject new => JObject (od_update old new)
  | _, _ => chapters
  end.

(** One pass of [for english_book, chapters in data.items():], on the state
    [(new_data, changed)]. *)
Definition rename_book (book_map : gmap pystr pystr)
    (st : list (pystr * json) * bool) (item : pystr * json) : list (pystr * json) * bool :=
  let '(new_data, changed) := st in
  let '(english_book, chapters) := item in
  let changed :=
    match book_map !! english_book with
    | Some local_book => if truthy local_book then true else changed
    | None => changed
    end in
  let target_name := target_name_of book_map english_book in
  (od_set target_name (merge_chapters (od_get target_name new_data) chapters) new_data,
   changed).

Definition rename_books (book_map : gmap pystr pystr) (data : list (pystr * json))
    : list (pystr * json) * bool :=
  fold_left (rename_book book_map) data ([], false).

Section apply_book_name_mapping.
Variable upper : pystr → pystr.

(** The version file after the call. [version_name] is [filepath.stem];
    the mapping is typed as the source annotates it, a dict of dicts of
    strings, so its [isinstance(book_map, dict)] test holds. A write that
    fails (the [except] branch of lines 109-110) is not in the model. *)
Definition apply_mapping_to_version_file (version_name : pystr)
    (mapping : gmap pystr (gmap pystr pystr)) (file : json_file json) : json_file json :=
  let version_key := upper version_name in
  match mapping !! version_key with
  | None => file
  | Some book_map =>
      match file with
      | Holds (JObject data) =>
          let '(new_data, changed) := rename_books book_map data in
          if negb changed then file else Holds (JObject new_data)
      | _ => file
      end
  end.
End apply_book_name_mapping.

(* ================================================================== *)
(** * Vocabulary of the statements *)

(** A world with nothing on disk and a web that never answers. *)
Definition empty_world : world :=
  {| progress := ∅; data := ∅; html_cache := ∅;
     progress_file := Missing; output_file := Missing;
     web := λ _ _, RequestException; requests := 0%nat; trace := [] |}.

(** The four-part key of a verse text in the corpus. *)
Abbreviation corpus_key := (pystr * pystr * pystr * pystr)%type.

(** The levels of the nested mapping: [d[t]], [d[t][b]] and [d[t][b][c]],
    empty where the level is not there. *)
Definition books_of (d : corpus) (t : pystr) : gmap pystr (gmap pystr (gmap pystr pystr)) :=
  default ∅ (d !! t).

Definition chapters_of (d : corpus) (t b : pystr) : gmap pystr (gmap pystr pystr) :=
  default ∅ (books_of d t !! b).

Definition verses_of (d : corpus) (t b c : pystr) : gmap pystr pystr :=
  default ∅ (chapters_of d t b !! c).

(** [d[t][b][c][v]], when every level is there. *)
Definition verse_of (d : corpus) (k : corpus_key) : option pystr :=
  let '(t, b, c, v) := k in verses_of d t b c !! v.

Definition record_at (d : corpus) (k : corpus_key) (verse_text : pystr) : corpus :=
  let '(t, b, c, v) := k in record d t b c v verse_text.

(** A run of records, oldest first. *)
Definition record_all (writes : list (corpus_key * pystr)) (d : corpus) : corpus :=
  fold_left (λ d w, record_at d w.1 w.2) writes d.

(** The text of the last write to [k], if there is one. *)
Definition last_write (k : corpus_key) (writes : list (corpus_key * pystr)) : option pystr :=
  last (omap (λ w, if decide (w.1 = k) then Some w.2 else None) writes).

(** [mark_verse_completed] for a list of verse units, in order. *)
Fixpoint mark_all (units : list (pystr * Z * Z)) : M unit :=
  match units with
  | [] => mret tt
  | (book, chapter, verse) :: later =>
      mark_verse_completed book chapter verse;; mark_all later
  end.

(** A response that sends [fetch_page] to its next attempt: a status that is
    neither 200 nor 404, or a [RequestException]. *)
Definition retried (r : response) : Prop :=
  match r with
  | Response status_code _ => status_code ≠ 200%Z ∧ status_code ≠ 404%Z
  | RequestException => True
  end.

(** The world with more events in its trace and nothing else changed. *)
Definition with_events (w : world) (events : list event) : world :=
  {| progress := progress w; data := data w; html_cache := html_cache w;
     progress_file := progress_file w; output_file := output_file w;
     web := web w; requests := requests w; trace := trace w ++ events |}.

(** [str.lower] on ASCII text: only the letters A-Z change. *)
Definition ascii_lower (s : pystr) : pystr :=
  map (λ c, if (0x41 <=? c) && (c <=? 0x5A) then c + 0x20 else c) s.

(** [str.upper] on ASCII text. *)
Definition ascii_upper (s : pystr) : pystr :=
  map (λ c, if (0x61 <=? c) && (c <=? 0x7A) then c - 0x20 else c) s.

Definition is_ascii (s : pystr) : bool := forallb (λ c, c <? 0x80) s.

(** What book keys bring to the target name [T]: the values of the keys
    that are written under [T], merged in the order of the file. *)
Definition arrivals (book_map : gmap pystr pystr) (T : pystr)
    (data : list (pystr * json)) (start : option json) : option json :=
  fold_left (λ acc item,
               if decide (target_name_of book_map item.1 = T)
               then Some (merge_chapters acc item.2) else acc)
            data start.

(** A version marker as the pages have it:
    [<span class="versiontext"><a>label</a></span>]. *)
Definition version_marker (label : pystr) : node :=
  Tag (py "span")
      {| attr_class := [py "versiontext"]; attr_id := None; attr_src := None |}
      [Tag (py "a") no_attrs [NavigableString label]].

(** The parsed page with two labelled blocks, "A: text1" and "B: text2",
    and a boundary node between them. *)
Definition two_block_page (A text1 : pystr) (boundary : node) (B text2 : pystr) : node :=
  Tag (py "[document]") no_attrs
    [Tag (py "html") no_attrs
       [Tag (py "head") no_attrs [];
        Tag (py "body") no_attrs
          [version_marker A; NavigableString text1; boundary;
           version_marker B; NavigableString text2]]].



(** [BeautifulSoup(text, 'html.parser')] for text without markup. *)
Definition text_soup (text : pystr) : node :=
  Tag (py "[document]") no_attrs [NavigableString text].

(** The cache files a trace looked for, the URLs it requested, and the URLs
    it announced a web fetch for, each in the order of the trace. *)
Definition cache_lookups (events : list event) : list cache_path :=
  omap (λ e, match e with CacheExists f => Some f | _ => None end) events.

Definition requested (events : list event) : list pystr :=
  omap (λ e, match e with HttpGet url => Some url | _ => None end) events.

Definition web_attempts (events : list event) : list pystr :=
  omap (λ e, match e with
             | Log INFO (ScrapingFromWeb _ _ _ url) => Some url
             | _ => None
             end) events.

Section candidates.
Variable upper unescape path_stem : pystr → pystr.
Variable html5lib html_parser : pystr → node.

(** What a candidate URL yields: the page [fetch_page] returns for it,
    parsed; no translations when there is no page. With [skip_fetch] it is
    what the cached candidate yields. *)
Definition candidate_yield (url book : pystr) (chapter verse : Z) (skip_fetch : bool)
    : M (list (pystr * pystr)) :=
  html_content ← fetch_page url book chapter verse skip_fetch;
  match html_content with
  | Some content =>
      if truthy content
      then parse_verse_page upper unescape path_stem html5lib html_parser content
      else mret []
  | None => mret []
  end.

(** [all_miss w urls w']: from [w], the candidates [urls] are announced
    and fetched one after the other with the network enabled, each yields
    no translation, and the world is [w'] then. *)
Inductive all_miss (book : pystr) (chapter verse : Z) : world → list pystr → world → Prop :=
| all_miss_nil w : all_miss book chapter verse w [] w
| all_miss_cons w url w' urls w'' :
    candidate_yield url book chapter verse false
      (with_events w [Log INFO (ScrapingFromWeb book chapter verse url)]) = ([], w') →
    all_miss book chapter verse w' urls w'' →
    all_miss book chapter verse w (url :: urls) w''.
End candidates.

(** [bool(l)] for a list or dict. *)
Definition nonempty {A} (l : list A) : bool :=
  match l with [] => false | _ :: _ => true end.

(** The requests of a trace go to the attempted candidates in the order of
    the attempts, at most [MAX_RETRIES] to each. *)
Definition requests_follow (attempted requested_urls : list pystr) : Prop :=
  ∃ counts : list nat,
    length counts = length attempted
    ∧ Forall (λ n, n ≤ MAX_RETRIES)%nat counts
    ∧ requested_urls = concat (zip_with replicate counts attempted).

(** The two source paths of [build_urls]. *)
Definition SOURCE_PATHS : list pystr := [py "catholic"; py "apocrypha"].

(* ================================================================== *)
(** * Concrete inputs

    Library functions on the texts of the examples (ASCII, no markup), and
    the worlds, pages and files the examples run on. *)

(** [html.unescape] and [Path(p).stem] on text without character
    references and on a bare file stem. *)
Definition same_text (s : pystr) : pystr := s.

(** A parser that returns the given tree for any markup. *)
Definition parsed_as (soup : node) (markup : pystr) : node := soup.

Definition TOBIT : pystr := py "Tobit".

Definition TOBIT_1_1_CACHE : cache_path := (py "Tobit", py "catholic", py "1-1.htm").

Definition TOBIT_1_1_URL : pystr := py "https://biblehub.com/catholic/tobit/1-1.htm".

(** The world where Tobit 1:1 is marked completed already. *)
Definition tobit_done_world : world :=
  {| progress := {[progress_key TOBIT 1 1 := true]}; data := ∅; html_cache := ∅;
     progress_file := Missing; output_file := Missing;
     web := λ _ _, RequestException; requests := 0%nat; trace := [] |}.

(** Worlds with an empty cache where every request is answered 404, and
    where every request is answered 500. *)
Definition not_found_world : world :=
  {| progress := ∅; data := ∅; html_cache := ∅;
     progress_file := Missing; output_file := Missing;
     web := λ _ _, Response 404 []; requests := 0%nat; trace := [] |}.

Definition server_error_world : world :=
  {| progress := ∅; data := ∅; html_cache := ∅;
     progress_file := Missing; output_file := Missing;
     web := λ _ _, Response 500 []; requests := 0%nat; trace := [] |}.

(** A page of 100 spaces, and a page of 100 letters after a CR LF. *)
Definition blank_page : pystr := replicate 100 0x20.

Definition crlf_page : pystr := [0x0D; 0x0A] ++ replicate 100 0x61.

(** A page with the blocks "KJV: In the beginning" and "WEB: In the
    beginning, God" and a rule between them. *)
Definition genesis_page : node :=
  two_block_page (py "KJV") (py "In the beginning") (Tag (py "hr") no_attrs [])
                 (py "WEB") (py "In the beginning, God").


(** A world with an empty cache where every request is answered 200 with a
    page of 100 letters, a page without a version marker. *)
Definition soft_404_world : world :=
  {| progress := ∅; data := ∅; html_cache := ∅;
     progress_file := Missing; output_file := Missing;
     web := λ _ _, Response 200 (replicate 100 0x61); requests := 0%nat; trace := [] |}.

(** A book-name map with an empty entry, and a version file with that book. *)
Definition empty_entry_map : gmap pystr pystr := {[py "Genesis" := []]}.

Definition genesis_file : list (pystr * json) :=
  [(py "Genesis", JObject [(py "1", JObject [(py "1", JString (py "In the beginning"))])])].

Definition danish_mapping : gmap pystr (gmap pystr pystr) :=
  {[py "DANISH" := {[py "Exodus" := py "2 Mosebog"]}]}.

Definition exodus_file : list (pystr * json) := [(py "Exodus", JObject [])].

(** A source directory with one version file whose name is taken in the
    target directory. *)
Definition NIV_FILE : pystr := py "NEW INTERNATIONAL VERSION.json.gz".

Definition colliding_fs : filesystem :=
  {[ [py "versions"] := Dir;
     [py "versions"; NIV_FILE] := File (py "new");
     [py "versions_gz"; py "en"; NIV_FILE] := File (py "old") ]}.

(* ================================================================== *)
(** * Further vocabulary *)

(** Two worlds that differ in the trace at most. *)
Definition same_state (w w' : world) : Prop :=
  progress w' = progress w ∧ data w' = data w ∧ html_cache w' = html_cache w
  ∧ progress_file w' = progress_file w ∧ output_file w' = output_file w
  ∧ web w' = web w ∧ requests w' = requests w.

(** What a call leaves alone when it may only ask the web and write one
    cache file: the ledger, the corpus, the two JSON files, the answers
    of the web and every other cache file. *)
Definition only_fetches (cache_file : option cache_path) (w w' : world) : Prop :=
  progress w' = progress w ∧ data w' = data w
  ∧ progress_file w' = progress_file w ∧ output_file w' = output_file w
  ∧ web w' = web w
  ∧ (requests w ≤ requests w')%nat
  ∧ ∀ f, cache_file ≠ Some f → html_cache w' !! f = html_cache w !! f.

(** [single_spaced in_run s]: the white space of [s] is single spaces
    (U+0020), none of them right after another white space character;
    [in_run] says that one came right before [s]. *)
Fixpoint single_spaced (in_run : bool) (s : pystr) : Prop :=
  match s with
  | [] => True
  | c :: s' =>
      if isspace c then in_run = false ∧ c = 0x20 ∧ single_spaced true s'
      else single_spaced false s'
  end.

(** An entry a parsed page may give: a label and a text, neither empty, the
    text in the form the cleaning leaves. *)
Definition entry_ok (item : pystr * pystr) : Prop :=
  item.1 ≠ [] ∧ item.2 ≠ [] ∧ strip item.2 = item.2 ∧ collapse_ws item.2 = item.2.

(** What the scraper holds as the translations of a page: a dict (no label
    twice) of entries a parsed page may give. *)
Definition well_formed (translations : list (pystr * pystr)) : Prop :=
  NoDup translations.*1 ∧ Forall entry_ok translations.

(** [keeps_store w w']: the ledger and the corpus, in memory and on disk,
    are in [w'] what they were in [w]. *)
Definition keeps_store (w w' : world) : Prop :=
  progress w' = progress w ∧ data w' = data w
  ∧ progress_file w' = progress_file w ∧ output_file w' = output_file w.

(** [web_footprint files budget w w']: between [w] and [w'] at most [budget]
    requests were made, and no cache file outside [files] has changed. *)
Definition web_footprint (files : list cache_path) (budget : nat) (w w' : world) : Prop :=
  web w' = web w
  ∧ (requests w ≤ requests w' ≤ requests w + budget)%nat
  ∧ ∀ f, f ∉ files → html_cache w' !! f = html_cache w !! f.

(** The cache files of the candidate URLs of a verse. *)
Definition candidate_files (lower : pystr → pystr) (book : pystr) (chapter verse : Z)
    : list cache_path :=
  omap (λ url, cache_file_of url book chapter verse) (build_urls lower book chapter verse).

(** The writes of lines 396-409 of [scrape_verse], oldest first. *)
Definition verse_writes (upper : pystr → pystr) (book : pystr) (chapter verse : Z)
    (all_translations : list (pystr * pystr)) : list (corpus_key * pystr) :=
  map (λ item, ((upper item.1, replace_char 0x5F 0x20 book,
                 str_of_int chapter, str_of_int verse), item.2))
      all_translations.

(** A page of 100 letters; a world that has it in the cache file of
    Tobit 1:1, and a world where the web answers every request with it. *)
Definition long_page : pystr := replicate 100 0x61.

Definition tobit_cached_world : world :=
  {| progress := ∅; data := ∅;
     html_cache := {[TOBIT_1_1_CACHE := Stored long_page]};
     progress_file := Missing; output_file := Missing;
     web := λ _ _, RequestException; requests := 0%nat; trace := [] |}.


(* ================================================================== *)
(** * [scrape_all]

    [BIBLE_STRUCTURE] maps a book to a dict with one entry, the number of
    chapters and the list of the verses per chapter; the books are in the
    order of the dict. *)
Definition BIBLE_STRUCTURE : list (pystr * (Z * list Z)) := [
  (py "1 Esdras", (9,
     [36; 37; 41; 42; 56; 38; 40; 40; 55]));
  (py "2 Esdras", (16,
     [40; 36; 40; 44; 48; 58; 50; 40; 41; 44; 44; 57; 48; 53; 48; 41]));
  (py "Tobit", (14,
     [21; 22; 17; 21; 22; 23; 22; 21; 23; 22; 22; 24; 22; 25]));
  (py "Judith", (16,
     [16; 16; 19; 17; 20; 21; 19; 23; 17; 21; 19; 18; 23; 17; 20; 24]));
  (py "Esther (Greek)", (10,
     [22; 23; 15; 17; 14; 14; 24; 19; 17; 29]));
  (py "Wisdom of Solomon", (19,
     [16; 24; 19; 20; 23; 19; 20; 21; 22; 23; 19; 18; 20; 22; 21; 21; 20; 19; 21]));
  (py "Ecclesiasticus (Sira)", (51,
     [28; 32; 22; 21; 28; 23; 25; 30; 19; 29; 19; 21; 27; 20; 28; 21; 23; 30; 32; 19; 23;
     27; 20; 28; 23; 25; 22; 24; 26; 26; 22; 27; 24; 28; 29; 24; 23; 31; 30; 26; 24; 28;
     29; 31; 23; 26; 22; 22; 25; 30; 23]));
  (py "Baruch", (6,
     [22; 35; 38; 37; 9; 36]));
  (py "Epistle of Jeremiah", (1,
     [73]));
  (py "Prayer of Azariah", (1,
     [68]));
  (py "Susanna", (1,
     [64]));
  (py "Bel and the Dragon", (1,
     [42]));
  (py "Prayer of Manasseh", (1,
     [15]));
  (py "1 Maccabees", (16,
     [64; 70; 60; 61; 68; 63; 50; 53; 59; 70; 55; 57; 61; 61; 41; 36]));
  (py "2 Maccabees", (15,
     [36; 32; 39; 31; 39; 36; 29; 30; 38; 34; 28; 39; 40; 38; 32]))
]%Z.

(** Lines 428-432 of [scrape_all]: [total_verses]. *)
Definition total_verses (structure : list (pystr * (Z * list Z))) : Z :=
  fold_left (λ total item, total + fold_right Z.add 0 item.2.2)%Z structure 0%Z.

Section scrape_all.
Variable lower upper unescape path_stem : pystr → pystr.
Variable html5lib html_parser : pystr → node.

(** [for verse in range(1, num_verses + 1)], over the verses that are left;
    [completed] counts the calls of [scrape_verse], whatever they return.
    The lines that [scrape_all] logs itself are not in the trace. *)
Fixpoint scrape_verses (book : pystr) (chapter : Z) (verses : list Z) (completed : Z)
    : M Z :=
  match verses with
  | [] => mret completed
  | verse :: later =>
      success ← scrape_verse lower upper unescape path_stem html5lib html_parser
                  book chapter verse;
      scrape_verses book chapter later (completed + 1)%Z
  end.

(** [for chapter in range(1, num_chapters + 1)]; [None] is the [IndexError]
    of [verses_per_chapter[chapter - 1]]. *)
Fixpoint scrape_chapters (book : pystr) (verses_per_chapter : list Z) (chapters : list Z)
    (completed : Z) : M (option Z) :=
  match chapters with
  | [] => mret (Some completed)
  | chapter :: later =>
      match verses_per_chapter !! Z.to_nat (chapter - 1) with
      | None => mret None
      | Some num_verses =>
          completed ← scrape_verses book chapter (seqZ 1 num_verses) completed;
          scrape_chapters book verses_per_chapter later completed
      end
  end.

(** [for book, chapters_data in BIBLE_STRUCTURE.items()] *)
Fixpoint scrape_books (structure : list (pystr * (Z * list Z))) (completed : Z)
    : M (option Z) :=
  match structure with
  | [] => mret (Some completed)
  | (book, (num_chapters, verses_per_chapter)) :: later =>
      r ← scrape_chapters book verses_per_chapter (seqZ 1 num_chapters) completed;
      match r with
      | None => mret None
      | Some completed => scrape_books later completed
      end
  end.

(** [scrape_all] returns nothing; the model returns [completed], the number
    its last but one log line reports, or [None] for an [IndexError]. *)
Definition scrape_all : M (option Z) :=
  r ← scrape_books BIBLE_STRUCTURE 0%Z;
  match r with
  | None => mret None
  | Some completed => save_data;; save_progress;; mret (Some completed)
  end.

End scrape_all.

(** The verses [scrape_all] goes through for a table. *)
Definition in_table (structure : list (pystr * (Z * list Z))) (book : pystr)
    (chapter verse : Z) : Prop :=
  ∃ num_chapters verses_per_chapter num_verses,
    (book, (num_chapters, verses_per_chapter)) ∈ structure
    ∧ (1 ≤ chapter ≤ num_chapters)%Z
    ∧ verses_per_chapter !! Z.to_nat (chapter - 1) = Some num_verses
    ∧ (1 ≤ verse ≤ num_verses)%Z.

(** A table whose lists have one entry for every chapter. *)
Definition table_ok (structure : list (pystr * (Z * list Z))) : bool :=
  forallb (λ item, bool_decide (item.2.1 = Z.of_nat (length item.2.2))
                   && forallb (λ n, 0 <=? n)%Z item.2.2) structure.

(** The verses of a table in the order [scrape_all] goes through them. *)
Definition table_units (structure : list (pystr * (Z * list Z))) : list (pystr * Z * Z) :=
  item ← structure;
  chapter ← seqZ 1 item.2.1;
  match item.2.2 !! Z.to_nat (chapter - 1) with
  | Some num_verses => (λ verse, (item.1, chapter, verse)) <$> seqZ 1 num_verses
  | None => []
  end.

(** The world after a run that has completed every verse of the table. *)
Definition all_done_world : world := (mark_all (table_units BIBLE_STRUCTURE) empty_world).2.



(** The values [detect_locale_from_name] can return. *)
Definition LOCALE_CODES : list pystr := py "und" :: map rule_locale LOCALE_RULES.

(** A locale code that is safe as a directory name: two or three lower-case
    letters. *)
Definition code_ok (code : pystr) : bool :=
  (2 <=? length code)%nat && (length code <=? 3)%nat
  && forallb (λ c, (0x61 <=? c) && (c <=? 0x7A)) code.

(** A page without version markers, with the block of the parallel view:
    the link of the view itself, then one translation. *)
Definition parallel_page : node :=
  Tag (py "[document]") no_attrs
    [Tag (py "div") {| attr_class := []; attr_id := Some (py "par"); attr_src := None |}
       [Tag (py "a") no_attrs [NavigableString (py "Parallel")];
        NavigableString (py " ");
        Tag (py "a") no_attrs [NavigableString (py "kjv")];
        NavigableString (py "In the beginning")]].

(** A version file with one book that has one chapter. *)
Definition exodus_chapter_file : list (pystr * json) :=
  [(py "Exodus", JObject [(py "1", JObject [(py "1", JString (py "Now these are the names"))])])].

(** The names of a list in the order of their first occurrence, each once. *)
Definition first_seen (names : list pystr) : list pystr :=
  fold_left (λ seen name, if decide (name ∈ seen) then seen else seen ++ [name]) names [].

(* ================================================================== *)
(** * Strings: facts *)

#[local] Arguments Nat.modulo : simpl never.

(** Unfold the state monad one layer and compute. *)
Ltac step :=
  unfold mbind, M_bind, mret, M_ret, logger, sleep, emit, get_progress, set_progress,
    get_data, set_data, write_progress_file, write_output_file, cache_stat, cache_write,
    session_get; cbn.

(** Close [w' = with_events w events] for a world written out in full. *)
Ltac same_world :=
  unfold with_events; cbn; rewrite <- ?(assoc_L (++)); cbn; reflexivity.

Lemma py_inj (s t : string) : py s = py t → s = t.
Proof.
  unfold py. intros H.
  rewrite <- (string_of_list_ascii_of_string s), <- (string_of_list_ascii_of_string t).
  f_equal. revert H.
  generalize (list_ascii_of_string s) (list_ascii_of_string t).
  induction l as [|a l IH]; intros [|b l'] H; simplify_eq/=; try done.
  f_equal; [|by apply IH].
  rewrite <- (ascii_N_embedding a), <- (ascii_N_embedding b). by f_equal.
Qed.

Lemma to_int_not_nil (n : Z) :
  Z.to_int n ≠ Decimal.Pos Decimal.Nil ∧ Z.to_int n ≠ Decimal.Neg Decimal.Nil.
Proof.
  destruct n as [|p|p]; cbn; split; try discriminate; intros [= H];
    by apply Unsigned.to_uint_nonnil in H.
Qed.

Lemma str_of_int_inj (a b : Z) : str_of_int a = str_of_int b → a = b.
Proof.
  unfold str_of_int. intros H%py_inj.
  apply DecimalZ.to_int_inj.
  destruct (to_int_not_nil a) as [Ha1 Ha2], (to_int_not_nil b) as [Hb1 Hb2].
  pose proof (NilZero.isi _ Ha1 Ha2) as Ia.
  pose proof (NilZero.isi _ Hb1 Hb2) as Ib.
  rewrite H in Ia. congruence.
Qed.

Lemma py_cons (c : ascii) (s : string) : py (String c s) = N_of_ascii c :: py s.
Proof. reflexivity. Qed.

Lemma uint_chars (d : Decimal.uint) :
  Forall int_char (py (NilEmpty.string_of_uint d)).
Proof.
  induction d; cbn [NilEmpty.string_of_uint]; [constructor|..];
    rewrite py_cons; apply Forall_cons; (split; [right; cbn; lia | assumption]).
Qed.

Lemma str_of_int_chars (n : Z) : Forall int_char (str_of_int n).
Proof.
  unfold str_of_int, NilZero.string_of_int, NilZero.string_of_uint.
  assert (Hz : Forall int_char (py "0")).
  { apply Forall_cons; split; [right; cbn; lia | constructor]. }
  destruct (Z.to_int n) as [d|d].
  - destruct d; try done; apply uint_chars.
  - rewrite py_cons. apply Forall_cons; split; [by left|].
    destruct d; try done; apply uint_chars.
Qed.

Lemma str_of_int_no_char (c : N) (n : Z) :
  ¬ int_char c → c ∉ str_of_int n.
Proof.
  intros Hc Hin. pose proof (str_of_int_chars n) as H.
  rewrite Forall_forall in H. by apply Hc, H.
Qed.

(** Two lists cut at the first occurrence of [x] agree piece by piece. *)
Lemma split_first {A} (x : A) (a a' b b' : list A) :
  x ∉ a → x ∉ a' → a ++ x :: b = a' ++ x :: b' → a = a' ∧ b = b'.
Proof.
  revert a'. induction a as [|y a IHa]; intros a' Ha Ha' H; destruct a' as [|y' a'].
  - by injection H as ->.
  - injection H as -> _. by apply not_elem_of_cons in Ha' as [? _].
  - injection H as -> _. by apply not_elem_of_cons in Ha as [? _].
  - injection H as -> H.
    apply not_elem_of_cons in Ha as [_ Ha]. apply not_elem_of_cons in Ha' as [_ Ha'].
    by destruct (IHa a' Ha Ha' H) as [-> ->].
Qed.

(** The same at the last occurrence. *)
Lemma split_last {A} (x : A) (a a' b b' : list A) :
  x ∉ b → x ∉ b' → a ++ x :: b = a' ++ x :: b' → a = a' ∧ b = b'.
Proof.
  intros Hb Hb' H.
  apply (f_equal reverse) in H. rewrite !reverse_app, !reverse_cons in H.
  rewrite <- !(assoc_L (++)) in H. cbn in H.
  apply split_first in H as [H1 H2]; [| by rewrite elem_of_reverse..].
  split; by apply (inj reverse).
Qed.

Lemma progress_key_shape (book : pystr) (chapter verse : Z) :
  progress_key book chapter verse
  = (book ++ 0x5F :: str_of_int chapter) ++ 0x5F :: str_of_int verse.
Proof. unfold progress_key. by rewrite <- (assoc_L (++)). Qed.

Lemma progress_key_inj (book book' : pystr) (chapter chapter' verse verse' : Z) :
  progress_key book chapter verse = progress_key book' chapter' verse' →
  book = book' ∧ chapter = chapter' ∧ verse = verse'.
Proof.
  rewrite !progress_key_shape. intros H.
  assert (Hund : ∀ n, 0x5F ∉ str_of_int n).
  { intros n. apply str_of_int_no_char. unfold int_char. lia. }
  apply split_last in H as [H Hv]; [|done..].
  apply split_last in H as [Hb Hc]; [|done..].
  by rewrite Hb, (str_of_int_inj _ _ Hc), (str_of_int_inj _ _ Hv).
Qed.

(* ================================================================== *)
(** * The corpus accumulator *)

Lemma verse_of_record (d : corpus) (k k' : corpus_key) (text : pystr) :
  verse_of (record_at d k text) k' = if decide (k' = k) then Some text else verse_of d k'.
Proof.
  destruct k as [[[t b] c] v], k' as [[[t' b'] c'] v'].
  unfold verse_of, verses_of, chapters_of, books_of, record_at, record.
  destruct (decide (t' = t)) as [->|Ht];
    [|by rewrite lookup_insert_ne, decide_False by congruence].
  rewrite lookup_insert_eq. cbn.
  destruct (decide (b' = b)) as [->|Hb];
    [|by rewrite lookup_insert_ne, decide_False by congruence].
  rewrite lookup_insert_eq. cbn.
  destruct (decide (c' = c)) as [->|Hc];
    [|by rewrite lookup_insert_ne, decide_False by congruence].
  rewrite lookup_insert_eq. cbn.
  destruct (decide (v' = v)) as [->|Hv];
    [|by rewrite lookup_insert_ne, decide_False by congruence].
  by rewrite lookup_insert_eq, decide_True.
Qed.

Lemma record_twice (d : corpus) (t b c v text text' : pystr) :
  record (record d t b c v text) t b c v text' = record d t b c v text'.
Proof.
  unfold record. rewrite !lookup_insert_eq. cbn. rewrite !lookup_insert_eq. cbn.
  rewrite !lookup_insert_eq. cbn. by rewrite !insert_insert_eq.
Qed.

Lemma verse_of_record_all (writes : list (corpus_key * pystr)) (d : corpus) (k : corpus_key) :
  verse_of (record_all writes d) k = from_option Some (verse_of d k) (last_write k writes).
Proof.
  unfold record_all, last_write. revert d.
  induction writes as [|[k' text] writes IH] using rev_ind; intros d; [done|].
  rewrite fold_left_app, omap_app. cbn.
  rewrite verse_of_record.
  destruct (decide (k' = k)) as [->|Hk].
  - by rewrite decide_True, last_snoc.
  - rewrite decide_False, app_nil_r by congruence. apply IH.
Qed.

(** C7. Recording a verse text under (translation, book, chapter, verse)
    stores it there whatever levels of [self.data] existed before, and
    leaves every other translation, every other book of the translation,
    every other chapter of the book and every other verse as they were;
    recording again under the same key replaces the text, and after any run
    of records a key holds the text of the last write to it. The chapter
    and verse keys are [str(chapter)] and [str(verse)], which tell any two
    numbers apart. *)
Theorem corpus_record_last_write_wins (d : corpus) (t b c v text : pystr) :
  let d' := record d t b c v text in
  verse_of d' (t, b, c, v) = Some text
  ∧ (∀ k', verse_of d' k' = if decide (k' = (t, b, c, v)) then Some text else verse_of d k')
  ∧ (∀ t', t' ≠ t → d' !! t' = d !! t')
  ∧ (∀ b', b' ≠ b → books_of d' t !! b' = books_of d t !! b')
  ∧ (∀ c', c' ≠ c → chapters_of d' t b !! c' = chapters_of d t b !! c')
  ∧ (∀ v', v' ≠ v → verses_of d' t b c !! v' = verses_of d t b c !! v')
  ∧ (∀ text', record d' t b c v text' = record d t b c v text')
  ∧ (∀ writes k,
       verse_of (record_all writes d) k
       = from_option Some (verse_of d k) (last_write k writes))
  ∧ (∀ n n' : Z, str_of_int n = str_of_int n' → n = n').
Proof.
  cbn zeta. split_and!.
  - change (record d t b c v text) with (record_at d (t, b, c, v) text).
    by rewrite verse_of_record, decide_True.
  - intros k'. apply (verse_of_record d (t, b, c, v)).
  - intros t' Ht. unfold record. by rewrite lookup_insert_ne.
  - intros b' Hb. unfold books_of, record. rewrite lookup_insert_eq. cbn.
    by rewrite lookup_insert_ne.
  - intros c' Hc. unfold chapters_of, books_of, record. rewrite lookup_insert_eq. cbn.
    rewrite lookup_insert_eq. cbn. by rewrite lookup_insert_ne.
  - intros v' Hv. unfold verses_of, chapters_of, books_of, record.
    rewrite lookup_insert_eq. cbn. rewrite lookup_insert_eq. cbn.
    rewrite lookup_insert_eq. cbn. by rewrite lookup_insert_ne.
  - intros text'. apply record_twice.
  - intros writes k. apply verse_of_record_all.
  - apply str_of_int_inj.
Qed.

(* ================================================================== *)
(** * The progress ledger *)

Lemma progress_mark (book : pystr) (chapter verse : Z) (w : world) :
  progress (mark_verse_completed book chapter verse w).2
  = <[progress_key book chapter verse := true]> (progress w).
Proof.
  unfold mark_verse_completed. step.
  by destruct (decide _).
Qed.

Lemma progress_mark_all (units : list (pystr * Z * Z)) (w : world) (key : pystr) :
  progress (mark_all units w).2 !! key
  = if decide (key ∈ (λ u, progress_key u.1.1 u.1.2 u.2) <$> units) then Some true
    else progress w !! key.
Proof.
  revert w. induction units as [|[[b c] v] units IH]; intros w.
  - cbn. rewrite decide_False; [done|]. apply not_elem_of_nil.
  - cbn [mark_all]. unfold mbind, M_bind.
    destruct (mark_verse_completed b c v w) as [[] w1] eqn:E.
    rewrite IH. pose proof (progress_mark b c v w) as Hp. rewrite E in Hp. cbn in Hp.
    rewrite Hp.
    destruct (decide (key ∈ _ <$> units)) as [Hin|Hin];
      destruct (decide (key ∈ _ <$> ((b, c, v) :: units))) as [Hin'|Hin'];
      rewrite fmap_cons in Hin'; cbn in Hin'.
    + done.
    + exfalso. apply Hin'. by right.
    + apply elem_of_cons in Hin' as [->|Hin']; [|done].
      by rewrite lookup_insert_eq.
    + apply not_elem_of_cons in Hin' as [Hne _].
      by rewrite lookup_insert_ne.
Qed.

Lemma load_after_save (w : world) :
  progress (load_progress (fresh_process (save_progress w).2)).2 = progress w.
Proof.
  unfold save_progress, load_progress. step.
  by destruct (output_file w).
Qed.

(** C6. A verse unit that was marked done before the ledger is flushed is
    done for a fresh process that loads the progress file; a unit that was
    not marked, and was not in the ledger before, is not done. *)
Theorem progress_ledger_roundtrip (w : world) (units : list (pystr * Z * Z))
    (book : pystr) (chapter verse : Z) :
  let marked := (mark_all units w).2 in
  let flushed := (save_progress marked).2 in
  let resumed := (load_progress (fresh_process flushed)).2 in
  ((book, chapter, verse) ∈ units →
     (is_verse_completed book chapter verse resumed).1 = true)
  ∧ ((book, chapter, verse) ∉ units →
     progress w !! progress_key book chapter verse = None →
     (is_verse_completed book chapter verse resumed).1 = false).
Proof.
  cbn zeta. unfold is_verse_completed. step.
  rewrite load_after_save, progress_mark_all.
  split.
  - intros Hin. rewrite decide_True; [done|].
    apply list_elem_of_fmap. by exists (book, chapter, verse).
  - intros Hnot Hw. rewrite decide_False; [by rewrite Hw|].
    intros ([[b c] v] & Heq & Hin)%list_elem_of_fmap. cbn in Heq.
    apply progress_key_inj in Heq as (-> & -> & ->). done.
Qed.

(* ================================================================== *)
(** * The disk cache *)

Lemma universal_newlines_id (text : pystr) :
  0x0D ∉ text → universal_newlines text = text.
Proof.
  induction text as [|c text IH]; [done|].
  intros [Hc Ht]%not_elem_of_cons. cbn.
  destruct (N.eqb_spec c 0x0D) as [->|_]; [done|].
  by rewrite IH.
Qed.

(** What [get] gives for a file that holds [text]. *)
Lemma load_from_cache_stored (f : cache_path) (text : pystr) (w : world) :
  html_cache w !! f = Some (Stored text) →
  (load_from_cache (Some f) w).1
  = if (utf8_size text <? 100)%N then None
    else if truthy (strip (universal_newlines text))
         then Some (universal_newlines text) else None.
Proof.
  intros Hf. unfold load_from_cache. step. rewrite Hf. cbn.
  destruct (utf8_size text <? 100)%N; [done|]. step.
  by destruct (truthy _).
Qed.

Lemma cache_file_of_some (url book : pystr) (chapter verse : Z) :
  chapter ≠ 0%Z → verse ≠ 0%Z →
  ∃ source,
    cache_file_of url book chapter verse
    = Some (if truthy book then replace_char 0x20 0x5F book else py "unknown", source,
            str_of_int chapter ++ py "-" ++ str_of_int verse ++ py ".htm")
    ∧ source ∈ [py "catholic"; py "apocrypha"; py "unknown"].
Proof.
  intros Hc Hv. unfold cache_file_of.
  rewrite !bool_decide_eq_true_2 by done. cbn [andb].
  destruct (contains (py "/catholic/") url); [|destruct (contains (py "/apocrypha/") url)];
    eexists; (split; [reflexivity|]); set_solver.
Qed.

(** C2, amended. For a key with chapter and verse not zero the cache has a
    file, and a put of [text] followed by a get of the same key gives back
    [text] as a text-mode read returns it (every CR LF and every lone CR
    as LF: [text] itself when it has no carriage return), unless the UTF-8
    size of [text] is below 100 bytes or [text] is white space only, when
    the get is a miss. *)
Theorem cache_put_get (url book : pystr) (chapter verse : Z) (text : pystr) (w : world) :
  chapter ≠ 0%Z → verse ≠ 0%Z →
  ∃ f, cache_file_of url book chapter verse = Some f
    ∧ (load_from_cache (Some f) (cache_write f text w).2).1
      = (if (utf8_size text <? 100)%N then None
         else if truthy (strip (universal_newlines text))
              then Some (universal_newlines text) else None)
    ∧ (0x0D ∉ text → universal_newlines text = text).
Proof.
  intros Hc Hv.
  destruct (cache_file_of_some url book chapter verse Hc Hv) as (source & Hf & _).
  eexists. split; [exact Hf|]. split; [|apply universal_newlines_id].
  apply load_from_cache_stored. cbn. apply lookup_insert_eq.
Qed.

(* ================================================================== *)
(** * The HTTP fetcher *)

Lemma with_events_nil (w : world) : with_events w [] = w.
Proof. destruct w. unfold with_events. cbn. by rewrite app_nil_r. Qed.

Lemma with_events_app (w : world) (e1 e2 : list event) :
  with_events (with_events w e1) e2 = with_events w (e1 ++ e2).
Proof. unfold with_events. cbn. by rewrite (assoc_L (++)). Qed.

(** A look into the cache changes nothing but the trace, asks nothing of
    the web, and what it finds does not depend on the trace. *)
Lemma load_from_cache_events (cache_file : option cache_path) (w : world) :
  ∃ events,
    (load_from_cache cache_file w).2 = with_events w events
    ∧ requested events = []
    ∧ web_attempts events = []
    ∧ cache_lookups events = option_list cache_file.
Proof.
  unfold load_from_cache. destruct cache_file as [f|].
  - step. destruct (html_cache w !! f) as [b|] eqn:Hb.
    + destruct (st_size b <? 100)%N.
      * step. eexists [_; _]. split; [same_world|done].
      * step. destruct b as [text|size].
        -- destruct (truthy _); step.
           ++ eexists [_; _; _]. split; [same_world|done].
           ++ eexists [_; _]. split; [same_world|done].
        -- eexists [_; _; _]. split; [same_world|done].
    + step. eexists [_]. split; [same_world|done].
  - step. exists []. by rewrite with_events_nil.
Qed.

Lemma load_from_cache_with_events (cache_file : option cache_path) (w : world)
    (events : list event) :
  (load_from_cache cache_file (with_events w events)).1 = (load_from_cache cache_file w).1.
Proof.
  unfold load_from_cache. destruct cache_file as [f|]; [|done].
  step. destruct (html_cache w !! f) as [b|]; [|done].
  destruct (st_size b <? 100)%N; [done|]. step.
  destruct b; [|done]. by destruct (truthy _).
Qed.

Lemma fetch_from_web_not_found (url : pystr) (cache_file : option cache_path)
    (attempts : list nat) (k : nat) (w : world) (body : pystr) :
  (k < length attempts)%nat →
  (∀ i, (i < k)%nat → retried (web w (requests w + i)%nat url)) →
  web w (requests w + k)%nat url = Response 404 body →
  let r := fetch_from_web url cache_file attempts w in
  r.1 = None
  ∧ requests r.2 = (requests w + k + 1)%nat
  ∧ html_cache r.2 = html_cache w
  ∧ last (trace r.2) = Some (Log WARNING (PageNotFound url)).
Proof.
  revert k w. induction attempts as [|attempt later IH]; intros k w Hk Hretried H404; cbn zeta.
  { cbn in Hk. lia. }
  cbn [fetch_from_web]. step.
  destruct k as [|k].
  - rewrite Nat.add_0_r in H404. rewrite H404.
    rewrite decide_False, decide_True by done. step.
    split_and!; [done|lia|done|]. by rewrite last_snoc.
  - pose proof (Hretried 0%nat ltac:(lia)) as H0. rewrite Nat.add_0_r in H0.
    assert (Hk' : (k < length later)%nat) by (cbn in Hk; lia).
    destruct (web w (requests w) url) as [status text|] eqn:Hr.
    + destruct H0 as [H200 Hn404].
      rewrite !decide_False by done. step.
      case_decide; step;
        (edestruct (IH k) as (-> & -> & -> & ->); [exact Hk'| |
          cbn; rewrite <- H404; f_equal; lia | cbn; split_and!; [done|lia|done|done]]);
        cbn; intros i Hi; specialize (Hretried (S i) ltac:(lia));
        by replace (S (requests w + i)) with (requests w + S i)%nat by lia.
    + step.
      case_decide; step;
        (edestruct (IH k) as (-> & -> & -> & ->); [exact Hk'| |
          cbn; rewrite <- H404; f_equal; lia | cbn; split_and!; [done|lia|done|done]]);
        cbn; intros i Hi; specialize (Hretried (S i) ltac:(lia));
        by replace (S (requests w + i)) with (requests w + S i)%nat by lia.
Qed.

Lemma fetch_from_web_exhausted (url : pystr) (cache_file : option cache_path)
    (attempts : list nat) (w : world) :
  (∀ i, (i < length attempts)%nat → retried (web w (requests w + i)%nat url)) →
  let r := fetch_from_web url cache_file attempts w in
  r.1 = None
  ∧ requests r.2 = (requests w + length attempts)%nat
  ∧ html_cache r.2 = html_cache w
  ∧ last (trace r.2) = Some (Log ERROR (FailedToFetch url)).
Proof.
  revert w. induction attempts as [|attempt later IH]; intros w Hretried; cbn zeta.
  { cbn. step. split_and!; [done|lia|done|]. by rewrite last_snoc. }
  cbn [fetch_from_web]. step.
  pose proof (Hretried 0%nat ltac:(cbn; lia)) as H0. rewrite Nat.add_0_r in H0.
  destruct (web w (requests w) url) as [status text|] eqn:Hr.
  - destruct H0 as [H200 Hn404].
    rewrite !decide_False by done. step.
    case_decide; step;
      (edestruct IH as (-> & -> & -> & ->);
         [|cbn; split_and!; [done|lia|done|done]]);
      cbn; intros i Hi; specialize (Hretried (S i) ltac:(cbn; lia));
      by replace (S (requests w + i)) with (requests w + S i)%nat by lia.
  - step.
    case_decide; step;
      (edestruct IH as (-> & -> & -> & ->);
         [|cbn; split_and!; [done|lia|done|done]]);
      cbn; intros i Hi; specialize (Hretried (S i) ltac:(cbn; lia));
      by replace (S (requests w + i)) with (requests w + S i)%nat by lia.
Qed.

(** C3, amended. When the cache has no usable page, [fetch_page] answers a
    404 with [None] and asks no more (whatever attempt the 404 comes at);
    when every one of its [MAX_RETRIES] = 3 attempts meets another status
    than 200 or a [RequestException], it returns [None] after the third.
    The caller gets the same value, [None], in both cases: they differ in
    the log line and in the number of requests only. *)
Theorem fetch_page_failures (url book : pystr) (chapter verse : Z) (w : world) :
  (load_from_cache (cache_file_of url book chapter verse) w).1 = None →
  let r := fetch_page url book chapter verse false w in
  (∀ k body,
     (k < MAX_RETRIES)%nat →
     (∀ i, (i < k)%nat → retried (web w (requests w + i)%nat url)) →
     web w (requests w + k)%nat url = Response 404 body →
     r.1 = None
     ∧ requests r.2 = (requests w + k + 1)%nat
     ∧ last (trace r.2) = Some (Log WARNING (PageNotFound url)))
  ∧ ((∀ i, (i < MAX_RETRIES)%nat → retried (web w (requests w + i)%nat url)) →
     r.1 = None
     ∧ requests r.2 = (requests w + MAX_RETRIES)%nat
     ∧ last (trace r.2) = Some (Log ERROR (FailedToFetch url))).
Proof.
  intros Hmiss. cbn zeta. unfold fetch_page.
  destruct (load_from_cache_events (cache_file_of url book chapter verse) w)
    as (events & Hw & _).
  unfold mbind, M_bind, sleep, emit.
  destruct (load_from_cache _ w) as [cached w1]. cbn in Hmiss, Hw. subst cached w1.
  cbn -[fetch_from_web seq MAX_RETRIES]. split.
  - intros k body Hk Hretried H404.
    pose proof (fetch_from_web_not_found url (cache_file_of url book chapter verse)
                  (seq 0 MAX_RETRIES) k
                  (with_events (with_events w events) [Sleep REQUEST_DELAY]) body)
      as Hweb.
    rewrite length_seq in Hweb.
    destruct (Hweb Hk Hretried H404) as (H1 & H2 & _ & H4).
    split_and!; [exact H1|exact H2|exact H4].
  - intros Hretried.
    pose proof (fetch_from_web_exhausted url (cache_file_of url book chapter verse)
                  (seq 0 MAX_RETRIES)
                  (with_events (with_events w events) [Sleep REQUEST_DELAY]))
      as Hweb.
    rewrite length_seq in Hweb.
    destruct (Hweb Hretried) as (H1 & H2 & _ & H4).
    split_and!; [exact H1|exact H2|exact H4].
Qed.

(* ================================================================== *)
(** * The locale bucketer *)

Lemma first_match_split (name : pystr) (before after : list locale_rule) (r : locale_rule) :
  Forall (λ r', rule_matches name r' = false) before →
  rule_matches name r = true →
  first_match (before ++ r :: after) name = rule_locale r.
Proof.
  intros Hbefore Hr. induction Hbefore as [|r' before Hr' _ IH]; cbn.
  - by rewrite Hr.
  - by rewrite Hr'.
Qed.

Lemma first_match_none (name : pystr) (rules : list locale_rule) :
  Forall (λ r, rule_matches name r = false) rules →
  first_match rules name = py "und".
Proof.
  intros H. induction H as [|r rules Hr _ IH]; cbn; [done|]. by rewrite Hr.
Qed.

Section locale_facts.
Variable lower : pystr → pystr.

(** The chain of [if]s of the source is the rule table read first match
    first. *)
Lemma detect_locale_table (version_name : pystr) :
  detect_locale_from_name lower version_name
  = first_match LOCALE_RULES (lower version_name).
Proof.
  unfold detect_locale_from_name, LOCALE_RULES, plain.
  cbn [first_match rule_matches rule_tests rule_locale existsb map].
  unfold test_holds. cbn [fst snd].
  rewrite ?andb_true_r, ?orb_false_r, ?orb_assoc.
  reflexivity.
Qed.

(** C8. [detect_locale_from_name] reads an ordered table of substring
    rules over the lower-cased name: the first rule that matches gives the
    locale, and a name that no rule matches is [und]. With [str.lower]
    doing on ASCII text what it does there, "REINA VALERA 1909" is [es],
    "NEW INTERNATIONAL VERSION" is [en] and "QWERTY 123" is [und]. *)
Theorem detect_locale_first_rule_wins :
  (∀ s, is_ascii s = true → lower s = ascii_lower s) →
  (∀ name, detect_locale_from_name lower name = first_match LOCALE_RULES (lower name))
  ∧ (∀ name before r after,
       LOCALE_RULES = before ++ r :: after →
       Forall (λ r', rule_matches (lower name) r' = false) before →
       rule_matches (lower name) r = true →
       detect_locale_from_name lower name = rule_locale r)
  ∧ (∀ name,
       Forall (λ r, rule_matches (lower name) r = false) LOCALE_RULES →
       detect_locale_from_name lower name = py "und")
  ∧ detect_locale_from_name lower (py "REINA VALERA 1909") = py "es"
  ∧ detect_locale_from_name lower (py "NEW INTERNATIONAL VERSION") = py "en"
  ∧ detect_locale_from_name lower (py "QWERTY 123") = py "und".
Proof.
  intros Hlower. split_and!.
  - apply detect_locale_table.
  - intros name before r after Htable Hbefore Hr.
    rewrite detect_locale_table, Htable. by apply first_match_split.
  - intros name Hnone. rewrite detect_locale_table. by apply first_match_none.
  - rewrite detect_locale_table, Hlower by reflexivity. by vm_compute.
  - rewrite detect_locale_table, Hlower by reflexivity. by vm_compute.
  - rewrite detect_locale_table, Hlower by reflexivity. by vm_compute.
Qed.
End locale_facts.

(* ================================================================== *)
(** * Moving version files into locale directories *)

Lemma make_dirs_keeps_files (dirs : list path) (fs : filesystem) (p : path) (c : pystr) :
  Forall (λ q, is_file fs q = false) dirs →
  fs !! p = Some (File c) →
  fold_left (λ fs q, <[q := Dir]> fs) dirs fs !! p = Some (File c).
Proof.
  revert fs. induction dirs as [|q dirs IH]; intros fs Hdirs Hp; [done|].
  apply Forall_cons in Hdirs as [Hq Hdirs]. cbn. apply IH.
  - eapply Forall_impl; [exact Hdirs|]. intros q' Hq'. unfold is_file in *.
    destruct (decide (q = q')) as [->|Hne].
    + by rewrite lookup_insert_eq.
    + by rewrite lookup_insert_ne.
  - rewrite lookup_insert_ne; [done|]. intros ->.
    unfold is_file in Hq. by rewrite Hp in Hq.
Qed.

Lemma mkdir_parents_keeps_files (p q : path) (fs fs' : filesystem) (c : pystr) :
  mkdir_parents p fs = Some fs' →
  fs !! q = Some (File c) →
  fs' !! q = Some (File c).
Proof.
  unfold mkdir_parents. destruct (existsb _ _) eqn:Hfile; [done|].
  intros [= <-] Hq. apply make_dirs_keeps_files; [|done].
  apply Forall_forall. intros d Hd.
  destruct (is_file fs d) eqn:Hfd; [|done].
  assert (existsb (is_file fs) (prefixes p) = true) as Hex; [|congruence].
  apply existsb_exists. exists d. split; [by apply list_elem_of_In|done].
Qed.

Section organize_facts.
Variable lower : pystr → pystr.

Lemma organize_loop_keeps (src dst : path) (names : list pystr) (fs : filesystem)
    (name source_content target_content : pystr) :
  fs !! target_path lower dst name = Some (File target_content) →
  fs !! (src ++ [name]) = Some (File source_content) →
  let fs' := (organize_loop lower src dst names fs).2 in
  fs' !! target_path lower dst name = Some (File target_content)
  ∧ fs' !! (src ++ [name]) = Some (File source_content).
Proof.
  cbn zeta. revert fs.
  induction names as [|m names IH]; intros fs Htarget Hsource; [done|].
  cbn [organize_loop].
  destruct (mkdir_parents _ fs) as [fs1|] eqn:Hmk; [|done].
  pose proof (mkdir_parents_keeps_files _ _ _ _ _ Hmk Htarget) as Htarget1.
  pose proof (mkdir_parents_keeps_files _ _ _ _ _ Hmk Hsource) as Hsource1.
  destruct (exists_ fs1 _) eqn:Hexists; [by apply IH|].
  unfold exists_ in Hexists.
  destruct (fs1 !! (dst ++ [_; m])) as [|] eqn:Hnone; [done|]. clear Hexists.
  destruct (fs1 !! (src ++ [m])) as [[content|]|] eqn:Hm; [|by apply IH..].
  assert (Hself : m = name → False).
  { intros ->. unfold target_path in Htarget1. by rewrite Htarget1 in Hnone. }
  apply IH.
  - rewrite lookup_insert_ne.
    + rewrite lookup_delete_ne; [done|]. unfold target_path. intros Heq.
      change (dst ++ [?a; ?b]) with (dst ++ [a] ++ [b]) in Heq.
      rewrite (assoc_L (++)) in Heq.
      apply app_inj_tail in Heq as [_ Heq]. by apply Hself.
    + unfold target_path. intros Heq. rewrite Heq in Hnone.
      unfold target_path in Htarget1. by rewrite Htarget1 in Hnone.
  - rewrite lookup_insert_ne.
    + rewrite lookup_delete_ne; [done|].
      intros Heq. apply app_inj_tail in Heq as [_ Heq]. by apply Hself.
    + intros Heq. rewrite Heq in Hnone. by rewrite Hsource1 in Hnone.
Qed.

(** C10. A file that is at the target path of a version file of the source
    directory before the run (target directory / locale of the name / the
    same file name) has the same content after [organize_versions], and the
    source file that collides with it is left where it was. *)
Theorem organize_versions_never_overwrites (source_dir target_dir : path)
    (fs : filesystem) (name source_content target_content : pystr) :
  (endswith (py ".json") name || endswith (py ".json.gz") name) = true →
  fs !! (source_dir ++ [name]) = Some (File source_content) →
  fs !! target_path lower target_dir name = Some (File target_content) →
  let fs' := (organize_versions lower source_dir target_dir fs).2 in
  fs' !! target_path lower target_dir name = Some (File target_content)
  ∧ fs' !! (source_dir ++ [name]) = Some (File source_content).
Proof.
  intros _ Hsource Htarget. cbn zeta. unfold organize_versions.
  destruct (negb _ || negb _); [done|].
  destruct (mkdir_parents target_dir fs) as [fs1|] eqn:Hmk; [|done].
  apply organize_loop_keeps; by eapply mkdir_parents_keeps_files.
Qed.
End organize_facts.

(* ================================================================== *)
(** * Insertion-ordered dictionaries: facts *)

Section odict_facts.
Context {V : Type}.
Implicit Types (d e : list (pystr * V)) (k : pystr) (v : V).

Lemma od_get_set d k k' v :
  od_get k' (od_set k v d) = if decide (k = k') then Some v else od_get k' d.
Proof.
  induction d as [|[k0 v0] d IH]; cbn.
  - done.
  - destruct (decide (k0 = k)) as [->|Hne]; cbn.
    + by destruct (decide (k = k')).
    + destruct (decide (k0 = k')) as [->|Hne'].
      * by rewrite decide_False.
      * apply IH.
Qed.

Lemma od_get_None d k : od_get k d = None ↔ k ∉ d.*1.
Proof.
  induction d as [|[k0 v0] d IH]; cbn.
  - split; [intros _; apply not_elem_of_nil|done].
  - rewrite not_elem_of_cons. destruct (decide (k0 = k)) as [->|Hne].
    + split; [done|]. by intros [? _].
    + rewrite IH. split; [intros ?; split; [congruence|done]|by intros [_ ?]].
Qed.

Lemma od_get_Some_elem d k v : od_get k d = Some v → (k, v) ∈ d.
Proof.
  induction d as [|[k0 v0] d IH]; cbn; [done|].
  destruct (decide (k0 = k)) as [->|Hne].
  - intros [= ->]. by left.
  - intros H. right. by apply IH.
Qed.

Lemma od_get_first d e k v : k ∉ d.*1 → od_get k (d ++ (k, v) :: e) = Some v.
Proof.
  induction d as [|[k0 v0] d IH]; cbn.
  - intros _. by rewrite decide_True.
  - intros [Hne Hd]%not_elem_of_cons. rewrite decide_False by done. by apply IH.
Qed.

Lemma od_set_fresh d k v : k ∉ d.*1 → od_set k v d = d ++ [(k, v)].
Proof.
  induction d as [|[k0 v0] d IH]; cbn; [done|].
  intros [Hne Hd]%not_elem_of_cons. rewrite decide_False by done. by rewrite IH.
Qed.

Lemma od_set_keys d k v : k ∈ d.*1 → (od_set k v d).*1 = d.*1.
Proof.
  induction d as [|[k0 v0] d IH]; cbn; [by intros ?%elem_of_nil|].
  destruct (decide (k0 = k)) as [->|Hne]; cbn; [done|].
  intros [?|Hd]%elem_of_cons; [congruence|]. by rewrite IH.
Qed.

(** [d.update(e)]: a key of [e] gets the value of [e], any other key
    keeps its own. *)
Lemma od_get_update d e k :
  NoDup e.*1 →
  od_get k (od_update d e) = match od_get k e with Some v => Some v | None => od_get k d end.
Proof.
  unfold od_update. revert d.
  induction e as [|[k0 v0] e IH]; intros d; cbn; [done|].
  intros [Hk0 He]%NoDup_cons. rewrite IH by done.
  destruct (decide (k0 = k)) as [->|Hne].
  - apply od_get_None in Hk0. rewrite Hk0. by rewrite od_get_set, decide_True.
  - destruct (od_get k e); [done|]. by rewrite od_get_set, decide_False.
Qed.
End odict_facts.

(* ================================================================== *)
(** * The book-name localizer *)

Section rename_facts.
Variable book_map : gmap pystr pystr.

Lemma rename_books_get (data : list (pystr * json)) (st : list (pystr * json) * bool)
    (T : pystr) :
  od_get T (fold_left (rename_book book_map) data st).1
  = arrivals book_map T data (od_get T st.1).
Proof.
  unfold arrivals. revert st.
  induction data as [|[k v] data IH]; intros [new_data changed]; [done|].
  cbn [fold_left]. rewrite IH. f_equal.
  unfold rename_book. cbn. rewrite od_get_set.
  destruct (decide (target_name_of book_map k = T)) as [<-|Hne]; done.
Qed.

Lemma arrivals_skip (T : pystr) (data : list (pystr * json)) (start : option json) :
  (∀ k, k ∈ data.*1 → target_name_of book_map k ≠ T) →
  arrivals book_map T data start = start.
Proof.
  unfold arrivals. revert start.
  induction data as [|[k v] data IH]; intros start Hskip; [done|].
  cbn. rewrite decide_False by (apply Hskip; left). apply IH.
  intros k' Hk'. apply Hskip. by right.
Qed.

Lemma arrivals_cons (T k : pystr) (v : json) (data : list (pystr * json))
    (start : option json) :
  arrivals book_map T ((k, v) :: data) start
  = arrivals book_map T data
      (if decide (target_name_of book_map k = T) then Some (merge_chapters start v)
       else start).
Proof. reflexivity. Qed.

Lemma arrivals_app (T : pystr) (l1 l2 : list (pystr * json)) (start : option json) :
  arrivals book_map T (l1 ++ l2) start
  = arrivals book_map T l2 (arrivals book_map T l1 start).
Proof. unfold arrivals. by rewrite fold_left_app. Qed.

Lemma arrivals_is_Some (T : pystr) (data : list (pystr * json)) (start : option json) :
  is_Some (arrivals book_map T data start)
  ↔ is_Some start ∨ ∃ k, k ∈ data.*1 ∧ target_name_of book_map k = T.
Proof.
  unfold arrivals. revert start.
  induction data as [|[k v] data IH]; intros start; cbn.
  - split; [by left|]. intros [?|(k & []%elem_of_nil & _)]; done.
  - rewrite IH. destruct (decide (target_name_of book_map k = T)) as [HT|HT].
    + split; [intros _|intros _; left; done]. right. exists k. split; [by left|done].
    + split.
      * intros [?|(k' & Hk' & HT')]; [by left|]. right. exists k'. split; [by right|done].
      * intros [?|(k' & [->|Hk']%elem_of_cons & HT')]; [by left|done|].
        right. by exists k'.
Qed.

(** The flag [changed] is raised exactly by a key with a non-empty entry. *)
Lemma rename_books_changed (data : list (pystr * json)) (st : list (pystr * json) * bool) :
  (fold_left (rename_book book_map) data st).2 = false →
  st.2 = false ∧ ∀ k, k ∈ data.*1 → target_name_of book_map k = k.
Proof.
  revert st. induction data as [|[k v] data IH]; intros [new_data changed] H.
  - split; [done|]. by intros k []%elem_of_nil.
  - cbn [fold_left] in H. apply IH in H as [Hflag Hrest].
    unfold rename_book in Hflag. cbn in Hflag. unfold target_name_of.
    destruct (book_map !! k) as [l|] eqn:Hk; [destruct (truthy l) eqn:Hl; [done|]|].
    + split; [done|]. intros k' [->|Hk']%elem_of_cons; [|by apply Hrest].
      unfold target_name_of in *. cbn. by rewrite Hk, Hl.
    + split; [done|]. intros k' [->|Hk']%elem_of_cons; [|by apply Hrest].
      unfold target_name_of in *. cbn. by rewrite Hk.
Qed.

Lemma rename_books_same (data new_data : list (pystr * json)) (changed : bool) :
  NoDup data.*1 →
  (∀ k, k ∈ data.*1 → k ∉ new_data.*1) →
  (∀ k, k ∈ data.*1 → target_name_of book_map k = k) →
  (fold_left (rename_book book_map) data (new_data, changed)).1 = new_data ++ data.
Proof.
  revert new_data changed.
  induction data as [|[k v] data IH]; intros new_data changed Hdup Hfresh Hkeep.
  - by rewrite app_nil_r.
  - cbn [fold_left]. unfold rename_book at 2. cbn.
    apply NoDup_cons in Hdup as [Hk Hdup].
    rewrite (Hkeep k) by left.
    assert (Hnew : k ∉ new_data.*1) by (apply Hfresh; left).
    rewrite (proj2 (od_get_None new_data k) Hnew). cbn.
    rewrite od_set_fresh by done.
    rewrite IH; [by rewrite <- (assoc_L (++))|done| |].
    + intros k' Hk'. rewrite fmap_app, not_elem_of_app. split.
      * apply Hfresh. by right.
      * cbn. rewrite not_elem_of_cons. split; [|apply not_elem_of_nil].
        intros ->. done.
    + intros k' Hk'. apply Hkeep. by right.
Qed.
End rename_facts.

Section apply_mapping_facts.
Variable upper : pystr → pystr.

Lemma apply_mapping_holds (version_name : pystr) (mapping : gmap pystr (gmap pystr pystr))
    (book_map : gmap pystr pystr) (data : list (pystr * json)) :
  mapping !! upper version_name = Some book_map →
  NoDup data.*1 →
  apply_mapping_to_version_file upper version_name mapping (Holds (JObject data))
  = Holds (JObject (rename_books book_map data).1).
Proof.
  intros Hmap Hdup. unfold apply_mapping_to_version_file. rewrite Hmap.
  destruct (rename_books book_map data) as [new_data changed] eqn:E.
  destruct changed; [done|]. cbn. do 2 f_equal.
  unfold rename_books in E.
  pose proof (rename_books_changed book_map data ([], false)) as Hkeep.
  rewrite E in Hkeep. destruct (Hkeep eq_refl) as [_ Hkeep'].
  pose proof (rename_books_same book_map data [] false Hdup) as Hsame.
  rewrite E in Hsame. symmetry. apply Hsame; [|done].
  intros k _. apply not_elem_of_nil.
Qed.

(** C9, amended. The version file of a translation that has a book-name
    map holds, after the call, the books under their target names: the
    entry of the map when that is a non-empty string, the key itself when
    the map has no entry for it or an empty one. A target name holds the
    values of the keys written under it, merged in file order: one source
    leaves its value as it is, and of two chapter maps the later one
    overrides the earlier one on the chapter keys they share. *)
Theorem book_names_localized (version_name : pystr)
    (mapping : gmap pystr (gmap pystr pystr)) (book_map : gmap pystr pystr)
    (data : list (pystr * json)) :
  mapping !! upper version_name = Some book_map →
  NoDup data.*1 →
  ∃ new_data,
    apply_mapping_to_version_file upper version_name mapping (Holds (JObject data))
    = Holds (JObject new_data)
    ∧ (∀ k l, book_map !! k = Some l → l ≠ [] → target_name_of book_map k = l)
    ∧ (∀ k, book_map !! k = None ∨ book_map !! k = Some [] →
            target_name_of book_map k = k)
    ∧ (∀ T, is_Some (od_get T new_data)
            ↔ ∃ k, k ∈ data.*1 ∧ target_name_of book_map k = T)
    ∧ (∀ T, od_get T new_data = arrivals book_map T data None)
    ∧ (∀ before k v after,
         data = before ++ (k, v) :: after →
         (∀ k', k' ∈ (before ++ after).*1 →
                target_name_of book_map k' ≠ target_name_of book_map k) →
         od_get (target_name_of book_map k) new_data = Some v)
    ∧ (∀ l1 k1 c1 l2 k2 c2 l3,
         data = l1 ++ (k1, JObject c1) :: l2 ++ (k2, JObject c2) :: l3 →
         target_name_of book_map k1 = target_name_of book_map k2 →
         (∀ k', k' ∈ (l1 ++ l2 ++ l3).*1 →
                target_name_of book_map k' ≠ target_name_of book_map k1) →
         od_get (target_name_of book_map k1) new_data = Some (JObject (od_update c1 c2)))
    ∧ (∀ (c1 c2 : list (pystr * json)) chapter,
         NoDup c2.*1 →
         od_get chapter (od_update c1 c2)
         = match od_get chapter c2 with
           | Some x => Some x
           | None => od_get chapter c1
           end).
Proof.
  intros Hmap Hdup. exists (rename_books book_map data).1.
  assert (Hget : ∀ T, od_get T (rename_books book_map data).1
                      = arrivals book_map T data None).
  { intros T. unfold rename_books. by rewrite rename_books_get. }
  split_and!.
  - by apply apply_mapping_holds.
  - intros k l Hk Hl. unfold target_name_of. rewrite Hk. by destruct l.
  - intros k [Hk|Hk]; unfold target_name_of; by rewrite Hk.
  - intros T. rewrite Hget, arrivals_is_Some. split.
    + intros [[? [=]]|?]; done.
    + intros ?. by right.
  - exact Hget.
  - intros before k v after -> Hothers.
    rewrite Hget, arrivals_app, (arrivals_skip _ _ before), arrivals_cons.
    + rewrite decide_True by done. cbn.
      rewrite arrivals_skip; [done|].
      intros k' Hk'. apply Hothers. rewrite fmap_app, elem_of_app. by right.
    + intros k' Hk'. apply Hothers. rewrite fmap_app, elem_of_app. by left.
  - intros l1 k1 c1 l2 k2 c2 l3 -> Hsame Hothers.
    rewrite Hget, arrivals_app, (arrivals_skip _ _ l1), arrivals_cons.
    + rewrite decide_True by done. cbn.
      rewrite arrivals_app, (arrivals_skip _ _ l2), arrivals_cons.
      * rewrite decide_True by done. cbn.
        rewrite arrivals_skip; [done|].
        intros k' Hk'. apply Hothers. rewrite !fmap_app, !elem_of_app. by right; right.
      * intros k' Hk'. apply Hothers. rewrite !fmap_app, !elem_of_app. by right; left.
    + intros k' Hk'. apply Hothers. rewrite !fmap_app, !elem_of_app. by left.
  - intros c1 c2 chapter Hc2. by apply od_get_update.
Qed.
End apply_mapping_facts.

(* ================================================================== *)
(** * The HTML extractor *)



Lemma collect_text_stop (stop : node) (parts : list pystr) :
  is_version_span stop = true ∨ is_block_tag stop = true →
  collect_text stop parts = (false, parts).
Proof.
  destruct stop as [s|name attrs children]; cbn [collect_text is_block_tag].
  - by intros [?|?].
  - intros [Hs | Hb]; [by rewrite Hs|]. rewrite Hb. by destruct (is_version_span _).
Qed.


Section extractor_facts.
Variable upper unescape path_stem : pystr → pystr.
Variable html_parser : pystr → node.



End extractor_facts.



Section parse_verse_page_facts.
Variable upper unescape path_stem : pystr → pystr.
Variable html5lib html_parser : pystr → node.

End parse_verse_page_facts.

(* ================================================================== *)
(** * [scrape_verse]: cache first, then the web *)

Lemma existsb_same {A} (f g : A → bool) (l : list A) :
  (∀ x, f x = g x) → existsb f l = existsb g l.
Proof. intros H. induction l as [|x l IH]; cbn; [done|]. by rewrite H, IH. Qed.

Lemma requested_app (e1 e2 : list event) : requested (e1 ++ e2) = requested e1 ++ requested e2.
Proof. apply omap_app. Qed.

Lemma web_attempts_app (e1 e2 : list event) :
  web_attempts (e1 ++ e2) = web_attempts e1 ++ web_attempts e2.
Proof. apply omap_app. Qed.

Lemma cache_lookups_app (e1 e2 : list event) :
  cache_lookups (e1 ++ e2) = cache_lookups e1 ++ cache_lookups e2.
Proof. apply omap_app. Qed.

Lemma fetch_page_skip (url book : pystr) (chapter verse : Z) (w : world) :
  fetch_page url book chapter verse true w
  = load_from_cache (cache_file_of url book chapter verse) w.
Proof.
  unfold fetch_page, mbind, M_bind.
  by destruct (load_from_cache _ w) as [[content|] w'].
Qed.

Section scrape_facts.
Variable lower upper unescape path_stem : pystr → pystr.
Variable html5lib html_parser : pystr → node.

Local Abbreviation parse_verse_page' :=
  (parse_verse_page upper unescape path_stem html5lib html_parser).
Local Abbreviation candidate_yield' :=
  (candidate_yield upper unescape path_stem html5lib html_parser).
Local Abbreviation cache_phase' :=
  (cache_phase upper unescape path_stem html5lib html_parser).
Local Abbreviation web_phase' :=
  (web_phase upper unescape path_stem html5lib html_parser).
Local Abbreviation scrape_verse' :=
  (scrape_verse lower upper unescape path_stem html5lib html_parser).
Local Abbreviation all_miss' :=
  (all_miss upper unescape path_stem html5lib html_parser).

Lemma parse_verse_page_events (html_content : pystr) (w : world) :
  ∃ events,
    parse_verse_page' html_content w
    = (extract_translations upper unescape path_stem html_parser (html5lib html_content),
       with_events w events)
    ∧ requested events = [] ∧ web_attempts events = [] ∧ cache_lookups events = [].
Proof.
  unfold parse_verse_page.
  destruct (extract_translations _ _ _ _ _) as [|t ts]; step.
  - by eexists [_].
  - exists []. by rewrite with_events_nil.
Qed.

(** What a cached candidate yields is found without the web, leaves all
    but the trace as it was, and does not depend on the trace. *)
Lemma candidate_yield_cached (url book : pystr) (chapter verse : Z) (w : world) :
  ∃ events,
    (candidate_yield' url book chapter verse true w).2 = with_events w events
    ∧ requested events = []
    ∧ web_attempts events = []
    ∧ cache_lookups events = option_list (cache_file_of url book chapter verse).
Proof.
  unfold candidate_yield, mbind, M_bind. rewrite fetch_page_skip.
  destruct (load_from_cache_events (cache_file_of url book chapter verse) w)
    as (e1 & Hw1 & Hr1 & Ha1 & Hc1).
  destruct (load_from_cache _ w) as [[content|] w1]; cbn in Hw1; subst w1.
  - destruct (truthy content).
    + destruct (parse_verse_page_events content (with_events w e1))
        as (e2 & -> & Hr2 & Ha2 & Hc2). cbn [snd].
      exists (e1 ++ e2). rewrite with_events_app, requested_app, web_attempts_app,
        cache_lookups_app, Hr1, Hr2, Ha1, Ha2, Hc1, Hc2. by rewrite ?app_nil_r.
    + step. by exists e1.
  - step. by exists e1.
Qed.

Lemma candidate_yield_cached_trace (url book : pystr) (chapter verse : Z) (w : world)
    (events : list event) :
  (candidate_yield' url book chapter verse true (with_events w events)).1
  = (candidate_yield' url book chapter verse true w).1.
Proof.
  unfold candidate_yield, mbind, M_bind. rewrite !fetch_page_skip.
  pose proof (load_from_cache_with_events (cache_file_of url book chapter verse) w events)
    as Hsame.
  destruct (load_from_cache _ (with_events w events)) as [c1 w1].
  destruct (load_from_cache _ w) as [c2 w2]. cbn in Hsame. subst c2.
  destruct c1 as [content|]; [|done]. destruct (truthy content); [|done].
  destruct (parse_verse_page_events content w1) as (e1 & -> & _).
  by destruct (parse_verse_page_events content w2) as (e2 & -> & _).
Qed.

Lemma cache_phase_cons (url : pystr) (urls : list pystr) (book : pystr) (chapter verse : Z)
    (st : list (pystr * pystr) * bool) (w : world) :
  cache_phase' (url :: urls) book chapter verse st w
  = cache_phase' urls book chapter verse
      (match (candidate_yield' url book chapter verse true w).1 with
       | (_ :: _) as translations => (od_update st.1 translations, true)
       | [] => st
       end)
      (candidate_yield' url book chapter verse true w).2.
Proof.
  cbn [cache_phase]. unfold candidate_yield, mbind, M_bind.
  destruct (fetch_page url book chapter verse true w) as [[content|] w1];
    [|by unfold mret, M_ret].
  destruct (truthy content); [|by unfold mret, M_ret].
  by destruct (parse_verse_page' content w1) as [[|t ts] w2]; unfold mret, M_ret.
Qed.

(** Phase 1 looks every candidate up in the cache, in order, asks nothing
    of the web and changes nothing but the trace; it finds translations
    exactly when some cached candidate yields some. *)
Lemma cache_phase_spec (urls : list pystr) (book : pystr) (chapter verse : Z)
    (st : list (pystr * pystr) * bool) (w : world) :
  ∃ events,
    (cache_phase' urls book chapter verse st w).2 = with_events w events
    ∧ requested events = []
    ∧ web_attempts events = []
    ∧ cache_lookups events = omap (λ url, cache_file_of url book chapter verse) urls
    ∧ (cache_phase' urls book chapter verse st w).1.2
      = st.2 || existsb (λ url, nonempty (candidate_yield' url book chapter verse true w).1) urls.
Proof.
  revert st w. induction urls as [|url urls IH]; intros st w.
  - exists []. cbn. rewrite with_events_nil. by rewrite orb_false_r.
  - rewrite cache_phase_cons.
    destruct (candidate_yield_cached url book chapter verse w)
      as (e1 & Hw1 & Hr1 & Ha1 & Hc1).
    rewrite Hw1.
    destruct (IH (match (candidate_yield' url book chapter verse true w).1 with
                  | (_ :: _) as translations => (od_update st.1 translations, true)
                  | [] => st
                  end) (with_events w e1)) as (e2 & Hw2 & Hr2 & Ha2 & Hc2 & Hfound).
    exists (e1 ++ e2).
    rewrite Hw2, with_events_app, requested_app, web_attempts_app, cache_lookups_app,
      Hr1, Hr2, Ha1, Ha2, Hc1, Hc2, Hfound.
    split_and!; [done..| |].
    + cbn [omap]. unfold omap, list_omap.
      by destruct (cache_file_of url book chapter verse).
    + cbn [existsb].
      rewrite (existsb_same _ (λ url, nonempty (candidate_yield' url book chapter verse true w).1));
        [|intros u; by rewrite candidate_yield_cached_trace].
      destruct (candidate_yield' url book chapter verse true w).1; cbn.
      * done.
      * by rewrite orb_true_r.
Qed.

(** The retry loop only adds to the trace; its requests all go to [url]
    and there are no more of them than attempts. *)
Lemma fetch_from_web_trace (url : pystr) (cache_file : option cache_path)
    (attempts : list nat) (w : world) :
  ∃ events n,
    trace (fetch_from_web url cache_file attempts w).2 = trace w ++ events
    ∧ web_attempts events = []
    ∧ requested events = replicate n url
    ∧ (n ≤ length attempts)%nat.
Proof.
  revert w. induction attempts as [|attempt later IH]; intros w.
  - cbn. step. by eexists [_], 0%nat.
  - cbn [fetch_from_web]. step.
    destruct (web w (requests w) url) as [status html_content|].
    + destruct (decide (status = 200%Z)) as [->|H200].
      * destruct cache_file as [f|]; step.
        -- eexists [_; _; _; _], 1%nat.
           split; [by rewrite <- !(assoc_L (++))|]. cbn. split_and!; [done..|lia].
        -- eexists [_; _], 1%nat.
           split; [by rewrite <- !(assoc_L (++))|]. cbn. split_and!; [done..|lia].
      * destruct (decide (status = 404%Z)) as [->|H404]; step.
        -- eexists [_; _; _], 1%nat.
           split; [by rewrite <- !(assoc_L (++))|]. cbn. split_and!; [done..|lia].
        -- case_decide; step;
             match goal with
             | |- context [fetch_from_web url cache_file later ?w2] =>
                 destruct (IH w2) as (events & n & -> & Ha & Hr & Hn)
             end; cbn.
           ++ eexists ([_; _; _; _] ++ events), (S n).
              split; [by rewrite <- !(assoc_L (++))|].
              rewrite web_attempts_app, requested_app, Ha, Hr. cbn.
              split_and!; [done..|lia].
           ++ eexists ([_; _; _] ++ events), (S n).
              split; [by rewrite <- !(assoc_L (++))|].
              rewrite web_attempts_app, requested_app, Ha, Hr. cbn.
              split_and!; [done..|lia].
    + case_decide; step;
        match goal with
        | |- context [fetch_from_web url cache_file later ?w2] =>
            destruct (IH w2) as (events & n & -> & Ha & Hr & Hn)
        end; cbn.
      * eexists ([_; _; _; _] ++ events), (S n).
        split; [by rewrite <- !(assoc_L (++))|].
        rewrite web_attempts_app, requested_app, Ha, Hr. cbn.
        split_and!; [done..|lia].
      * eexists ([_; _; _] ++ events), (S n).
        split; [by rewrite <- !(assoc_L (++))|].
        rewrite web_attempts_app, requested_app, Ha, Hr. cbn.
        split_and!; [done..|lia].
Qed.

Lemma fetch_page_trace (url book : pystr) (chapter verse : Z) (skip_fetch : bool)
    (w : world) :
  ∃ events n,
    trace (fetch_page url book chapter verse skip_fetch w).2 = trace w ++ events
    ∧ web_attempts events = []
    ∧ requested events = replicate n url
    ∧ (n ≤ MAX_RETRIES)%nat.
Proof.
  unfold fetch_page, mbind, M_bind.
  destruct (load_from_cache_events (cache_file_of url book chapter verse) w)
    as (e1 & Hw1 & Hr1 & Ha1 & _).
  destruct (load_from_cache _ w) as [[content|] w1]; cbn in Hw1; subst w1.
  - exists e1, 0%nat. unfold mret, M_ret. cbn. split_and!; [done..|lia].
  - destruct skip_fetch.
    + exists e1, 0%nat. unfold mret, M_ret. cbn. split_and!; [done..|lia].
    + unfold sleep, emit.
      match goal with
      | |- context [fetch_from_web url ?cf ?attempts ?w2] =>
          destruct (fetch_from_web_trace url cf attempts w2)
            as (e2 & n & -> & Ha2 & Hr2 & Hn)
      end.
      cbn [trace with_events]. rewrite length_seq in Hn.
      exists (e1 ++ [Sleep REQUEST_DELAY] ++ e2), n.
      split; [by rewrite <- !(assoc_L (++))|].
      rewrite !web_attempts_app, !requested_app, Ha1, Ha2, Hr1, Hr2. done.
Qed.

Lemma candidate_yield_trace (url book : pystr) (chapter verse : Z) (skip_fetch : bool)
    (w : world) :
  ∃ events n,
    trace (candidate_yield' url book chapter verse skip_fetch w).2 = trace w ++ events
    ∧ web_attempts events = []
    ∧ requested events = replicate n url
    ∧ (n ≤ MAX_RETRIES)%nat.
Proof.
  unfold candidate_yield, mbind, M_bind.
  destruct (fetch_page_trace url book chapter verse skip_fetch w)
    as (e1 & n & Hw1 & Ha1 & Hr1 & Hn).
  destruct (fetch_page url book chapter verse skip_fetch w) as [[content|] w1];
    cbn in Hw1; [|by exists e1, n].
  destruct (truthy content); [|by exists e1, n].
  destruct (parse_verse_page_events content w1) as (e2 & -> & Hr2 & Ha2 & _).
  cbn [snd trace with_events]. rewrite Hw1.
  exists (e1 ++ e2), n. split; [by rewrite <- !(assoc_L (++))|].
  rewrite web_attempts_app, requested_app, Ha1, Ha2, Hr1, Hr2.
  by rewrite !app_nil_r.
Qed.

Lemma web_phase_cons (url : pystr) (urls : list pystr) (book : pystr) (chapter verse : Z)
    (all_translations : list (pystr * pystr)) (w : world) :
  web_phase' (url :: urls) book chapter verse all_translations w
  = let r := candidate_yield' url book chapter verse false
               (with_events w [Log INFO (ScrapingFromWeb book chapter verse url)]) in
    match r.1 with
    | (_ :: _) as translations => ((od_update all_translations translations, true), r.2)
    | [] => web_phase' urls book chapter verse all_translations r.2
    end.
Proof.
  cbn [web_phase]. unfold candidate_yield, mbind, M_bind, logger, emit.
  change (with_events w ?e) with
    {| progress := progress w; data := data w; html_cache := html_cache w;
       progress_file := progress_file w; output_file := output_file w;
       web := web w; requests := requests w; trace := trace w ++ e |}.
  cbn zeta.
  match goal with |- context [fetch_page url book chapter verse false ?w1] =>
    destruct (fetch_page url book chapter verse false w1) as [[content|] w2] end;
    [|done].
  destruct (truthy content); [|done].
  by destruct (parse_verse_page' content w2) as [[|t ts] w3].
Qed.

Lemma requests_follow_nil : requests_follow [] [].
Proof. exists []. by split_and!. Qed.

Lemma requests_follow_cons (url : pystr) (n : nat) (attempted reqs : list pystr) :
  (n ≤ MAX_RETRIES)%nat →
  requests_follow attempted reqs →
  requests_follow (url :: attempted) (replicate n url ++ reqs).
Proof.
  intros Hn (counts & Hlen & Hall & ->). exists (n :: counts).
  split_and!; [by cbn; rewrite Hlen|by constructor|done].
Qed.

(** Phase 2 goes through the candidates in their order, announcing and
    fetching one after the other, until one yields translations. *)
Lemma web_phase_spec (urls : list pystr) (book : pystr) (chapter verse : Z)
    (all_translations : list (pystr * pystr)) (w : world) :
  let r := web_phase' urls book chapter verse all_translations w in
  ∃ events,
    trace r.2 = trace w ++ events
    ∧ requests_follow (web_attempts events) (requested events)
    ∧ ((r.1.2 = false
        ∧ web_attempts events = urls
        ∧ all_miss' book chapter verse w urls r.2)
       ∨ (r.1.2 = true
          ∧ ∃ tried url rest w_mid,
              urls = tried ++ url :: rest
              ∧ web_attempts events = tried ++ [url]
              ∧ all_miss' book chapter verse w tried w_mid
              ∧ (candidate_yield' url book chapter verse false
                   (with_events w_mid [Log INFO (ScrapingFromWeb book chapter verse url)])).1
                ≠ [])).
Proof.
  cbn zeta. revert w. induction urls as [|url urls IH]; intros w.
  - exists []. cbn. rewrite app_nil_r. split_and!; [done|apply requests_follow_nil|].
    left. split_and!; [done..|constructor].
  - rewrite web_phase_cons. cbn zeta.
    destruct (candidate_yield_trace url book chapter verse false
                (with_events w [Log INFO (ScrapingFromWeb book chapter verse url)]))
      as (e1 & n & Hw1 & Ha1 & Hr1 & Hn).
    cbn [trace with_events] in Hw1.
    destruct (candidate_yield' url book chapter verse false _) as [translations w1] eqn:E.
    cbn [fst snd] in *.
    destruct translations as [|t ts]; cbn [fst snd].
    + destruct (IH w1) as (e2 & Hw2 & Hfollow & Hcases).
      exists ([Log INFO (ScrapingFromWeb book chapter verse url)] ++ e1 ++ e2).
      split; [by rewrite Hw2, Hw1, <- !(assoc_L (++))|].
      rewrite !web_attempts_app, !requested_app, Ha1, Hr1. cbn [web_attempts requested omap app].
      split; [by apply requests_follow_cons|].
      destruct Hcases as [(Hflag & Hatt & Hmiss)|(Hflag & tried & u & rest & w_mid & -> & Hatt & Hmiss & Hyield)].
      * left. split_and!; [done|by rewrite Hatt|]. by econstructor.
      * right. split; [done|]. exists (url :: tried), u, rest, w_mid.
        split_and!; [done|by rewrite Hatt| |done]. by econstructor.
    + exists ([Log INFO (ScrapingFromWeb book chapter verse url)] ++ e1).
      split; [by rewrite Hw1, <- !(assoc_L (++))|].
      rewrite !web_attempts_app, !requested_app, Ha1, Hr1. cbn.
      split.
      * rewrite <- (app_nil_r (replicate n url)).
        apply requests_follow_cons; [done|apply requests_follow_nil].
      * right. split; [done|]. exists [], url, urls, w.
        split_and!; [done|done|constructor|]. by rewrite E.
Qed.

Lemma store_and_mark_trace (book : pystr) (chapter verse : Z)
    (all_translations : list (pystr * pystr)) (w : world) :
  ∃ events,
    (store_and_mark upper book chapter verse all_translations w).1 = true
    ∧ trace (store_and_mark upper book chapter verse all_translations w).2
      = trace w ++ events
    ∧ requested events = []
    ∧ web_attempts events = [].
Proof.
  unfold store_and_mark, store_translations, mark_verse_completed, save_progress,
    save_data. step.
  repeat case_decide; step.
  - eexists [_; _; _]. split_and!; [done|by rewrite <- !(assoc_L (++))|done..].
  - eexists [_; _]. split_and!; [done|by rewrite <- !(assoc_L (++))|done..].
  - eexists [_; _; _]. split_and!; [done|by rewrite <- !(assoc_L (++))|done..].
  - eexists [_; _]. split_and!; [done|by rewrite <- !(assoc_L (++))|done..].
Qed.

Lemma is_verse_completed_run (book : pystr) (chapter verse : Z) (w : world) :
  is_verse_completed book chapter verse w
  = ((is_verse_completed book chapter verse w).1, w).
Proof. by unfold is_verse_completed; step. Qed.

Lemma scrape_verse_run (book : pystr) (chapter verse : Z) (w : world) :
  (is_verse_completed book chapter verse w).1 = false →
  scrape_verse' book chapter verse w
  = let urls := build_urls lower book chapter verse in
    let '(st1, w1) := cache_phase' urls book chapter verse ([], false) w in
    let '(st2, w2) :=
      (if negb st1.2 then web_phase' urls book chapter verse st1.1 else mret st1) w1 in
    if negb st2.2
    then (false, with_events w2 [Log WARNING (NoTranslationsExtracted book chapter verse)])
    else store_and_mark upper book chapter verse st2.1 w2.
Proof.
  intros Hnot. unfold scrape_verse.
  unfold mbind at 1. unfold M_bind at 1.
  rewrite is_verse_completed_run, Hnot. cbn zeta.
  unfold mbind at 1. unfold M_bind at 1.
  destruct (cache_phase' _ _ _ _ _ w) as [[all1 found1] w1].
  unfold mbind at 1. unfold M_bind at 1.
  destruct found1; cbn [negb fst snd].
  - by unfold mret, M_ret.
  - destruct (web_phase' _ _ _ _ all1 w1) as [[all found] w2].
    cbn [fst snd]. destruct found; [done|]. by step.
Qed.

(** The two phases of [scrape_verse] on a verse that is not completed. *)
Lemma scrape_verse_phases (book : pystr) (chapter verse : Z) (w : world) :
  (is_verse_completed book chapter verse w).1 = false →
  let urls := build_urls lower book chapter verse in
  let found :=
    existsb (λ url, nonempty (candidate_yield' url book chapter verse true w).1) urls in
  let r := scrape_verse' book chapter verse w in
  ∃ phase1 phase2,
    trace r.2 = trace w ++ phase1 ++ phase2
    ∧ cache_lookups phase1 = omap (λ url, cache_file_of url book chapter verse) urls
    ∧ requested phase1 = []
    ∧ web_attempts phase1 = []
    ∧ (found = true →
       requested phase2 = [] ∧ web_attempts phase2 = [] ∧ r.1 = true)
    ∧ (found = false →
       requests_follow (web_attempts phase2) (requested phase2)
       ∧ ((r.1 = false
           ∧ web_attempts phase2 = urls
           ∧ ∃ w', all_miss' book chapter verse (with_events w phase1) urls w')
          ∨ (r.1 = true
             ∧ ∃ tried url rest w_mid,
                 urls = tried ++ url :: rest
                 ∧ web_attempts phase2 = tried ++ [url]
                 ∧ all_miss' book chapter verse (with_events w phase1) tried w_mid
                 ∧ (candidate_yield' url book chapter verse false
                      (with_events w_mid
                         [Log INFO (ScrapingFromWeb book chapter verse url)])).1 ≠ []))).
Proof.
  intros Hnot. cbn zeta. rewrite (scrape_verse_run _ _ _ _ Hnot). cbn zeta.
  destruct (cache_phase_spec (build_urls lower book chapter verse) book chapter verse
              ([], false) w) as (e1 & Hw1 & Hr1 & Ha1 & Hc1 & Hfound).
  destruct (cache_phase' _ _ _ _ _ w) as [[all found] w1].
  cbn [fst snd orb] in Hw1, Hfound. subst w1. rewrite <- Hfound. clear Hfound.
  exists e1. destruct found; cbn [negb fst snd].
  - (* some cached candidate has translations *)
    unfold mret, M_ret. cbn [negb fst snd].
    destruct (store_and_mark_trace book chapter verse all (with_events w e1))
      as (e2 & Hret & Hw2 & Hr2 & Ha2).
    exists e2. rewrite Hw2. cbn [trace with_events].
    split_and!; [by rewrite (assoc_L (++))|done..| |].
    + done.
    + done.
  - (* nothing usable in the cache: the web *)
    destruct (web_phase_spec (build_urls lower book chapter verse) book chapter verse
                all (with_events w e1)) as (e2 & Hw2 & Hfollow & Hcases).
    cbn zeta in Hw2, Hcases.
    destruct (web_phase' _ _ _ _ all (with_events w e1)) as [[all' found'] w2].
    cbn [fst snd trace with_events] in Hw2, Hcases.
    destruct Hcases as [(-> & Hatt & Hmiss)|(-> & tried & url & rest & w_mid & Hurls & Hatt & Hmiss & Hyield)];
      cbn [negb].
    + exists (e2 ++ [Log WARNING (NoTranslationsExtracted book chapter verse)]).
      cbn [negb fst snd trace with_events].
      rewrite Hw2, web_attempts_app, requested_app. cbn. rewrite !app_nil_r.
      split_and!; [by rewrite <- !(assoc_L (++))|done..| |].
      * done.
      * intros _. split; [done|]. left. split_and!; [done..|]. by exists w2.
    + destruct (store_and_mark_trace book chapter verse all' w2)
        as (e3 & Hret & Hw3 & Hr3 & Ha3).
      exists (e2 ++ e3). cbn [negb fst snd]. rewrite Hw3, Hw2, web_attempts_app, requested_app, Hr3, Ha3.
      rewrite !app_nil_r.
      split_and!; [by rewrite <- !(assoc_L (++))|done..| |].
      * done.
      * intros _. split; [done|]. right. split; [done|].
        by exists tried, url, rest, w_mid.
Qed.

(** C1, amended. For a verse unit that is not marked completed,
    [scrape_verse] first looks every candidate URL up in the cache, in the
    order of the list, without a request. If a cached candidate yields
    translations, no request is made and no web fetch is announced at
    all. If none does, the candidates are fetched with the network
    enabled in their listed order (the requests follow that order, at
    most [MAX_RETRIES] per candidate): either every candidate is fetched
    and yields nothing, and the result is [False], or the fetches stop at
    the first candidate whose page yields translations, and the result is
    [True]. *)
Theorem scrape_verse_cache_then_web (book : pystr) (chapter verse : Z) (w : world) :
  (is_verse_completed book chapter verse w).1 = false →
  let urls := build_urls lower book chapter verse in
  let cached url := (candidate_yield' url book chapter verse true w).1 in
  let r := scrape_verse' book chapter verse w in
  ∃ phase1 phase2,
    trace r.2 = trace w ++ phase1 ++ phase2
    ∧ cache_lookups phase1 = omap (λ url, cache_file_of url book chapter verse) urls
    ∧ requested phase1 = []
    ∧ web_attempts phase1 = []
    ∧ ((∃ url, url ∈ urls ∧ cached url ≠ []) →
       requested phase2 = [] ∧ web_attempts phase2 = [] ∧ r.1 = true)
    ∧ ((∀ url, url ∈ urls → cached url = []) →
       requests_follow (web_attempts phase2) (requested phase2)
       ∧ ((r.1 = false
           ∧ web_attempts phase2 = urls
           ∧ ∃ w', all_miss' book chapter verse (with_events w phase1) urls w')
          ∨ (r.1 = true
             ∧ ∃ tried url rest w_mid,
                 urls = tried ++ url :: rest
                 ∧ web_attempts phase2 = tried ++ [url]
                 ∧ all_miss' book chapter verse (with_events w phase1) tried w_mid
                 ∧ (candidate_yield' url book chapter verse false
                      (with_events w_mid
                         [Log INFO (ScrapingFromWeb book chapter verse url)])).1 ≠ []))).
Proof.
  intros Hnot. cbn zeta.
  destruct (scrape_verse_phases book chapter verse w Hnot)
    as (phase1 & phase2 & Htrace & Hlookups & Hr1 & Ha1 & Hhit & Hmiss).
  exists phase1, phase2. split_and!; [done..| |].
  - intros (url & Hin & Hyield). apply Hhit, existsb_exists.
    exists url. split; [by apply list_elem_of_In|].
    by destruct (candidate_yield' url book chapter verse true w).1.
  - intros Hnone. apply Hmiss, not_true_iff_false.
    intros (url & Hin & Hyield)%existsb_exists.
    rewrite (Hnone url) in Hyield; [done|]. by apply list_elem_of_In.
Qed.

Lemma build_urls_plain (book : pystr) (chapter verse : Z) :
  ¬ (book = EPISTLE_OF_JEREMIAH ∧ chapter = 1%Z) →
  build_urls lower book chapter verse
  = [verse_url (py "catholic") (book_slug_of lower book) chapter verse;
     verse_url (py "apocrypha") (book_slug_of lower book) chapter verse].
Proof.
  intros Hne. unfold build_urls, candidate_chapters.
  by rewrite decide_False.
Qed.

Lemma build_urls_alias (verse : Z) :
  build_urls lower EPISTLE_OF_JEREMIAH 1 verse
  = [verse_url (py "catholic") (book_slug_of lower EPISTLE_OF_JEREMIAH) 1 verse;
     verse_url (py "apocrypha") (book_slug_of lower EPISTLE_OF_JEREMIAH) 1 verse;
     verse_url (py "catholic") (book_slug_of lower EPISTLE_OF_JEREMIAH) 6 verse;
     verse_url (py "apocrypha") (book_slug_of lower EPISTLE_OF_JEREMIAH) 6 verse].
Proof.
  unfold build_urls, candidate_chapters.
  by rewrite decide_True.
Qed.

Lemma verse_url_chapter_inj (base base' book_slug : pystr) (ch ch' verse : Z) :
  base ∈ SOURCE_PATHS → base' ∈ SOURCE_PATHS →
  verse_url base book_slug ch verse = verse_url base' book_slug ch' verse →
  ch = ch'.
Proof.
  unfold SOURCE_PATHS, verse_url. intros Hb Hb' H.
  apply app_inv_head in H.
  assert (Hsame : base = base').
  { apply elem_of_cons in Hb as [->|Hb]; apply elem_of_cons in Hb' as [->|Hb'];
      try done.
    - apply list_elem_of_singleton in Hb' as ->. by cbv in H.
    - apply list_elem_of_singleton in Hb as ->. by cbv in H.
    - apply list_elem_of_singleton in Hb as ->.
      by apply list_elem_of_singleton in Hb' as ->. }
  subst base'. do 4 apply app_inv_head in H.
  rewrite !(assoc_L (++) (str_of_int _)) in H.
  apply app_inv_tail in H. apply app_inv_tail in H.
  by apply str_of_int_inj.
Qed.

(** The candidates of a verse: for the Epistle of Jeremiah, chapter 1, the
    URLs of chapter 1 and of chapter 6 under both source paths; for every
    other book or chapter the two URLs of the given chapter, and no URL of
    another chapter. *)
Lemma build_urls_chapters :
  (∀ verse base,
     base ∈ SOURCE_PATHS →
     verse_url base (book_slug_of lower EPISTLE_OF_JEREMIAH) 1 verse
       ∈ build_urls lower EPISTLE_OF_JEREMIAH 1 verse
     ∧ verse_url base (book_slug_of lower EPISTLE_OF_JEREMIAH) 6 verse
       ∈ build_urls lower EPISTLE_OF_JEREMIAH 1 verse)
  ∧ (∀ book chapter verse,
       ¬ (book = EPISTLE_OF_JEREMIAH ∧ chapter = 1%Z) →
       (∀ url, url ∈ build_urls lower book chapter verse
               ↔ ∃ base, base ∈ SOURCE_PATHS
                         ∧ url = verse_url base (book_slug_of lower book) chapter verse)
       ∧ (∀ base ch,
            base ∈ SOURCE_PATHS → ch ≠ chapter →
            verse_url base (book_slug_of lower book) ch verse
              ∉ build_urls lower book chapter verse)).
Proof.
  assert (Hplain : ∀ book chapter verse url,
    ¬ (book = EPISTLE_OF_JEREMIAH ∧ chapter = 1%Z) →
    url ∈ build_urls lower book chapter verse
    ↔ ∃ base, base ∈ SOURCE_PATHS
              ∧ url = verse_url base (book_slug_of lower book) chapter verse).
  { intros book chapter verse url Hne. rewrite build_urls_plain by done.
    unfold SOURCE_PATHS. split.
    - intros [->|[->|[]%elem_of_nil]%elem_of_cons]%elem_of_cons;
        eexists; (split; [|reflexivity]); set_solver.
    - intros (base & [->|[->|[]%elem_of_nil]%elem_of_cons]%elem_of_cons & ->);
        set_solver. }
  split.
  - intros verse base Hbase. rewrite build_urls_alias. unfold SOURCE_PATHS in Hbase.
    apply elem_of_cons in Hbase as [->|[->|[]%elem_of_nil]%elem_of_cons];
      split; set_solver.
  - intros book chapter verse Hne. split; [intros url; by apply Hplain|].
    intros base ch Hbase Hch Hin.
    apply Hplain in Hin as (base' & Hbase' & Heq); [|done].
    by apply verse_url_chapter_inj in Heq.
Qed.
End scrape_facts.

(* ================================================================== *)
(** * The statements at concrete inputs *)

(** A verse that is marked completed is skipped: [scrape_verse] returns
    [True] with one debug line in the trace and without a look into the
    cache, though the verse has candidate URLs. *)
Lemma scrape_verse_completed_skips_cache :
  (scrape_verse ascii_lower ascii_upper same_text same_text
     (parsed_as genesis_page) text_soup TOBIT 1 1 tobit_done_world).1 = true
  ∧ trace (scrape_verse ascii_lower ascii_upper same_text same_text
             (parsed_as genesis_page) text_soup TOBIT 1 1 tobit_done_world).2
    = [Log DEBUG (SkippingCompleted TOBIT 1 1)]
  ∧ cache_lookups
      (trace (scrape_verse ascii_lower ascii_upper same_text same_text
                (parsed_as genesis_page) text_soup TOBIT 1 1 tobit_done_world).2) = []
  ∧ length (build_urls ascii_lower TOBIT 1 1) = 2%nat.
Proof. by vm_compute. Qed.

Lemma scrape_verse_cache_then_web_witness :
  (is_verse_completed TOBIT 1 1 empty_world).1 = false
  ∧ ∃ phase1 phase2,
      trace (scrape_verse ascii_lower ascii_upper same_text same_text
               (parsed_as genesis_page) text_soup TOBIT 1 1 empty_world).2
      = trace empty_world ++ phase1 ++ phase2
      ∧ requested phase1 = [].
Proof.
  split; [reflexivity|].
  destruct (scrape_verse_cache_then_web ascii_lower ascii_upper same_text same_text
              (parsed_as genesis_page) text_soup TOBIT 1 1 empty_world eq_refl)
    as (phase1 & phase2 & Htrace & _ & Hrequested & _).
  exists phase1, phase2. split; [exact Htrace | exact Hrequested].
Defined.

(** A put of 100 spaces is followed by a miss although the text has 100
    bytes, and a put of a text with a CR LF is followed by a get of another
    text, the one with the CR LF read as LF. *)
Lemma cache_put_get_not_identity :
  utf8_size blank_page = 100
  ∧ (load_from_cache (Some TOBIT_1_1_CACHE)
       (cache_write TOBIT_1_1_CACHE blank_page empty_world).2).1 = None
  ∧ utf8_size crlf_page = 102
  ∧ (load_from_cache (Some TOBIT_1_1_CACHE)
       (cache_write TOBIT_1_1_CACHE crlf_page empty_world).2).1
    = Some (0x0A :: replicate 100 0x61)
  ∧ 0x0A :: replicate 100 0x61 ≠ crlf_page.
Proof. by vm_compute. Qed.

Lemma cache_put_get_witness :
  ∃ f, cache_file_of TOBIT_1_1_URL TOBIT 1 1 = Some f
    ∧ (load_from_cache (Some f) (cache_write f crlf_page empty_world).2).1
      = Some (0x0A :: replicate 100 0x61).
Proof.
  destruct (cache_put_get TOBIT_1_1_URL TOBIT 1 1 crlf_page empty_world)
    as (f & Hf & Hget & _); [discriminate | discriminate |].
  exists f. split; [exact Hf|]. rewrite Hget. reflexivity.
Defined.

(** A 404 and three 500s in a row come back to the caller as the same
    value, after one request and after three. *)
Lemma fetch_page_failures_look_alike :
  (fetch_page TOBIT_1_1_URL TOBIT 1 1 false not_found_world).1 = None
  ∧ requests (fetch_page TOBIT_1_1_URL TOBIT 1 1 false not_found_world).2 = 1%nat
  ∧ (fetch_page TOBIT_1_1_URL TOBIT 1 1 false server_error_world).1 = None
  ∧ requests (fetch_page TOBIT_1_1_URL TOBIT 1 1 false server_error_world).2 = 3%nat
  ∧ (fetch_page TOBIT_1_1_URL TOBIT 1 1 false not_found_world).1
    = (fetch_page TOBIT_1_1_URL TOBIT 1 1 false server_error_world).1.
Proof. by vm_compute. Qed.

Lemma fetch_page_failures_witness :
  (fetch_page TOBIT_1_1_URL TOBIT 1 1 false not_found_world).1 = None
  ∧ requests (fetch_page TOBIT_1_1_URL TOBIT 1 1 false not_found_world).2 = 1%nat.
Proof.
  destruct (fetch_page_failures TOBIT_1_1_URL TOBIT 1 1 not_found_world eq_refl)
    as [Hnot_found _].
  destruct (Hnot_found 0%nat [] ltac:(unfold MAX_RETRIES; lia)
              ltac:(intros i Hi; lia) eq_refl) as (Hnone & Hrequests & _).
  split; [exact Hnone | exact Hrequests].
Defined.

(** The chapter 6 candidate of a verse reads and writes the cache file of
    the verse, the one of the chapter 1 candidate of the same source path:
    the file name is made from the chapter asked for. *)
Lemma alias_candidates_share_cache_file :
  cache_file_of (verse_url (py "catholic") (py "epistle_of_jeremiah") 6 7)
    EPISTLE_OF_JEREMIAH 1 7
  = cache_file_of (verse_url (py "catholic") (py "epistle_of_jeremiah") 1 7)
      EPISTLE_OF_JEREMIAH 1 7.
Proof. by vm_compute. Qed.

(** C4. The chapter 6 URLs are candidates of Epistle of Jeremiah 1:7, but
    the run gives up without a request to either of them. With an empty
    cache and a web that answers every request 200 with a page of 100
    letters (a page without translations), [scrape_verse] announces a web
    fetch for the four candidates and returns [False] after two requests,
    those to the chapter 1 URLs: each page is written to the cache file of
    the verse asked for, [1-7.htm] under its source path, and that file is
    what [fetch_page] returns for the chapter 6 URL of the same source
    path. *)
Theorem alias_chapter_not_requested :
  build_urls ascii_lower EPISTLE_OF_JEREMIAH 1 7
  = [verse_url (py "catholic") (py "epistle_of_jeremiah") 1 7;
     verse_url (py "apocrypha") (py "epistle_of_jeremiah") 1 7;
     verse_url (py "catholic") (py "epistle_of_jeremiah") 6 7;
     verse_url (py "apocrypha") (py "epistle_of_jeremiah") 6 7]
  ∧ (is_verse_completed EPISTLE_OF_JEREMIAH 1 7 soft_404_world).1 = false
  ∧ (scrape_verse ascii_lower ascii_upper same_text same_text text_soup text_soup
       EPISTLE_OF_JEREMIAH 1 7 soft_404_world).1 = false
  ∧ web_attempts
      (trace (scrape_verse ascii_lower ascii_upper same_text same_text text_soup text_soup
                EPISTLE_OF_JEREMIAH 1 7 soft_404_world).2)
    = build_urls ascii_lower EPISTLE_OF_JEREMIAH 1 7
  ∧ requested
      (trace (scrape_verse ascii_lower ascii_upper same_text same_text text_soup text_soup
                EPISTLE_OF_JEREMIAH 1 7 soft_404_world).2)
    = [verse_url (py "catholic") (py "epistle_of_jeremiah") 1 7;
       verse_url (py "apocrypha") (py "epistle_of_jeremiah") 1 7]
  ∧ html_cache
      (scrape_verse ascii_lower ascii_upper same_text same_text text_soup text_soup
         EPISTLE_OF_JEREMIAH 1 7 soft_404_world).2
    !! (py "Epistle_of_Jeremiah", py "catholic", py "1-7.htm")
    = Some (Stored (replicate 100 0x61))
  ∧ html_cache
      (scrape_verse ascii_lower ascii_upper same_text same_text text_soup text_soup
         EPISTLE_OF_JEREMIAH 1 7 soft_404_world).2
    !! (py "Epistle_of_Jeremiah", py "catholic", py "6-7.htm")
    = None.
Proof. by vm_compute. Qed.

(** The sibling path: when every request is answered 404 nothing is cached,
    and the run asks for the four candidates, the chapter 6 URLs after the
    chapter 1 URLs, before it gives up. *)
Lemma alias_chapter_requested_after_404 :
  (scrape_verse ascii_lower ascii_upper same_text same_text text_soup text_soup
     EPISTLE_OF_JEREMIAH 1 7 not_found_world).1 = false
  ∧ requested
      (trace (scrape_verse ascii_lower ascii_upper same_text same_text text_soup text_soup
                EPISTLE_OF_JEREMIAH 1 7 not_found_world).2)
    = build_urls ascii_lower EPISTLE_OF_JEREMIAH 1 7.
Proof. by vm_compute. Qed.

(** A paragraph is not among the tags the walk stops at. *)
Lemma paragraph_is_no_block_tag : is_block_tag (Tag (py "p") no_attrs []) = false.
Proof. by vm_compute. Qed.



Lemma progress_ledger_roundtrip_witness :
  (is_verse_completed TOBIT 1 1
     (load_progress
        (fresh_process
           (save_progress (mark_all [(TOBIT, 1%Z, 1%Z)] empty_world).2).2)).2).1 = true.
Proof.
  apply (progress_ledger_roundtrip empty_world [(TOBIT, 1%Z, 1%Z)] TOBIT 1 1).
  apply list_elem_of_here.
Defined.

Lemma corpus_record_last_write_wins_witness :
  record ∅ (py "KJV") TOBIT (py "1") (py "1") (py "text") !! py "WEB" = None.
Proof.
  destruct (corpus_record_last_write_wins ∅ (py "KJV") TOBIT (py "1") (py "1") (py "text"))
    as (_ & _ & Hother & _).
  rewrite (Hother (py "WEB")); [reflexivity | discriminate].
Defined.

Lemma detect_locale_first_rule_wins_witness :
  detect_locale_from_name ascii_lower (py "REINA VALERA 1909") = py "es"
  ∧ detect_locale_from_name ascii_lower (py "NEW INTERNATIONAL VERSION") = py "en"
  ∧ detect_locale_from_name ascii_lower (py "QWERTY 123") = py "und".
Proof.
  destruct (detect_locale_first_rule_wins ascii_lower (λ s _, eq_refl))
    as (_ & _ & _ & Hes & Hen & Hund).
  split; [exact Hes | split; [exact Hen | exact Hund]].
Defined.

(** A key whose entry in the map is the empty string is not renamed to it. *)
Lemma empty_entry_keeps_the_key :
  empty_entry_map !! py "Genesis" = Some []
  ∧ od_get [] (rename_books empty_entry_map genesis_file).1 = None
  ∧ is_Some (od_get (py "Genesis") (rename_books empty_entry_map genesis_file).1).
Proof. split_and!; [by vm_compute..|]. by eexists; vm_compute. Qed.

Lemma book_names_localized_witness :
  ∃ new_data,
    apply_mapping_to_version_file ascii_upper (py "danish") danish_mapping
      (Holds (JObject exodus_file))
    = Holds (JObject new_data)
    ∧ od_get (py "2 Mosebog") new_data = Some (JObject [])
    ∧ od_get (py "Exodus") new_data = None.
Proof.
  destruct (book_names_localized ascii_upper (py "danish") danish_mapping
              {[py "Exodus" := py "2 Mosebog"]} exodus_file)
    as (new_data & Hfile & _ & _ & _ & Hget & _).
  - reflexivity.
  - apply NoDup_cons. split; [apply not_elem_of_nil | apply NoDup_nil; exact I].
  - exists new_data. split; [exact Hfile|]. rewrite !Hget. split; reflexivity.
Defined.

Lemma organize_versions_never_overwrites_witness :
  (organize_versions ascii_lower [py "versions"] [py "versions_gz"] colliding_fs).2
    !! [py "versions_gz"; py "en"; NIV_FILE] = Some (File (py "old"))
  ∧ (organize_versions ascii_lower [py "versions"] [py "versions_gz"] colliding_fs).2
      !! [py "versions"; NIV_FILE] = Some (File (py "new")).
Proof.
  apply (organize_versions_never_overwrites ascii_lower [py "versions"] [py "versions_gz"]
           colliding_fs NIV_FILE (py "new") (py "old")).
  - reflexivity.
  - reflexivity.
  - reflexivity.
Defined.

(* ================================================================== *)
(** * [fetch_page]: what it returns and what it touches *)

Lemma same_state_with_events (w : world) (events : list event) :
  same_state w (with_events w events).
Proof. by repeat split. Qed.

Lemma only_fetches_refl (cache_file : option cache_path) (w : world) :
  only_fetches cache_file w w.
Proof. by repeat split. Qed.

Lemma only_fetches_trans (cache_file : option cache_path) (w1 w2 w3 : world) :
  only_fetches cache_file w1 w2 → only_fetches cache_file w2 w3 →
  only_fetches cache_file w1 w3.
Proof.
  intros (Hp & Hd & Hpf & Hof & Hw & Hr & Hc) (Hp' & Hd' & Hpf' & Hof' & Hw' & Hr' & Hc').
  split_and!; try congruence; [lia|].
  intros f Hf. by rewrite Hc', Hc.
Qed.

Lemma only_fetches_with_events (cache_file : option cache_path) (w : world)
    (events : list event) :
  only_fetches cache_file w (with_events w events).
Proof. by repeat split. Qed.

(** The retry loop makes at most one request per attempt; it leaves the
    cache as it is or writes the page it returns to the cache file. *)
Lemma fetch_from_web_state (url : pystr) (cache_file : option cache_path)
    (attempts : list nat) (w : world) :
  let r := fetch_from_web url cache_file attempts w in
  only_fetches cache_file w r.2
  ∧ (requests r.2 ≤ requests w + length attempts)%nat
  ∧ (html_cache r.2 = html_cache w
     ∨ ∃ f text, cache_file = Some f ∧ r.1 = Some text
                 ∧ html_cache r.2 = <[f := Stored text]> (html_cache w)).
Proof.
  cbn zeta. revert w. induction attempts as [|attempt later IH]; intros w.
  - cbn. step. split_and!; [by repeat split|lia|by left].
  - cbn [fetch_from_web]. step.
    destruct (web w (requests w) url) as [status html_content|].
    + destruct (decide (status = 200%Z)) as [->|H200].
      * destruct cache_file as [f|]; step.
        -- split_and!; [|lia|right; by eexists _, _].
           unfold only_fetches; cbn; split_and!; try done; try lia.
           intros f' Hf'. rewrite lookup_insert_ne; [done|congruence].
        -- split_and!; [|lia|by left]; unfold only_fetches; cbn; split_and!; try done; lia.
      * destruct (decide (status = 404%Z)) as [->|H404]; step.
        -- split_and!; [|lia|by left]; unfold only_fetches; cbn; split_and!; try done; lia.
        -- case_decide; step;
             match goal with
             | |- context [fetch_from_web url cache_file later ?w2] =>
                 destruct (IH w2) as ((Hp & Hd & Hpf & Hof & Hw & Hr & Hc) & Hn & Hcache)
             end; cbn in *;
             (split_and!; [unfold only_fetches; cbn; split_and!; try done; lia|lia|done]).
    + case_decide; step;
        match goal with
        | |- context [fetch_from_web url cache_file later ?w2] =>
            destruct (IH w2) as ((Hp & Hd & Hpf & Hof & Hw & Hr & Hc) & Hn & Hcache)
        end; cbn in *;
        (split_and!; [unfold only_fetches; cbn; split_and!; try done; lia|lia|done]).
Qed.


(** X1. A usable page in the cache file (100 bytes or more, not white
    space only) is what [fetch_page] returns, as a text-mode read gives
    it, with or without [skip_fetch]: the call only adds the lookup, the
    read and one log line to the trace. *)
Theorem fetch_page_cache_hit (url book : pystr) (chapter verse : Z) (skip_fetch : bool)
    (w : world) (f : cache_path) (text : pystr) :
  cache_file_of url book chapter verse = Some f →
  html_cache w !! f = Some (Stored text) →
  (100 ≤ utf8_size text)%N →
  truthy (strip (universal_newlines text)) = true →
  fetch_page url book chapter verse skip_fetch w
  = (Some (universal_newlines text),
     with_events w [CacheExists f; CacheRead f; Log INFO (LoadedFromCache f)]).
Proof.
  intros Hf Hstored Hsize Hfilled. unfold fetch_page, load_from_cache. rewrite Hf.
  step. rewrite Hstored. cbn.
  destruct (N.ltb_spec (utf8_size text) 100) as [Hlt|_]; [lia|].
  step. rewrite Hfilled. step. f_equal. same_world.
Qed.


(** What one call of [fetch_page] touches. *)
Lemma fetch_page_state (url book : pystr) (chapter verse : Z) (skip_fetch : bool)
    (w : world) :
  only_fetches (cache_file_of url book chapter verse) w
    (fetch_page url book chapter verse skip_fetch w).2
  ∧ (requests (fetch_page url book chapter verse skip_fetch w).2
     ≤ requests w + MAX_RETRIES)%nat
  ∧ (html_cache (fetch_page url book chapter verse skip_fetch w).2 = html_cache w
     ∨ ∃ f text, cache_file_of url book chapter verse = Some f
                 ∧ (fetch_page url book chapter verse skip_fetch w).1 = Some text
                 ∧ html_cache (fetch_page url book chapter verse skip_fetch w).2
                   = <[f := Stored text]> (html_cache w))
  ∧ (if skip_fetch then same_state w (fetch_page url book chapter verse skip_fetch w).2
     else True).
Proof.
  cbn zeta. unfold fetch_page.
  destruct (load_from_cache_events (cache_file_of url book chapter verse) w)
    as (events & Hw & _).
  unfold mbind, M_bind, sleep, emit.
  destruct (load_from_cache _ w) as [[content|] w1]; cbn in Hw; subst w1.
  - unfold mret, M_ret. cbn.
    split_and!; [apply only_fetches_with_events|lia|by left|].
    destruct skip_fetch; [apply same_state_with_events|done].
  - destruct skip_fetch.
    + unfold mret, M_ret. cbn.
      split_and!; [apply only_fetches_with_events|lia|by left|apply same_state_with_events].
    + cbn -[fetch_from_web seq MAX_RETRIES].
      pose proof (fetch_from_web_state url (cache_file_of url book chapter verse)
                    (seq 0 MAX_RETRIES)
                    (with_events (with_events w events) [Sleep REQUEST_DELAY])) as Hweb.
      cbn zeta in Hweb. rewrite length_seq in Hweb.
      destruct Hweb as (Hframe & Hn & Hcache).
      split_and!; [exact Hframe|exact Hn|exact Hcache|done].
Qed.

(** X3. Whatever the cache and the web hold, one call of [fetch_page] makes
    at most [MAX_RETRIES] requests and leaves the ledger, the corpus, the
    two JSON files and every cache file but its own as they were; with
    [skip_fetch] it makes no request and writes no cache file. *)
Theorem fetch_page_footprint (url book : pystr) (chapter verse : Z) (skip_fetch : bool)
    (w : world) :
  let cache_file := cache_file_of url book chapter verse in
  let r := fetch_page url book chapter verse skip_fetch w in
  only_fetches cache_file w r.2
  ∧ (requests r.2 ≤ requests w + MAX_RETRIES)%nat
  ∧ (if skip_fetch then requests r.2 = requests w ∧ html_cache r.2 = html_cache w
     else True).
Proof.
  cbn zeta.
  destruct (fetch_page_state url book chapter verse skip_fetch w) as (Hf & Hn & _ & Hs).
  split_and!; [done|done|].
  destruct skip_fetch; [|done]. by destruct Hs as (_ & _ & ? & _ & _ & _ & ?).
Qed.

(* ================================================================== *)
(** * White space *)

Lemma lstrip_idemp (s : pystr) : lstrip (lstrip s) = lstrip s.
Proof.
  induction s as [|c s IH]; [done|]. cbn.
  destruct (isspace c) eqn:Hc; [done|]. cbn. by rewrite Hc.
Qed.

Lemma lstrip_suffix (s : pystr) : ∃ dropped, s = dropped ++ lstrip s.
Proof.
  induction s as [|c s [d IH]]; [by exists []|]. cbn.
  destruct (isspace c); [|by exists []].
  exists (c :: d). cbn. by rewrite <- IH.
Qed.

Lemma lstrip_snoc (s : pystr) (c : N) :
  isspace c = false → ∃ kept, lstrip (s ++ [c]) = kept ++ [c].
Proof.
  intros Hc. induction s as [|d s [kept IH]]; cbn.
  - rewrite Hc. by exists [].
  - destruct (isspace d); [by exists kept|]. by exists (d :: s).
Qed.

Lemma rstrip_prefix (s : pystr) : ∃ dropped, s = rstrip s ++ dropped.
Proof.
  unfold rstrip. destruct (lstrip_suffix (rev s)) as [d Hd].
  exists (rev d). rewrite <- rev_app_distr, <- Hd. by rewrite rev_involutive.
Qed.

Lemma rstrip_idemp (s : pystr) : rstrip (rstrip s) = rstrip s.
Proof. unfold rstrip. by rewrite rev_involutive, lstrip_idemp. Qed.

Lemma rstrip_keeps_head (c : N) (s : pystr) :
  isspace c = false → ∃ kept, rstrip (c :: s) = c :: kept.
Proof.
  intros Hc. unfold rstrip. cbn [rev].
  destruct (lstrip_snoc (rev s) c Hc) as [kept ->].
  exists (rev kept). by rewrite rev_app_distr.
Qed.

Lemma lstrip_head (s : pystr) :
  lstrip s = [] ∨ ∃ c rest, lstrip s = c :: rest ∧ isspace c = false.
Proof.
  induction s as [|c s IH]; [by left|]. cbn.
  destruct (isspace c) eqn:Hc; [done|]. right. by exists c, s.
Qed.

Lemma strip_idemp (s : pystr) : strip (strip s) = strip s.
Proof.
  unfold strip. destruct (lstrip_head s) as [->|(c & rest & -> & Hc)]; [done|].
  destruct (rstrip_keeps_head c rest Hc) as [kept Hkept]. rewrite Hkept.
  cbn [lstrip]. rewrite Hc, <- Hkept. apply rstrip_idemp.
Qed.

Lemma single_spaced_weaken (s : pystr) : single_spaced true s → single_spaced false s.
Proof. destruct s as [|c s]; [done|]. cbn. destruct (isspace c); [by intros [? _]|done]. Qed.

Lemma single_spaced_fixed (in_run : bool) (s : pystr) :
  single_spaced in_run s → collapse_ws_from in_run s = s.
Proof.
  revert in_run. induction s as [|c s IH]; intros in_run; [done|]. cbn.
  destruct (isspace c).
  - intros (-> & -> & Hs). by rewrite IH.
  - intros Hs. by rewrite IH.
Qed.

Lemma collapse_single_spaced (in_run : bool) (s : pystr) :
  single_spaced in_run (collapse_ws_from in_run s).
Proof.
  revert in_run. induction s as [|c s IH]; intros in_run; [done|]. cbn.
  destruct (isspace c) eqn:Hc.
  - destruct in_run; [apply IH|]. cbn. split_and!; [done..|apply IH].
  - cbn. rewrite Hc. apply IH.
Qed.

Lemma single_spaced_prefix (in_run : bool) (s t : pystr) :
  single_spaced in_run (s ++ t) → single_spaced in_run s.
Proof.
  revert in_run. induction s as [|c s IH]; intros in_run; [done|]. cbn.
  destruct (isspace c).
  - intros (? & ? & Hs). split_and!; [done..|]. by apply IH.
  - apply IH.
Qed.

Lemma single_spaced_lstrip (s : pystr) :
  single_spaced false s → single_spaced false (lstrip s).
Proof.
  induction s as [|c s IH]; [done|]. cbn.
  destruct (isspace c) eqn:Hc.
  - intros (_ & _ & Hs). by apply IH, single_spaced_weaken.
  - intros Hs. cbn. by rewrite Hc.
Qed.

Lemma single_spaced_strip (s : pystr) :
  single_spaced false s → single_spaced false (strip s).
Proof.
  intros Hs%single_spaced_lstrip. unfold strip.
  destruct (rstrip_prefix (lstrip s)) as [d Hd]. rewrite Hd in Hs.
  by apply single_spaced_prefix in Hs.
Qed.

Lemma single_spaced_chars (in_run : bool) (s : pystr) :
  single_spaced in_run s → Forall (λ c, isspace c = true → c = 0x20) s.
Proof.
  revert in_run. induction s as [|c s IH]; intros in_run; [constructor|]. cbn.
  destruct (isspace c) eqn:Hc.
  - intros (_ & -> & Hs). constructor; [done|by eapply IH].
  - intros Hs. constructor; [by rewrite Hc|by eapply IH].
Qed.

Lemma clean_verse_text_stripped (unescape : pystr → pystr) (html_parser : pystr → node)
    (text : pystr) :
  strip (clean_verse_text unescape html_parser text)
  = clean_verse_text unescape html_parser text.
Proof.
  unfold clean_verse_text. destruct (negb (truthy text)); [done|apply strip_idemp].
Qed.

Lemma clean_verse_text_single_spaced (unescape : pystr → pystr)
    (html_parser : pystr → node) (text : pystr) :
  single_spaced false (clean_verse_text unescape html_parser text).
Proof.
  unfold clean_verse_text. destruct (negb (truthy text)); [done|].
  apply single_spaced_strip, collapse_single_spaced.
Qed.

(** X4. The text [clean_verse_text] returns is in normal form, whatever the
    HTML parser and [html.unescape] do: it has no white space at its ends,
    its white space is single spaces (stripping it or collapsing its white
    space again changes nothing), and the empty text is cleaned to the
    empty text. *)
Theorem clean_verse_text_normal_form (unescape : pystr → pystr)
    (html_parser : pystr → node) (text : pystr) :
  let cleaned := clean_verse_text unescape html_parser text in
  strip cleaned = cleaned
  ∧ collapse_ws cleaned = cleaned
  ∧ Forall (λ c, isspace c = true → c = 0x20) cleaned
  ∧ clean_verse_text unescape html_parser [] = [].
Proof.
  cbn zeta. pose proof (clean_verse_text_single_spaced unescape html_parser text) as Hs.
  split_and!; [apply clean_verse_text_stripped|by apply single_spaced_fixed|
               by eapply single_spaced_chars|done].
Qed.

(* ================================================================== *)
(** * What a parsed page can give *)

Lemma od_set_NoDup {V} (d : list (pystr * V)) (k : pystr) (v : V) :
  NoDup d.*1 → NoDup (od_set k v d).*1.
Proof.
  intros Hd. destruct (decide (k ∈ d.*1)) as [Hin|Hout].
  - by rewrite od_set_keys.
  - rewrite od_set_fresh, fmap_app by done. cbn.
    apply NoDup_app. split_and!; [done| |apply NoDup_singleton].
    intros x Hx ->%list_elem_of_singleton. done.
Qed.

Lemma od_set_Forall {V} (P : pystr * V → Prop) (d : list (pystr * V)) (k : pystr) (v : V) :
  P (k, v) → Forall P d → Forall P (od_set k v d).
Proof.
  intros Hkv. induction 1 as [|[k0 v0] d H0 Hd IH]; cbn.
  - by constructor.
  - destruct (decide (k0 = k)); by constructor.
Qed.

Lemma od_update_NoDup {V} (d e : list (pystr * V)) :
  NoDup d.*1 → NoDup (od_update d e).*1.
Proof.
  unfold od_update. revert d. induction e as [|[k v] e IH]; intros d Hd; [done|].
  cbn. by apply IH, od_set_NoDup.
Qed.

Lemma od_update_Forall {V} (P : pystr * V → Prop) (d e : list (pystr * V)) :
  Forall P d → Forall P e → Forall P (od_update d e).
Proof.
  unfold od_update. intros Hd He. revert d Hd.
  induction He as [|[k v] e Hkv He IH]; intros d Hd; [done|].
  cbn. by apply IH, od_set_Forall.
Qed.

Lemma truthy_nonempty (s : pystr) : truthy s = true → s ≠ [].
Proof. by destruct s. Qed.

Section parsed_page.
Variable upper unescape path_stem : pystr → pystr.
Variable html_parser : pystr → node.

Lemma cleaned_entry_ok (label text : pystr) :
  truthy label = true →
  truthy (clean_verse_text unescape html_parser text) = true →
  entry_ok (label, clean_verse_text unescape html_parser text).
Proof.
  intros Hl Ht.
  split_and!; cbn; [by apply truthy_nonempty|by apply truthy_nonempty| |].
  - apply clean_verse_text_stripped.
  - apply single_spaced_fixed, clean_verse_text_single_spaced.
Qed.

Lemma extract_version_well_formed translations version_span :
  well_formed translations →
  well_formed (extract_version unescape html_parser translations version_span).
Proof.
  intros [Hk He]. unfold extract_version.
  destruct (find_named _ _); [|done].
  destruct (truthy (get_text_strip _ _)) eqn:Hl; cbn [negb]; [|done].
  destruct (truthy (clean_verse_text _ _ _)) eqn:Ht; [|done].
  split; [by apply od_set_NoDup|].
  apply od_set_Forall; [|done]. by apply cleaned_entry_ok.
Qed.

Lemma extract_parallel_well_formed translations a_tag :
  well_formed translations →
  well_formed (extract_parallel upper unescape path_stem html_parser translations a_tag).
Proof.
  intros [Hk He]. unfold extract_parallel.
  set (trans_name := match find_named _ _ with Some (Tag _ _ _) => _ | _ => _ end).
  destruct (truthy trans_name) eqn:Hl; cbn [negb orb]; [|done].
  destruct (str_in _ _); [done|].
  destruct (truthy (clean_verse_text _ _ _)) eqn:Ht; [|done].
  split; [by apply od_set_NoDup|].
  apply od_set_Forall; [|done]. by apply cleaned_entry_ok.
Qed.

Lemma extract_parallel_label translations a_tag :
  py "PARALLEL" ∉ translations.*1 →
  py "PARALLEL" ∉ (extract_parallel upper unescape path_stem html_parser translations a_tag).*1.
Proof.
  intros Hk. unfold extract_parallel.
  set (trans_name := match find_named _ _ with Some (Tag _ _ _) => _ | _ => _ end).
  destruct (truthy trans_name); cbn [negb orb]; [|done].
  unfold str_in. case_bool_decide as Hin; [done|].
  destruct (truthy (clean_verse_text _ _ _)); [|done].
  destruct (decide (trans_name ∈ translations.*1)) as [Hold|Hnew].
  - by rewrite od_set_keys.
  - rewrite od_set_fresh, fmap_app by done. cbn.
    rewrite elem_of_app, list_elem_of_singleton. intros [?|Heq]; [done|].
    apply Hin. rewrite <- Heq. set_solver.
Qed.

Lemma fold_left_invariant {A B} (P : A → Prop) (f : A → B → A) (l : list B) (a : A) :
  (∀ a b, P a → P (f a b)) → P a → P (fold_left f l a).
Proof. intros Hf. revert a. induction l as [|b l IH]; intros a Ha; [done|]. cbn. auto. Qed.

Lemma extract_translations_entries (soup : node) :
  well_formed (extract_translations upper unescape path_stem html_parser soup).
Proof.
  unfold extract_translations.
  assert (H1 : well_formed (fold_left (extract_version unescape html_parser)
                              (find_all_version_spans soup) [])).
  { apply (fold_left_invariant (λ t, well_formed t)).
    - intros ???. by apply extract_version_well_formed.
    - split; constructor. }
  destruct (fold_left (extract_version _ _) _ _) as [|e t] eqn:Hprimary; [|done].
  destruct (find_par_div soup) as [par_div|]; [|split; constructor].
  apply (fold_left_invariant (λ t, well_formed t)).
  - intros ???. by apply extract_parallel_well_formed.
  - split; constructor.
Qed.

(** X5. The translations [parse_verse_page] extracts from a page, by either
    strategy: no label occurs twice, no label and no verse text is empty,
    and every verse text is in the normal form of [clean_verse_text] (no
    white space at its ends, single spaces inside). *)
Theorem extract_translations_well_formed (soup : node) :
  let translations := extract_translations upper unescape path_stem html_parser soup in
  NoDup translations.*1 ∧ Forall entry_ok translations.
Proof. apply extract_translations_entries. Qed.

(** X6. The fallback strategy of [parse_verse_page] never gives a
    translation labelled PARALLEL: when the page has no version marker that
    yields a text, no extracted label is the link of the parallel view. *)
Theorem fallback_skips_parallel_link (soup : node) :
  fold_left (extract_version unescape html_parser) (find_all_version_spans soup) [] = [] →
  py "PARALLEL" ∉ (extract_translations upper unescape path_stem html_parser soup).*1.
Proof.
  intros Hprimary. unfold extract_translations. rewrite Hprimary.
  destruct (find_par_div soup) as [par_div|]; [|apply not_elem_of_nil].
  apply (fold_left_invariant (λ t : list (pystr * pystr), py "PARALLEL" ∉ t.*1)).
  - intros ???. by apply extract_parallel_label.
  - apply not_elem_of_nil.
Qed.

End parsed_page.

(* ================================================================== *)
(** * [scrape_verse]: what a call leaves behind *)

Lemma same_state_trans (w1 w2 w3 : world) :
  same_state w1 w2 → same_state w2 w3 → same_state w1 w3.
Proof.
  intros (? & ? & ? & ? & ? & ? & ?) (? & ? & ? & ? & ? & ? & ?).
  split_and!; congruence.
Qed.

Lemma same_state_keeps_store (w w' : world) : same_state w w' → keeps_store w w'.
Proof. intros (? & ? & ? & ? & ? & ? & ?). by split_and!. Qed.

Lemma same_state_footprint (files : list cache_path) (budget : nat) (w w' : world) :
  same_state w w' → web_footprint files budget w w'.
Proof.
  intros (? & ? & Hc & ? & ? & ? & Hr). split_and!; [done|lia|lia|].
  intros f _. by rewrite Hc.
Qed.

Lemma keeps_store_trans (w1 w2 w3 : world) :
  keeps_store w1 w2 → keeps_store w2 w3 → keeps_store w1 w3.
Proof. intros (? & ? & ? & ?) (? & ? & ? & ?). split_and!; congruence. Qed.

Lemma web_footprint_trans (files1 files2 files : list cache_path) (n1 n2 n : nat)
    (w1 w2 w3 : world) :
  files1 ⊆ files → files2 ⊆ files → (n1 + n2 ≤ n)%nat →
  web_footprint files1 n1 w1 w2 → web_footprint files2 n2 w2 w3 →
  web_footprint files n w1 w3.
Proof.
  intros H1 H2 Hn (Hw & Hr & Hc) (Hw' & Hr' & Hc').
  split_and!; [congruence|lia|lia|].
  intros f Hf. rewrite Hc', Hc; [done|..]; set_solver.
Qed.

Lemma only_fetches_footprint (cache_file : option cache_path) (n : nat) (w w' : world) :
  only_fetches cache_file w w' → (requests w' ≤ requests w + n)%nat →
  keeps_store w w' ∧ web_footprint (option_list cache_file) n w w'.
Proof.
  intros (? & ? & ? & ? & ? & ? & Hc) Hn.
  split; [by split_and!|]. split_and!; [done|lia|lia|].
  intros f Hf. apply Hc. intros ->. apply Hf. cbn. set_solver.
Qed.

Lemma store_fold (upper : pystr → pystr) (book : pystr) (chapter verse : Z)
    (all_translations : list (pystr * pystr)) (d : corpus) :
  fold_left (λ d item,
               record d (upper item.1) (replace_char 0x5F 0x20 book)
                      (str_of_int chapter) (str_of_int verse) item.2)
            all_translations d
  = record_all (verse_writes upper book chapter verse all_translations) d.
Proof.
  unfold record_all, verse_writes. revert d.
  induction all_translations as [|item l IH]; intros d; [done|]. cbn. by rewrite IH.
Qed.

(** What [store_and_mark] does to the state: the translations are
    recorded, the verse is marked, and at a ledger size that is a multiple
    of ten both files are written. *)
Lemma store_and_mark_state (upper : pystr → pystr) (book : pystr) (chapter verse : Z)
    (all_translations : list (pystr * pystr)) (w : world) :
  let r := store_and_mark upper book chapter verse all_translations w in
  let p' := <[progress_key book chapter verse := true]> (progress w) in
  let d' := record_all (verse_writes upper book chapter verse all_translations) (data w) in
  r.1 = true ∧ progress r.2 = p' ∧ data r.2 = d'
  ∧ html_cache r.2 = html_cache w ∧ web r.2 = web w ∧ requests r.2 = requests w
  ∧ (if decide (size p' `mod` 10 = 0)%nat
     then progress_file r.2 = Holds p' ∧ output_file r.2 = Holds d'
     else progress_file r.2 = progress_file w ∧ output_file r.2 = output_file w).
Proof.
  cbn zeta. rewrite <- store_fold.
  unfold store_and_mark, store_translations, mark_verse_completed, save_progress, save_data.
  step. case_decide; step; rewrite ?decide_True, ?decide_False by done; step; by split_and!.
Qed.

Lemma od_set_nonempty {V} (k : pystr) (v : V) (d : list (pystr * V)) : od_set k v d ≠ [].
Proof. destruct d as [|[k0 v0] d]; cbn; [done|]. by destruct (decide (k0 = k)). Qed.

Lemma od_update_nonempty {V} (d e : list (pystr * V)) :
  d ≠ [] ∨ e ≠ [] → od_update d e ≠ [].
Proof.
  unfold od_update. revert d. induction e as [|[k v] e IH]; intros d Hne; cbn.
  - by destruct Hne.
  - apply IH. left. apply od_set_nonempty.
Qed.

Section scrape_state.
Variable lower upper unescape path_stem : pystr → pystr.
Variable html5lib html_parser : pystr → node.

Local Abbreviation candidate_yield2 :=
  (candidate_yield upper unescape path_stem html5lib html_parser).
Local Abbreviation cache_phase2 :=
  (cache_phase upper unescape path_stem html5lib html_parser).
Local Abbreviation web_phase2 :=
  (web_phase upper unescape path_stem html5lib html_parser).
Local Abbreviation scrape_verse2 :=
  (scrape_verse lower upper unescape path_stem html5lib html_parser).

Lemma candidate_yield_state (url book : pystr) (chapter verse : Z) (skip_fetch : bool)
    (w : world) :
  keeps_store w (candidate_yield2 url book chapter verse skip_fetch w).2
  ∧ web_footprint (option_list (cache_file_of url book chapter verse)) MAX_RETRIES
      w (candidate_yield2 url book chapter verse skip_fetch w).2
  ∧ (skip_fetch = true →
     same_state w (candidate_yield2 url book chapter verse skip_fetch w).2)
  ∧ well_formed (candidate_yield2 url book chapter verse skip_fetch w).1.
Proof.
  destruct (fetch_page_state url book chapter verse skip_fetch w) as (Hf & Hn & _ & Hskip).
  destruct (only_fetches_footprint _ MAX_RETRIES _ _ Hf Hn) as [Hstore Hweb].
  unfold candidate_yield, mbind, M_bind.
  destruct (fetch_page url book chapter verse skip_fetch w) as [[content|] w1]; cbn in *.
  - destruct (truthy content).
    + destruct (parse_verse_page_events upper unescape path_stem html5lib html_parser
                  content w1) as (events & -> & _). cbn [fst snd].
      split_and!.
      * eapply keeps_store_trans; [done|].
        apply same_state_keeps_store, same_state_with_events.
      * eapply (web_footprint_trans _ [] _ MAX_RETRIES 0 MAX_RETRIES);
          [done|set_solver|lia|exact Hweb|].
        apply same_state_footprint, same_state_with_events.
      * intros ->. eapply same_state_trans; [done|apply same_state_with_events].
      * apply extract_translations_entries.
    + unfold mret, M_ret. cbn. split_and!; [done|done| |split; constructor].
      by intros ->.
  - unfold mret, M_ret. cbn. split_and!; [done|done| |split; constructor].
    by intros ->.
Qed.

Lemma same_state_refl (w : world) : same_state w w.
Proof. by repeat split. Qed.

Lemma well_formed_update (d e : list (pystr * pystr)) :
  well_formed d → well_formed e → well_formed (od_update d e).
Proof.
  intros [Hd1 Hd2] [He1 He2]. split; [by apply od_update_NoDup|by apply od_update_Forall].
Qed.

Lemma cache_phase_state (urls : list pystr) (book : pystr) (chapter verse : Z)
    (st : list (pystr * pystr) * bool) (w : world) :
  well_formed st.1 →
  same_state w (cache_phase2 urls book chapter verse st w).2
  ∧ well_formed (cache_phase2 urls book chapter verse st w).1.1.
Proof.
  revert st w. induction urls as [|url urls IH]; intros st w Hst.
  - cbn. unfold mret, M_ret. cbn. split; [apply same_state_refl|done].
  - rewrite cache_phase_cons.
    destruct (candidate_yield_state url book chapter verse true w) as (_ & _ & Hs & Hwf).
    specialize (Hs eq_refl).
    destruct (candidate_yield2 url book chapter verse true w) as [translations w1].
    cbn [fst snd] in *.
    destruct translations as [|t ts].
    + destruct (IH st w1 Hst) as [H1 H2].
      split; [|done]. by eapply same_state_trans.
    + destruct (IH (od_update st.1 (t :: ts), true) w1) as [H1 H2].
      { cbn [fst]. by apply well_formed_update. }
      split; [|done]. by eapply same_state_trans.
Qed.

Lemma web_phase_state (urls : list pystr) (book : pystr) (chapter verse : Z)
    (all_translations : list (pystr * pystr)) (w : world) :
  well_formed all_translations →
  keeps_store w (web_phase2 urls book chapter verse all_translations w).2
  ∧ web_footprint (omap (λ url, cache_file_of url book chapter verse) urls)
      (MAX_RETRIES * length urls) w
      (web_phase2 urls book chapter verse all_translations w).2
  ∧ well_formed (web_phase2 urls book chapter verse all_translations w).1.1.
Proof.
  intros Hall. revert w. induction urls as [|url urls IH]; intros w.
  - cbn. unfold mret, M_ret. cbn. split_and!; [by repeat split| |done].
    apply same_state_footprint, same_state_refl.
  - rewrite web_phase_cons. cbn zeta.
    set (w0 := with_events w [Log INFO (ScrapingFromWeb book chapter verse url)]).
    destruct (candidate_yield_state url book chapter verse false w0)
      as (Hstore & Hweb & _ & Hwf).
    assert (Hstore0 : keeps_store w w0) by by repeat split.
    assert (Hweb0 : web_footprint [] 0 w w0)
      by apply same_state_footprint, same_state_with_events.
    assert (Hfiles : option_list (cache_file_of url book chapter verse)
                     ⊆ omap (λ url, cache_file_of url book chapter verse) (url :: urls)).
    { cbn. destruct (cache_file_of url book chapter verse); cbn; set_solver. }
    assert (Hrest : omap (λ url, cache_file_of url book chapter verse) urls
                    ⊆ omap (λ url, cache_file_of url book chapter verse) (url :: urls)).
    { cbn. destruct (cache_file_of url book chapter verse); cbn; set_solver. }
    destruct (candidate_yield2 url book chapter verse false w0) as [translations w1].
    cbn [fst snd] in *.
    assert (H1 : web_footprint (omap (λ url, cache_file_of url book chapter verse)
                                  (url :: urls)) MAX_RETRIES w w1).
    { eapply (web_footprint_trans [] _ _ 0 MAX_RETRIES MAX_RETRIES);
        [set_solver|exact Hfiles|lia|exact Hweb0|exact Hweb]. }
    destruct translations as [|t ts].
    + destruct (IH w1) as (H2 & H3 & H4).
      split_and!; [|eapply web_footprint_trans; [| | |exact H1|exact H3]|done].
      * eapply keeps_store_trans; [|done]. by eapply keeps_store_trans.
      * done.
      * done.
      * cbn [length]. lia.
    + cbn [fst snd]. split_and!.
      * by eapply keeps_store_trans.
      * destruct H1 as (? & ? & ?). split_and!; [done|lia|cbn [length]; lia|done].
      * by apply well_formed_update.
Qed.

Lemma cache_phase_found (urls : list pystr) (book : pystr) (chapter verse : Z)
    (st : list (pystr * pystr) * bool) (w : world) :
  (st.2 = true → st.1 ≠ []) →
  (cache_phase2 urls book chapter verse st w).1.2 = true →
  (cache_phase2 urls book chapter verse st w).1.1 ≠ [].
Proof.
  revert st w. induction urls as [|url urls IH]; intros st w Hst.
  - cbn. unfold mret, M_ret. by cbn.
  - rewrite cache_phase_cons.
    destruct (candidate_yield2 url book chapter verse true w) as [[|t ts] w1]; cbn [fst snd].
    + by apply IH.
    + apply IH. intros _. cbn [fst]. apply od_update_nonempty. by right.
Qed.

Lemma web_phase_found (urls : list pystr) (book : pystr) (chapter verse : Z)
    (all_translations : list (pystr * pystr)) (w : world) :
  (web_phase2 urls book chapter verse all_translations w).1.2 = true →
  (web_phase2 urls book chapter verse all_translations w).1.1 ≠ [].
Proof.
  revert w. induction urls as [|url urls IH]; intros w.
  - cbn. unfold mret, M_ret. by cbn.
  - rewrite web_phase_cons. cbn zeta.
    destruct (candidate_yield2 url book chapter verse false _) as [[|t ts] w1];
      cbn [fst snd].
    + apply IH.
    + intros _. apply od_update_nonempty. by right.
Qed.

Lemma scrape_verse_done (book : pystr) (chapter verse : Z) (w : world) :
  (is_verse_completed book chapter verse w).1 = true →
  scrape_verse2 book chapter verse w
  = (true, with_events w [Log DEBUG (SkippingCompleted book chapter verse)]).
Proof.
  intros Hdone. unfold scrape_verse. unfold mbind at 1. unfold M_bind at 1.
  rewrite is_verse_completed_run, Hdone. by step.
Qed.

(** The three ways a call of [scrape_verse] ends. *)
Lemma scrape_verse_state (book : pystr) (chapter verse : Z) (w : world) :
  let r := scrape_verse2 book chapter verse w in
  let key := progress_key book chapter verse in
  web_footprint (candidate_files lower book chapter verse)
    (MAX_RETRIES * length (build_urls lower book chapter verse)) w r.2
  ∧ (((is_verse_completed book chapter verse w).1 = true ∧ r.1 = true ∧ same_state w r.2)
     ∨ ((is_verse_completed book chapter verse w).1 = false ∧ r.1 = false
        ∧ keeps_store w r.2)
     ∨ ((is_verse_completed book chapter verse w).1 = false ∧ r.1 = true
        ∧ ∃ all_translations,
            well_formed all_translations ∧ all_translations ≠ []
            ∧ progress r.2 = <[key := true]> (progress w)
            ∧ data r.2
              = record_all (verse_writes upper book chapter verse all_translations) (data w)
            ∧ (if decide (size (<[key := true]> (progress w)) `mod` 10 = 0)%nat
               then progress_file r.2 = Holds (progress r.2)
                    ∧ output_file r.2 = Holds (data r.2)
               else progress_file r.2 = progress_file w
                    ∧ output_file r.2 = output_file w))).
Proof.
  cbn zeta.
  destruct ((is_verse_completed book chapter verse w).1) eqn:Hdone.
  - rewrite scrape_verse_done by done. cbn [fst snd].
    split; [apply same_state_footprint, same_state_with_events|].
    left. split_and!; [done..|apply same_state_with_events].
  - rewrite scrape_verse_run by done. cbn zeta.
    unfold candidate_files.
    set (urls := build_urls lower book chapter verse).
    destruct (cache_phase_state urls book chapter verse ([], false) w) as [Hs1 Hwf1];
      [split; constructor|].
    pose proof (cache_phase_found urls book chapter verse ([], false) w) as Hne1.
    destruct (cache_phase2 urls book chapter verse ([], false) w) as [[all1 found1] w1].
    cbn [fst snd] in *.
    assert (H2 : ∃ all2 found2 w2,
               (if negb found1 then web_phase2 urls book chapter verse all1
                else mret (all1, found1)) w1 = ((all2, found2), w2)
               ∧ keeps_store w w2
               ∧ web_footprint (omap (λ url, cache_file_of url book chapter verse) urls)
                   (MAX_RETRIES * length urls) w w2
               ∧ well_formed all2 ∧ (found2 = true → all2 ≠ [])).
    { destruct found1; cbn [negb].
      - exists all1, true, w1. unfold mret, M_ret.
        split_and!; [done|by apply same_state_keeps_store|by apply same_state_footprint
                    |done|intros _; by apply Hne1].
      - destruct (web_phase_state urls book chapter verse all1 w1 Hwf1) as (Hk & Hf & Hwf).
        pose proof (web_phase_found urls book chapter verse all1 w1) as Hne.
        destruct (web_phase2 urls book chapter verse all1 w1) as [[all2 found2] w2].
        cbn [fst snd] in *. exists all2, found2, w2.
        split_and!; [done| | |done|done].
        + eapply keeps_store_trans; [by apply same_state_keeps_store|done].
        + eapply (web_footprint_trans [] _ _ 0); [set_solver|done| |
            by apply same_state_footprint|exact Hf]. lia. }
    destruct H2 as (all2 & found2 & w2 & -> & Hk2 & Hf2 & Hwf2 & Hne2).
    cbn [fst snd]. destruct found2; cbn [negb].
    + pose proof (store_and_mark_state upper book chapter verse all2 w2) as Hst.
      cbn zeta in Hst.
      destruct (store_and_mark upper book chapter verse all2 w2) as [ok w3].
      cbn [fst snd] in *.
      destruct Hst as (-> & Hp & Hd & Hc & Hw & Hr & Hflush).
      destruct Hk2 as (Hp2 & Hd2 & Hpf2 & Hof2). destruct Hf2 as (Hw2 & Hr2 & Hc2).
      split.
      * split_and!; [congruence|lia|lia|]. intros f Hf. rewrite Hc. by apply Hc2.
      * right; right. split_and!; [done..|].
        exists all2. rewrite Hp2, Hd2, Hpf2, Hof2 in *.
        split_and!; [done|by apply Hne2|done|done|].
        case_decide; [|done]. by rewrite Hp, Hd.
    + cbn [fst snd]. split.
      * eapply (web_footprint_trans _ [] _ _ 0); [done|set_solver| |exact Hf2|].
        -- lia.
        -- apply same_state_footprint, same_state_with_events.
      * right; left. split_and!; [done..|].
        eapply keeps_store_trans; [done|].
        apply same_state_keeps_store, same_state_with_events.
Qed.

Lemma last_write_elem (k : corpus_key) (writes : list (corpus_key * pystr)) (text : pystr) :
  last_write k writes = Some text → (k, text) ∈ writes.
Proof.
  unfold last_write. intros Hlast.
  assert (Hin : text ∈ omap (λ w : corpus_key * pystr,
                               if decide (w.1 = k) then Some w.2 else None) writes).
  { by apply last_Some_elem_of. }
  apply list_elem_of_omap in Hin as ([k' text'] & Hin & Hk). cbn in Hk.
  destruct (decide (k' = k)) as [->|]; [|done]. by injection Hk as ->.
Qed.

Lemma last_write_last (k : corpus_key) (writes : list (corpus_key * pystr)) (text : pystr) :
  last_write k (writes ++ [(k, text)]) = Some text.
Proof.
  unfold last_write. rewrite omap_app. cbn. rewrite decide_True by done.
  by rewrite last_snoc.
Qed.

Lemma completed_lookup (book : pystr) (chapter verse : Z) (w : world) :
  (is_verse_completed book chapter verse w).1 = true
  ↔ progress w !! progress_key book chapter verse = Some true.
Proof.
  unfold is_verse_completed. step.
  destruct (progress w !! progress_key book chapter verse) as [[]|]; cbn;
    split; congruence.
Qed.

(** X7. The ledger after [scrape_verse]: the call returns [True] exactly
    when the verse is completed afterwards; the ledger is then the one
    before with the verse marked, and after a [False] the ledger and the
    corpus, in memory and on disk, are what they were. *)
Theorem scrape_verse_outcome (book : pystr) (chapter verse : Z) (w : world) :
  let r := scrape_verse2 book chapter verse w in
  (is_verse_completed book chapter verse r.2).1 = r.1
  ∧ progress r.2
    = (if r.1 then <[progress_key book chapter verse := true]> (progress w)
       else progress w)
  ∧ (if r.1 then True else keeps_store w r.2).
Proof.
  cbn zeta.
  destruct (scrape_verse_state book chapter verse w) as [_ Hcases]. cbn zeta in Hcases.
  destruct (scrape_verse2 book chapter verse w) as [ok w']. cbn [fst snd] in *.
  destruct Hcases as [(Hdone & -> & Hs)|[(Hnot & -> & Hk)|(Hnot & -> & all & _ & _ & Hp & _)]].
  - destruct Hs as (Hp & _). apply completed_lookup in Hdone.
    split_and!; [|by rewrite insert_id|done].
    apply completed_lookup. by rewrite Hp.
  - pose proof Hk as (Hp & _). split_and!; [|done|done].
    rewrite <- Hnot. unfold is_verse_completed. step. by rewrite Hp.
  - split_and!; [|done..].
    apply completed_lookup. rewrite Hp. apply lookup_insert_eq.
Qed.

Lemma scrape_verse_corpus (book : pystr) (chapter verse : Z) (w : world)
    (t b c v : pystr) :
  verse_of (data (scrape_verse2 book chapter verse w).2) (t, b, c, v)
  = verse_of (data w) (t, b, c, v)
  ∨ (b = replace_char 0x5F 0x20 book ∧ c = str_of_int chapter ∧ v = str_of_int verse
     ∧ ∃ text, verse_of (data (scrape_verse2 book chapter verse w).2) (t, b, c, v) = Some text
               ∧ text ≠ [] ∧ strip text = text ∧ collapse_ws text = text).
Proof.
  destruct (scrape_verse_state book chapter verse w) as [_ Hcases]. cbn zeta in Hcases.
  destruct (scrape_verse2 book chapter verse w) as [ok w']. cbn [fst snd] in *.
  destruct Hcases as [(_ & _ & Hs)|[(_ & _ & Hk)|(_ & _ & all & Hwf & _ & _ & Hd & _)]].
  - left. destruct Hs as (_ & -> & _). done.
  - left. destruct Hk as (_ & -> & _). done.
  - rewrite Hd, verse_of_record_all.
    destruct (last_write _ _) as [text|] eqn:Hlast; [|by left].
    right. apply last_write_elem in Hlast. unfold verse_writes in Hlast.
    apply list_elem_of_fmap in Hlast as ([label text'] & Heq & Hin).
    cbn in Heq. injection Heq as -> -> -> -> ->.
    destruct Hwf as [_ Hok]. rewrite Forall_forall in Hok.
    destruct (Hok _ Hin) as (_ & ? & ? & ?).
    split_and!; [done..|]. exists text'. by split_and!.
Qed.

(** X8. The corpus after [scrape_verse]: a verse text of the corpus is what
    it was, or it belongs to the verse of the call (its book with
    underscores read as spaces, its chapter and its verse as decimal
    strings) and is a text that is not empty, has no white space at its
    ends and only single spaces inside. *)
Theorem scrape_verse_data_frame (book : pystr) (chapter verse : Z) (w : world)
    (t b c v : pystr) :
  let r := scrape_verse2 book chapter verse w in
  verse_of (data r.2) (t, b, c, v) = verse_of (data w) (t, b, c, v)
  ∨ (b = replace_char 0x5F 0x20 book ∧ c = str_of_int chapter ∧ v = str_of_int verse
     ∧ ∃ text, verse_of (data r.2) (t, b, c, v) = Some text
               ∧ text ≠ [] ∧ strip text = text ∧ collapse_ws text = text).
Proof. apply scrape_verse_corpus. Qed.

(** X9. What [scrape_verse] costs: at most [MAX_RETRIES] requests for each
    candidate URL, that is at most 6 for a verse, 12 for a verse of
    chapter 1 of the Epistle of Jeremiah; and no cache file but those of the
    candidates of the verse is changed. *)
Theorem scrape_verse_footprint (book : pystr) (chapter verse : Z) (w : world) :
  let r := scrape_verse2 book chapter verse w in
  (requests w ≤ requests r.2)%nat
  ∧ (requests r.2
     ≤ requests w
       + (if decide (book = EPISTLE_OF_JEREMIAH ∧ chapter = 1%Z) then 12 else 6))%nat
  ∧ web r.2 = web w
  ∧ ∀ f, f ∉ candidate_files lower book chapter verse →
         html_cache r.2 !! f = html_cache w !! f.
Proof.
  cbn zeta.
  destruct (scrape_verse_state book chapter verse w) as [(Hw & Hr & Hc) _].
  assert (Hlen : length (build_urls lower book chapter verse)
                 = if decide (book = EPISTLE_OF_JEREMIAH ∧ chapter = 1%Z)
                   then 4%nat else 2%nat).
  { case_decide as Hb.
    - destruct Hb as [-> ->]. by rewrite build_urls_alias.
    - by rewrite build_urls_plain. }
  rewrite Hlen in Hr. unfold MAX_RETRIES in Hr.
  split_and!; [lia| |done|done].
  case_decide; lia.
Qed.

(** X10. [scrape_verse] leaves the progress file and the output file alone
    unless it has newly marked a verse and the ledger then has a multiple
    of ten entries: in every other case neither file is written. *)
Theorem scrape_verse_flush (book : pystr) (chapter verse : Z) (w : world) :
  let r := scrape_verse2 book chapter verse w in
  negb (is_verse_completed book chapter verse w).1 && r.1
  && bool_decide (size (progress r.2) `mod` 10 = 0)%nat = false →
  progress_file r.2 = progress_file w ∧ output_file r.2 = output_file w.
Proof.
  cbn zeta.
  destruct (scrape_verse_state book chapter verse w) as [_ Hcases]. cbn zeta in Hcases.
  destruct (scrape_verse2 book chapter verse w) as [ok w']. cbn [fst snd] in *.
  destruct Hcases as [(-> & -> & Hs)|[(-> & -> & Hk)|(-> & -> & all & _ & _ & Hp & _ & Hf)]];
    cbn [negb andb].
  - intros _. by destruct Hs as (_ & _ & _ & -> & -> & _).
  - intros _. by destruct Hk as (_ & _ & -> & ->).
  - rewrite <- Hp in Hf. intros Hten%bool_decide_eq_false.
    by rewrite decide_False in Hf.
Qed.

(** X12. A call of [scrape_verse] that marks a verse has recorded a text for
    it: when the verse was not completed and the call returns [True], the
    corpus holds a text that is not empty under some translation, at the
    book, chapter and verse of the call. *)
Theorem scrape_verse_records (book : pystr) (chapter verse : Z) (w : world) :
  (is_verse_completed book chapter verse w).1 = false →
  let r := scrape_verse2 book chapter verse w in
  r.1 = true →
  ∃ t text,
    verse_of (data r.2)
      (t, replace_char 0x5F 0x20 book, str_of_int chapter, str_of_int verse) = Some text
    ∧ text ≠ [].
Proof.
  intros Hnot. cbn zeta.
  destruct (scrape_verse_state book chapter verse w) as [_ Hcases]. cbn zeta in Hcases.
  destruct (scrape_verse2 book chapter verse w) as [ok w']. cbn [fst snd] in *.
  intros ->.
  destruct Hcases as [(Hdone & _)|[(_ & ? & _)|(_ & _ & all & Hwf & Hne & _ & Hd & _)]];
    [congruence|done|].
  destruct (exists_last Hne) as (rest & [label text] & ->).
  exists (upper label), text. rewrite Hd, verse_of_record_all.
  unfold verse_writes. rewrite map_app. cbn [map fst snd].
  rewrite last_write_last. cbn. split; [done|].
  destruct Hwf as [_ Hok]. rewrite Forall_app, Forall_singleton in Hok.
  by destruct Hok as (_ & _ & ? & _).
Qed.

(* ------------------------------------------------------------------ *)
(** ** [scrape_all] *)

Local Abbreviation scrape_verses2 :=
  (scrape_verses lower upper unescape path_stem html5lib html_parser).
Local Abbreviation scrape_chapters2 :=
  (scrape_chapters lower upper unescape path_stem html5lib html_parser).
Local Abbreviation scrape_books2 :=
  (scrape_books lower upper unescape path_stem html5lib html_parser).
Local Abbreviation scrape_all2 :=
  (scrape_all lower upper unescape path_stem html5lib html_parser).

Lemma scrape_verses_cons (book : pystr) (chapter verse : Z) (later : list Z) (n : Z)
    (w : world) :
  scrape_verses2 book chapter (verse :: later) n w
  = scrape_verses2 book chapter later (n + 1) (scrape_verse2 book chapter verse w).2.
Proof.
  cbn [scrape_verses]. unfold mbind, M_bind.
  by destruct (scrape_verse2 book chapter verse w).
Qed.

Lemma scrape_verses_result (book : pystr) (chapter : Z) (verses : list Z) (n : Z)
    (w : world) :
  (scrape_verses2 book chapter verses n w).1 = (n + Z.of_nat (length verses))%Z.
Proof.
  revert n w. induction verses as [|verse later IH]; intros n w.
  - cbn. unfold mret, M_ret. cbn. lia.
  - rewrite scrape_verses_cons, IH. cbn [length]. lia.
Qed.

Lemma scrape_verses_invariant (P : world → Prop) (book : pystr) (chapter : Z)
    (verses : list Z) (n : Z) (w : world) :
  (∀ verse w', verse ∈ verses → P w' → P (scrape_verse2 book chapter verse w').2) →
  P w → P (scrape_verses2 book chapter verses n w).2.
Proof.
  revert n w. induction verses as [|verse later IH]; intros n w Hstep Hw.
  - done.
  - rewrite scrape_verses_cons. apply IH.
    + intros v w' Hv. apply Hstep. by right.
    + apply Hstep; [by left|done].
Qed.

Lemma scrape_chapters_cons (book : pystr) (verses_per_chapter : list Z) (chapter : Z)
    (later : list Z) (n : Z) (w : world) :
  scrape_chapters2 book verses_per_chapter (chapter :: later) n w
  = match verses_per_chapter !! Z.to_nat (chapter - 1) with
    | None => (None, w)
    | Some num_verses =>
        scrape_chapters2 book verses_per_chapter later
          (scrape_verses2 book chapter (seqZ 1 num_verses) n w).1
          (scrape_verses2 book chapter (seqZ 1 num_verses) n w).2
    end.
Proof.
  cbn [scrape_chapters]. destruct (verses_per_chapter !! _) as [num_verses|]; [|done].
  unfold mbind, M_bind. by destruct (scrape_verses2 book chapter _ n w).
Qed.

Lemma scrape_chapters_invariant (P : world → Prop) (book : pystr)
    (verses_per_chapter chapters : list Z) (n : Z) (w : world) :
  (∀ chapter num_verses verse w',
     chapter ∈ chapters →
     verses_per_chapter !! Z.to_nat (chapter - 1) = Some num_verses →
     (1 ≤ verse ≤ num_verses)%Z →
     P w' → P (scrape_verse2 book chapter verse w').2) →
  P w → P (scrape_chapters2 book verses_per_chapter chapters n w).2.
Proof.
  revert n w. induction chapters as [|chapter later IH]; intros n w Hstep Hw.
  - done.
  - rewrite scrape_chapters_cons.
    destruct (verses_per_chapter !! _) as [num_verses|] eqn:Hnum; [|done].
    apply IH.
    + intros c nv v w' Hc. apply Hstep. by right.
    + apply scrape_verses_invariant; [|done].
      intros v w' Hv%elem_of_seqZ. apply (Hstep chapter num_verses); [by left|done|lia].
Qed.

Lemma scrape_chapters_result (book : pystr) (passed left_ : list Z) (n : Z) (w : world) :
  Forall (λ num_verses, 0 ≤ num_verses)%Z left_ →
  (scrape_chapters2 book (passed ++ left_)
     (seqZ (1 + Z.of_nat (length passed)) (Z.of_nat (length left_))) n w).1
  = Some (n + fold_right Z.add 0 left_)%Z.
Proof.
  revert passed n w. induction left_ as [|num_verses left_ IH]; intros passed n w Hpos.
  - cbn [length]. rewrite seqZ_nil by lia. cbn. unfold mret, M_ret. cbn. f_equal. lia.
  - apply Forall_cons in Hpos as [Hpos Hleft].
    cbn [length]. rewrite Nat2Z.inj_succ, seqZ_cons by lia.
    rewrite scrape_chapters_cons.
    replace (Z.to_nat (1 + Z.of_nat (length passed) - 1)) with (length passed + 0)%nat by lia.
    rewrite lookup_app_r, Nat.add_comm, Nat.add_sub by lia. cbn [lookup list_lookup].
    rewrite scrape_verses_result, length_seqZ.
    replace (Z.succ (1 + Z.of_nat (length passed)))
      with (1 + Z.of_nat (length (passed ++ [num_verses])))%Z
      by (rewrite length_app; cbn; lia).
    replace (Z.pred (Z.succ (Z.of_nat (length left_)))) with (Z.of_nat (length left_)) by lia.
    rewrite (cons_middle num_verses passed left_), (assoc_L (++)).
    rewrite IH by done. f_equal. cbn [fold_right]. lia.
Qed.

Lemma scrape_books_cons (book : pystr) (num_chapters : Z) (verses_per_chapter : list Z)
    (later : list (pystr * (Z * list Z))) (n : Z) (w : world) :
  scrape_books2 ((book, (num_chapters, verses_per_chapter)) :: later) n w
  = let r := scrape_chapters2 book verses_per_chapter (seqZ 1 num_chapters) n w in
    match r.1 with
    | None => (None, r.2)
    | Some completed => scrape_books2 later completed r.2
    end.
Proof.
  cbn [scrape_books]. unfold mbind, M_bind.
  by destruct (scrape_chapters2 book verses_per_chapter _ n w) as [[completed|] w1].
Qed.

Lemma scrape_books_invariant (P : world → Prop) (structure : list (pystr * (Z * list Z)))
    (n : Z) (w : world) :
  (∀ book chapter verse w',
     in_table structure book chapter verse →
     P w' → P (scrape_verse2 book chapter verse w').2) →
  P w → P (scrape_books2 structure n w).2.
Proof.
  revert n w. induction structure as [|[book [num_chapters verses_per_chapter]] later IH];
    intros n w Hstep Hw.
  - done.
  - rewrite scrape_books_cons. cbn zeta.
    assert (H1 : P (scrape_chapters2 book verses_per_chapter (seqZ 1 num_chapters) n w).2).
    { apply scrape_chapters_invariant; [|done].
      intros c nv v w' Hc%elem_of_seqZ Hnv Hv. apply Hstep.
      exists num_chapters, verses_per_chapter, nv. split_and!; [by left|lia|lia|done|lia|lia]. }
    destruct (scrape_chapters2 book verses_per_chapter _ n w) as [[completed|] w1];
      cbn [fst snd] in *; [|done].
    apply IH; [|done].
    intros b c v w' (nc & vpc & nv & Hin & ?). apply Hstep.
    exists nc, vpc, nv. split; [by right|done].
Qed.

Lemma total_verses_from (structure : list (pystr * (Z * list Z))) (n : Z) :
  fold_left (λ total item, total + fold_right Z.add 0 item.2.2)%Z structure n
  = (n + total_verses structure)%Z.
Proof.
  revert n. induction structure as [|item later IH]; intros n.
  - unfold total_verses. cbn. lia.
  - cbn [fold_left]. rewrite IH.
    unfold total_verses at 2. cbn [fold_left]. rewrite (IH (0 + _)%Z). lia.
Qed.

Lemma scrape_books_result (structure : list (pystr * (Z * list Z))) (n : Z) (w : world) :
  table_ok structure = true →
  (scrape_books2 structure n w).1 = Some (n + total_verses structure)%Z.
Proof.
  revert n w. induction structure as [|[book [num_chapters verses_per_chapter]] later IH];
    intros n w Hok.
  - cbn. unfold mret, M_ret. cbn. f_equal. unfold total_verses. cbn. lia.
  - cbn in Hok. apply andb_prop in Hok as [Hhere Hlater].
    apply andb_prop in Hhere as [Hlen Hpos]. apply bool_decide_eq_true in Hlen.
    rewrite scrape_books_cons. cbn zeta.
    pose proof (scrape_chapters_result book [] verses_per_chapter n w) as Hr.
    cbn [app length] in Hr. rewrite Hlen. change (1 + Z.of_nat 0)%Z with 1%Z in Hr.
    rewrite Hr.
    + rewrite IH by done. f_equal. unfold total_verses at 2. cbn [fold_left].
      rewrite total_verses_from. cbn. lia.
    + apply Forall_forall. intros x Hx.
      rewrite forallb_forall in Hpos. apply list_elem_of_In, Hpos in Hx. lia.
Qed.

Lemma scrape_all_run (w : world) :
  scrape_all2 w
  = (Some (total_verses BIBLE_STRUCTURE),
     (save_progress (save_data (scrape_books2 BIBLE_STRUCTURE 0 w).2).2).2).
Proof.
  unfold scrape_all. unfold mbind at 1. unfold M_bind at 1.
  pose proof (scrape_books_result BIBLE_STRUCTURE 0 w eq_refl) as Hr.
  destruct (scrape_books2 BIBLE_STRUCTURE 0 w) as [r w1]. cbn [fst snd] in *. subst r.
  unfold save_data, save_progress. by step.
Qed.

(** X13. A verse is scraped once: after a call of [scrape_verse] that
    returned [True], the next call for the same verse returns [True] too
    and does nothing but log that it skips the verse: no look into the
    cache, no request, no change of the ledger or the corpus. *)
Theorem scrape_verse_twice (book : pystr) (chapter verse : Z) (w : world) :
  (scrape_verse2 book chapter verse w).1 = true →
  scrape_verse2 book chapter verse (scrape_verse2 book chapter verse w).2
  = (true, with_events (scrape_verse2 book chapter verse w).2
             [Log DEBUG (SkippingCompleted book chapter verse)]).
Proof.
  intros Hok. apply scrape_verse_done.
  destruct (scrape_verse_state book chapter verse w) as [_ Hcases]. cbn zeta in Hcases.
  destruct (scrape_verse2 book chapter verse w) as [ok w']. cbn [fst snd] in *. subst ok.
  destruct Hcases as [(Hdone & _ & Hs)|[(_ & ? & _)|(_ & _ & all & _ & _ & Hp & _)]];
    [|done|].
  - destruct Hs as (Hp & _). apply completed_lookup in Hdone.
    apply completed_lookup. by rewrite Hp.
  - apply completed_lookup. rewrite Hp. apply lookup_insert_eq.
Qed.

(** X14. [scrape_all] goes through the whole of [BIBLE_STRUCTURE] without
    an [IndexError]: every book has as many verse counts as chapters. Its
    counter ends at 5493, the total of the table, whatever the scrapes
    returned: it counts the calls of [scrape_verse], not the verses that
    were scraped. *)
Theorem scrape_all_finishes (w : world) :
  table_ok BIBLE_STRUCTURE = true
  ∧ (scrape_all2 w).1 = Some (total_verses BIBLE_STRUCTURE)
  ∧ total_verses BIBLE_STRUCTURE = 5493%Z.
Proof. rewrite scrape_all_run. by split_and!. Qed.

Lemma save_keeps_memory (w : world) :
  progress (save_progress (save_data w).2).2 = progress w
  ∧ data (save_progress (save_data w).2).2 = data w.
Proof. unfold save_data, save_progress. by step. Qed.

Lemma in_table_units (structure : list (pystr * (Z * list Z))) (book : pystr)
    (chapter verse : Z) :
  in_table structure book chapter verse → (book, chapter, verse) ∈ table_units structure.
Proof.
  intros (nc & vpc & nv & Hin & Hc & Hnv & Hv). unfold table_units.
  apply list_elem_of_bind. exists (book, (nc, vpc)). split; [|done]. cbn [fst snd].
  apply list_elem_of_bind. exists chapter. split; [|apply elem_of_seqZ; lia].
  rewrite Hnv. apply list_elem_of_fmap. exists verse. split; [done|].
  apply elem_of_seqZ. lia.
Qed.

(** Over verses that are all completed the loop only adds log lines. *)
Lemma scrape_books_done (structure : list (pystr * (Z * list Z))) (n : Z) (w : world) :
  (∀ book chapter verse,
     in_table structure book chapter verse →
     (is_verse_completed book chapter verse w).1 = true) →
  ∃ events,
    (scrape_books2 structure n w).2 = with_events w events
    ∧ cache_lookups events = [] ∧ requested events = [].
Proof.
  intros Hdone.
  apply (scrape_books_invariant
           (λ w', ∃ events, w' = with_events w events
                            ∧ cache_lookups events = [] ∧ requested events = [])).
  - intros book chapter verse w' Hin (events & -> & Hc & Hr).
    rewrite scrape_verse_done.
    + cbn [snd]. exists (events ++ [Log DEBUG (SkippingCompleted book chapter verse)]).
      split_and!.
      * by rewrite with_events_app.
      * rewrite cache_lookups_app, Hc. done.
      * rewrite requested_app, Hr. done.
    + rewrite <- (Hdone _ _ _ Hin). unfold is_verse_completed. by step.
  - exists []. by rewrite with_events_nil.
Qed.

(** X16. A run over a finished ledger is offline: when every verse of
    [BIBLE_STRUCTURE] is marked completed, [scrape_all] makes no request,
    looks nothing up in the cache, and leaves the ledger, the corpus and
    the cache as they are. *)
Theorem scrape_all_resumed_offline (w : world) :
  (∀ book chapter verse,
     in_table BIBLE_STRUCTURE book chapter verse →
     (is_verse_completed book chapter verse w).1 = true) →
  let r := scrape_all2 w in
  progress r.2 = progress w ∧ data r.2 = data w ∧ html_cache r.2 = html_cache w
  ∧ requests r.2 = requests w
  ∧ ∃ events,
      trace r.2 = trace w ++ events
      ∧ cache_lookups events = [] ∧ requested events = [].
Proof.
  intros Hdone. cbn zeta. rewrite scrape_all_run. cbn [snd].
  destruct (scrape_books_done BIBLE_STRUCTURE 0 w Hdone) as (events & -> & Hc & Hr).
  unfold save_data, save_progress. step. split_and!; [done..|].
  exists (events ++ [Log INFO SavedData]). split_and!.
  - by rewrite (assoc_L (++)).
  - by rewrite cache_lookups_app, Hc.
  - by rewrite requested_app, Hr.
Qed.

Lemma scrape_verse_ledger (book : pystr) (chapter verse : Z) (w : world) (key : pystr) :
  progress (scrape_verse2 book chapter verse w).2 !! key = progress w !! key
  ∨ (key = progress_key book chapter verse
     ∧ progress (scrape_verse2 book chapter verse w).2 !! key = Some true).
Proof.
  destruct (scrape_verse_state book chapter verse w) as [_ Hcases]. cbn zeta in Hcases.
  destruct (scrape_verse2 book chapter verse w) as [ok w']. cbn [fst snd] in *.
  destruct Hcases as [(_ & _ & Hs)|[(_ & _ & Hk)|(_ & _ & all & _ & _ & Hp & _)]].
  - left. destruct Hs as (-> & _). done.
  - left. destruct Hk as (-> & _). done.
  - rewrite Hp. destruct (decide (key = progress_key book chapter verse)) as [->|Hne].
    + right. split; [done|apply lookup_insert_eq].
    + left. by rewrite lookup_insert_ne.
Qed.

(** X17. [scrape_all] only adds, and only for the verses of
    [BIBLE_STRUCTURE]: an entry of the ledger is what it was or is the mark
    of a verse of the table, and a verse text of the corpus is what it was or
    is a text, not empty, at the book, chapter and verse of a verse of the
    table. *)
Theorem scrape_all_only_adds (w : world) (key t b c v : pystr) :
  let r := scrape_all2 w in
  (progress r.2 !! key = progress w !! key
   ∨ ∃ book chapter verse,
       in_table BIBLE_STRUCTURE book chapter verse
       ∧ key = progress_key book chapter verse
       ∧ progress r.2 !! key = Some true)
  ∧ (verse_of (data r.2) (t, b, c, v) = verse_of (data w) (t, b, c, v)
     ∨ ∃ book chapter verse text,
         in_table BIBLE_STRUCTURE book chapter verse
         ∧ b = replace_char 0x5F 0x20 book
         ∧ c = str_of_int chapter ∧ v = str_of_int verse
         ∧ verse_of (data r.2) (t, b, c, v) = Some text ∧ text ≠ []).
Proof.
  cbn zeta. rewrite scrape_all_run. cbn [snd].
  destruct (save_keeps_memory (scrape_books2 BIBLE_STRUCTURE 0 w).2) as [-> ->].
  apply (scrape_books_invariant
           (λ w', (progress w' !! key = progress w !! key
                   ∨ ∃ book chapter verse,
                       in_table BIBLE_STRUCTURE book chapter verse
                       ∧ key = progress_key book chapter verse
                       ∧ progress w' !! key = Some true)
                  ∧ (verse_of (data w') (t, b, c, v) = verse_of (data w) (t, b, c, v)
                     ∨ ∃ book chapter verse text,
                         in_table BIBLE_STRUCTURE book chapter verse
                         ∧ b = replace_char 0x5F 0x20 book
                         ∧ c = str_of_int chapter ∧ v = str_of_int verse
                         ∧ verse_of (data w') (t, b, c, v) = Some text ∧ text ≠ [])));
    [|by split; left].
  intros book chapter verse w' Hin [Hledger Hcorpus]. split.
  - destruct (scrape_verse_ledger book chapter verse w' key) as [->|[-> Hmark]]; [done|].
    right. by exists book, chapter, verse.
  - destruct (scrape_verse_corpus book chapter verse w' t b c v)
      as [->|(-> & -> & -> & text & Htext & Hne & _)]; [done|].
    right. by exists book, chapter, verse, text.
Qed.

End scrape_state.

(* ================================================================== *)
(** * The book-name localizer: what it keeps *)

Lemma od_set_keys_elem {V} (d : list (pystr * V)) (k k' : pystr) (v : V) :
  k' ∈ (od_set k v d).*1 ↔ k' = k ∨ k' ∈ d.*1.
Proof.
  destruct (decide (k ∈ d.*1)) as [Hin|Hout].
  - rewrite od_set_keys by done. split; [by right|]. by intros [->|?].
  - rewrite od_set_fresh, fmap_app, elem_of_app by done. cbn.
    rewrite list_elem_of_singleton. tauto.
Qed.

Lemma od_update_keys_elem {V} (d e : list (pystr * V)) (k : pystr) :
  k ∈ (od_update d e).*1 ↔ k ∈ d.*1 ∨ k ∈ e.*1.
Proof.
  unfold od_update. revert d. induction e as [|[k0 v0] e IH]; intros d; cbn.
  - split; [by left|]. by intros [?|?%elem_of_nil].
  - rewrite IH, od_set_keys_elem, elem_of_cons. tauto.
Qed.

Lemma od_set_length {V} (d : list (pystr * V)) (k : pystr) (v : V) :
  length (od_set k v d) = if decide (k ∈ d.*1) then length d else S (length d).
Proof.
  induction d as [|[k0 v0] d IH]; cbn.
  - rewrite decide_False; [done|]. apply not_elem_of_nil.
  - destruct (decide (k0 = k)) as [->|Hne]; cbn.
    + rewrite decide_True; [done|]. by left.
    + rewrite IH. destruct (decide (k ∈ d.*1)) as [Hin|Hout].
      * rewrite decide_True; [done|]. by right.
      * rewrite decide_False; [done|]. rewrite not_elem_of_cons. by split.
Qed.

Lemma first_seen_length (names seen : list pystr) :
  (length (fold_left (λ seen name, if decide (name ∈ seen) then seen else seen ++ [name])
             names seen)
   ≤ length seen + length names)%nat
  ∧ (length (fold_left (λ seen name, if decide (name ∈ seen) then seen else seen ++ [name])
               names seen)
     = (length seen + length names)%nat
     ↔ NoDup names ∧ ∀ x, x ∈ names → x ∉ seen).
Proof.
  revert seen. induction names as [|name names IH]; intros seen.
  - cbn. split; [lia|]. split; [intros _|lia].
    split; [constructor|]. by intros x ?%elem_of_nil.
  - cbn [fold_left length]. case_decide as Hin.
    + destruct (IH seen) as [Hle _]. split; [lia|]. split; [lia|].
      intros [_ Hfresh]. exfalso. apply (Hfresh name); [by left|done].
    + destruct (IH (seen ++ [name])) as [Hle Hiff].
      rewrite length_app in Hle, Hiff. cbn [length] in Hle, Hiff.
      split; [lia|].
      replace (length seen + S (length names))%nat
        with (length seen + 1 + length names)%nat by lia.
      rewrite Hiff, NoDup_cons. split.
      * intros [Hdup Hfresh]. split_and!; [|done|].
        -- intros Hname. apply (Hfresh name Hname). set_solver.
        -- intros x [->|Hx]%elem_of_cons; [done|].
           specialize (Hfresh x Hx). set_solver.
      * intros [[Hname Hdup] Hfresh]. split; [done|].
        intros x Hx. rewrite not_elem_of_app, list_elem_of_singleton. split.
        -- apply Hfresh. by right.
        -- intros ->. done.
Qed.

Section localizer_facts.
Variable book_map : gmap pystr pystr.

(** The flag [changed] is raised only by a key of the file that has a
    non-empty entry in the map. *)
Lemma rename_books_raised (data : list (pystr * json)) (st : list (pystr * json) * bool) :
  (fold_left (rename_book book_map) data st).2 = true →
  st.2 = true ∨ ∃ k l, k ∈ data.*1 ∧ book_map !! k = Some l ∧ l ≠ [].
Proof.
  revert st. induction data as [|[k v] data IH]; intros [new_data changed] H.
  - by left.
  - cbn [fold_left] in H. apply IH in H as [Hflag|(k' & l & Hk' & Hl & Hne)].
    + unfold rename_book in Hflag. cbn in Hflag.
      destruct (book_map !! k) as [l|] eqn:Hk; [destruct (truthy l) eqn:Hl|].
      * right. exists k, l. split_and!; [by left|done|by apply truthy_nonempty].
      * by left.
      * by left.
    + right. exists k', l. split_and!; [by right|done..].
Qed.

(** Objects that meet under a target name keep their chapter keys. *)
Lemma arrivals_keeps_chapter (T chapter : pystr) (data : list (pystr * json))
    (start : option json) :
  Forall (λ item, ∃ chapters, item.2 = JObject chapters) data →
  (∃ chapters, start = Some (JObject chapters) ∧ chapter ∈ chapters.*1) →
  ∃ chapters,
    arrivals book_map T data start = Some (JObject chapters) ∧ chapter ∈ chapters.*1.
Proof.
  revert start. induction data as [|[k v] data IH]; intros start Hobj Hstart; [done|].
  apply Forall_cons in Hobj as [[new Hv] Hobj]. cbn in Hv. subst v.
  rewrite arrivals_cons.
  apply IH; [done|]. destruct Hstart as (old & -> & Hin).
  case_decide; [|by exists old]. cbn.
  exists (od_update old new). split; [done|]. apply od_update_keys_elem. by left.
Qed.

Lemma rename_books_keys (data : list (pystr * json)) (st : list (pystr * json) * bool) :
  (fold_left (rename_book book_map) data st).1.*1
  = fold_left (λ seen name, if decide (name ∈ seen) then seen else seen ++ [name])
      (target_name_of book_map <$> data.*1) st.1.*1.
Proof.
  revert st. induction data as [|[k v] data IH]; intros [new_data changed]; [done|].
  cbn [fold_left fmap list_fmap fst]. rewrite IH. f_equal.
  unfold rename_book. cbn [fst snd]. case_decide as Hin.
  - by rewrite od_set_keys.
  - rewrite od_set_fresh by done. by rewrite fmap_app.
Qed.

(** X19. The books of the file after the localization: the loop of
    [apply_mapping_to_version_file] builds [new_data] with the target names
    in the order of their first occurrence in the file, each once, and
    [new_data] has as many books as the file exactly when no two books of
    the file have the same target name. *)
Theorem rename_books_order (data : list (pystr * json)) :
  let new_data := (rename_books book_map data).1 in
  new_data.*1 = first_seen (target_name_of book_map <$> data.*1)
  ∧ (length new_data = length data
     ↔ NoDup (target_name_of book_map <$> data.*1)).
Proof.
  cbn zeta. unfold rename_books.
  pose proof (rename_books_keys data ([], false)) as Hkeys. cbn [fst fmap list_fmap] in Hkeys.
  split; [exact Hkeys|].
  rewrite <- (length_fmap fst (fold_left _ _ _).1), Hkeys.
  destruct (first_seen_length (target_name_of book_map <$> data.*1) []) as [_ Hiff].
  rewrite !length_fmap in Hiff. cbn [length] in Hiff. rewrite Hiff.
  split; [by intros [? _]|]. intros Hdup. split; [done|].
  intros x _. apply not_elem_of_nil.
Qed.

End localizer_facts.

Section localizer_file_facts.
Variable upper : pystr → pystr.

(** X18. What [apply_mapping_to_version_file] never does: it leaves the
    file as it is unless the file holds a JSON object, the mapping has a
    map for the version, and some book of the file has a non-empty entry in
    that map. *)
Theorem apply_mapping_leaves_file (version_name : pystr)
    (mapping : gmap pystr (gmap pystr pystr)) (file : json_file json) :
  apply_mapping_to_version_file upper version_name mapping file = file
  ∨ ∃ book_map data k l,
      mapping !! upper version_name = Some book_map
      ∧ file = Holds (JObject data)
      ∧ k ∈ data.*1 ∧ book_map !! k = Some l ∧ l ≠ [].
Proof.
  unfold apply_mapping_to_version_file.
  destruct (mapping !! upper version_name) as [book_map|] eqn:Hmap; [|by left].
  destruct file as [| |[| | | | |data]]; try by left.
  destruct (rename_books book_map data) as [new_data changed] eqn:E.
  destruct changed; [|by left]. right.
  pose proof (rename_books_raised book_map data ([], false)) as Hraised.
  unfold rename_books in E. rewrite E in Hraised.
  destruct (Hraised eq_refl) as [?|(k & l & ? & ? & ?)]; [done|].
  by exists book_map, data, k, l.
Qed.

(** X20. No chapter is lost: in a version file whose books are all JSON
    objects, every chapter key of every book is, after the call, a chapter
    key of the book's target name, also when several books meet under one
    target name. *)
Theorem apply_mapping_keeps_chapters (version_name : pystr)
    (mapping : gmap pystr (gmap pystr pystr)) (book_map : gmap pystr pystr)
    (data : list (pystr * json)) (book chapter : pystr) (chapters : list (pystr * json)) :
  mapping !! upper version_name = Some book_map →
  NoDup data.*1 →
  Forall (λ item, ∃ chapters, item.2 = JObject chapters) data →
  (book, JObject chapters) ∈ data →
  chapter ∈ chapters.*1 →
  ∃ new_data new_chapters,
    apply_mapping_to_version_file upper version_name mapping (Holds (JObject data))
    = Holds (JObject new_data)
    ∧ od_get (target_name_of book_map book) new_data = Some (JObject new_chapters)
    ∧ chapter ∈ new_chapters.*1.
Proof.
  intros Hmap Hdup Hobj Hin Hchapter.
  exists (rename_books book_map data).1.
  rewrite (apply_mapping_holds upper version_name mapping book_map data Hmap Hdup).
  unfold rename_books. rewrite rename_books_get. cbn [fst].
  apply list_elem_of_split in Hin as (before & after & ->).
  rewrite arrivals_app, arrivals_cons, decide_True by done.
  apply Forall_app in Hobj as [Hbefore Hafter]. apply Forall_cons in Hafter as [_ Hafter].
  destruct (arrivals_keeps_chapter book_map (target_name_of book_map book) chapter after
              (Some (merge_chapters
                       (arrivals book_map (target_name_of book_map book) before None)
                       (JObject chapters))) Hafter) as (new_chapters & Hnew & Hk).
  - destruct (arrivals _ _ before None) as [[| | | | |old]|]; cbn;
      try by exists chapters.
    exists (od_update old chapters). split; [done|]. apply od_update_keys_elem. by right.
  - by exists new_chapters.
Qed.

End localizer_file_facts.

(* ================================================================== *)
(** * Moving version files: what is moved and what is left *)

Lemma insert_sorted_perm (x : pystr) (l : list pystr) : insert_sorted x l ≡ₚ x :: l.
Proof.
  induction l as [|y l IH]; cbn; [done|].
  destruct (str_ltb y x); [|done]. rewrite IH. apply Permutation_swap.
Qed.

Lemma sorted_perm (l : list pystr) : sorted l ≡ₚ l.
Proof.
  unfold sorted. induction l as [|x l IH]; cbn; [done|].
  by rewrite insert_sorted_perm, IH.
Qed.

Lemma iterdir_elem (fs : filesystem) (dir : path) (name : pystr) :
  name ∈ iterdir fs dir ↔ is_Some (fs !! (dir ++ [name])).
Proof.
  unfold iterdir. rewrite list_elem_of_omap. split.
  - intros ([p e] & Hin%elem_of_map_to_list & Hname). cbn [fst snd] in Hname.
    destruct (reverse p) as [|name' parent] eqn:Hp; [done|].
    case_decide as Hdir; [|done]. injection Hname as ->.
    apply (f_equal reverse) in Hp. rewrite reverse_involutive, reverse_cons, Hdir in Hp.
    by rewrite <- Hp, Hin.
  - intros [e He]. exists (dir ++ [name], e). split; [by apply elem_of_map_to_list|].
    cbn [fst snd]. rewrite reverse_app. change (reverse [name]) with [name].
    cbn [app]. by rewrite decide_True by apply reverse_involutive.
Qed.

Lemma version_files_elem (fs : filesystem) (src : path) (name : pystr) :
  name ∈ version_files fs src
  ↔ is_file fs (src ++ [name]) = true
    ∧ (endswith (py ".json") name || endswith (py ".json.gz") name) = true.
Proof.
  unfold version_files. rewrite sorted_perm, list_elem_of_filter, iterdir_elem.
  split; [by intros [? _]|]. intros [Hfile Hsuffix]. split; [done|].
  unfold is_file in Hfile. by destruct (fs !! (src ++ [name])).
Qed.

Lemma prefixes_length (p q : path) : q ∈ prefixes p → (length q ≤ length p)%nat.
Proof.
  unfold prefixes. intros (n & -> & _)%list_elem_of_fmap.
  rewrite length_take. lia.
Qed.

Lemma make_dirs_other (dirs : list path) (fs : filesystem) (q : path) :
  q ∉ dirs → fold_left (λ fs q, <[q := Dir]> fs) dirs fs !! q = fs !! q.
Proof.
  revert fs. induction dirs as [|d dirs IH]; intros fs Hq; [done|].
  apply not_elem_of_cons in Hq as [Hne Hq]. cbn. rewrite IH by done.
  by rewrite lookup_insert_ne.
Qed.


Lemma mkdir_parents_other (p q : path) (fs fs' : filesystem) :
  mkdir_parents p fs = Some fs' → (length p < length q)%nat → fs' !! q = fs !! q.
Proof.
  unfold mkdir_parents. destruct (existsb _ _); [done|]. intros [= <-] Hlen.
  apply make_dirs_other. intros Hin%prefixes_length. lia.
Qed.


Section organize_more.
Variable lower : pystr → pystr.


Lemma target_path_length (dst : path) (name : pystr) :
  length (target_path lower dst name) = S (S (length dst)).
Proof. unfold target_path. rewrite length_app. cbn. lia. Qed.



Lemma organize_loop_frame (src dst : path) (names : list pystr) (fs : filesystem)
    (p : path) (content : pystr) :
  (∀ name, name ∈ names → p ≠ src ++ [name]) →
  fs !! p = Some (File content) →
  (organize_loop lower src dst names fs).2 !! p = Some (File content).
Proof.
  revert fs. induction names as [|m names IH]; intros fs Hp Hfile; [done|].
  cbn [organize_loop].
  destruct (mkdir_parents _ fs) as [fs1|] eqn:Hmk; [|done].
  pose proof (mkdir_parents_keeps_files _ _ _ _ _ Hmk Hfile) as Hfile1.
  assert (Hlater : ∀ name, name ∈ names → p ≠ src ++ [name]).
  { intros name Hname. apply Hp. by right. }
  destruct (exists_ fs1 _) eqn:Hexists; [by apply IH|].
  destruct (fs1 !! (src ++ [m])) as [[moved|]|] eqn:Hm; [|by apply IH..].
  apply IH; [done|]. rewrite lookup_insert_ne.
  - rewrite lookup_delete_ne; [done|]. intros Heq. apply (Hp m); [by left|done].
  - intros Heq. unfold exists_ in Hexists. by rewrite Heq, Hfile1 in Hexists.
Qed.

Lemma first_match_code (rules : list locale_rule) (name : pystr) :
  first_match rules name ∈ py "und" :: map rule_locale rules.
Proof.
  induction rules as [|r rules IH]; cbn; [by left|].
  destruct (rule_matches name r); [right; by left|].
  apply elem_of_cons in IH as [->|IH]; [by left|]. right. by right.
Qed.

Lemma detect_locale_code (version_name : pystr) :
  detect_locale_from_name lower version_name ∈ LOCALE_CODES.
Proof. rewrite detect_locale_table. apply first_match_code. Qed.

(** X21. Whatever the version name, [detect_locale_from_name] returns one
    of the 38 codes of its table or [und]: two or three lower-case letters,
    so that the locale directory is a direct subdirectory of the target
    directory and a target path is two levels below it. *)
Theorem detect_locale_is_code (version_name : pystr) (dst : path) (file_name : pystr) :
  let code := detect_locale_from_name lower version_name in
  code ∈ LOCALE_CODES
  ∧ code_ok code = true
  ∧ length LOCALE_CODES = 39%nat
  ∧ length (target_path lower dst file_name) = S (S (length dst)).
Proof.
  cbn zeta. pose proof (detect_locale_code version_name) as Hcode.
  split_and!; [done| |reflexivity|apply target_path_length].
  assert (Hall : forallb code_ok LOCALE_CODES = true) by by vm_compute.
  rewrite forallb_forall in Hall. by apply Hall, list_elem_of_In.
Qed.

Lemma endswith_app (suffix stem : pystr) : endswith suffix (stem ++ suffix) = true.
Proof.
  unfold endswith. rewrite rev_app_distr.
  induction (rev suffix) as [|c l IH]; [by destruct (rev stem)|].
  cbn. by rewrite N.eqb_refl.
Qed.

Lemma drop_last_app (suffix stem : pystr) :
  drop_last (length suffix) (stem ++ suffix) = stem.
Proof.
  unfold drop_last. rewrite length_app, Nat.add_sub. by rewrite take_app_length.
Qed.

(** X22. The version name of a file name is the name without its suffix:
    the slices [[:-8]] and [[:-5]] take off exactly [.json.gz] and [.json],
    whatever stands before the suffix. *)
Theorem version_name_strips_suffix (stem : pystr) :
  version_name_of (stem ++ py ".json.gz") = stem
  ∧ version_name_of (stem ++ py ".json") = stem.
Proof.
  unfold version_name_of. split.
  - rewrite endswith_app. apply (drop_last_app (py ".json.gz")).
  - rewrite (endswith_app (py ".json")).
    assert (Hgz : endswith (py ".json.gz") (stem ++ py ".json") = false).
    { unfold endswith. rewrite rev_app_distr. reflexivity. }
    rewrite Hgz. apply (drop_last_app (py ".json")).
Qed.


(** X24. [organize_versions] leaves every other file alone: a file that is
    not a [.json] or [.json.gz] file right in the source directory has its
    content at its path after the call, however the call ends. *)
Theorem organize_versions_frame (source_dir target_dir : path) (fs : filesystem)
    (p : path) (content : pystr) :
  fs !! p = Some (File content) →
  (∀ name, p = source_dir ++ [name] →
           (endswith (py ".json") name || endswith (py ".json.gz") name) = false) →
  (organize_versions lower source_dir target_dir fs).2 !! p = Some (File content).
Proof.
  intros Hfile Hother. unfold organize_versions.
  destruct (negb _ || negb _); [done|].
  destruct (mkdir_parents target_dir fs) as [fs1|] eqn:Hmk; [|done].
  apply organize_loop_frame; [|by eapply mkdir_parents_keeps_files].
  intros name [_ Hsuffix]%version_files_elem Hp.
  by rewrite (Hother name Hp) in Hsuffix.
Qed.

End organize_more.

(* ================================================================== *)
(** * The further statements at concrete inputs *)

Lemma fetch_page_cache_hit_witness :
  fetch_page TOBIT_1_1_URL TOBIT 1 1 true tobit_cached_world
  = (Some (universal_newlines long_page),
     with_events tobit_cached_world
       [CacheExists TOBIT_1_1_CACHE; CacheRead TOBIT_1_1_CACHE;
        Log INFO (LoadedFromCache TOBIT_1_1_CACHE)]).
Proof.
  apply (fetch_page_cache_hit TOBIT_1_1_URL TOBIT 1 1 true tobit_cached_world
           TOBIT_1_1_CACHE long_page).
  - reflexivity.
  - reflexivity.
  - vm_compute. discriminate.
  - reflexivity.
Defined.


Lemma fallback_skips_parallel_link_witness :
  extract_translations ascii_upper same_text same_text text_soup parallel_page
  = [(py "KJV", py "In the beginning")]
  ∧ py "PARALLEL"
    ∉ (extract_translations ascii_upper same_text same_text text_soup parallel_page).*1.
Proof.
  split; [reflexivity|].
  apply (fallback_skips_parallel_link ascii_upper same_text same_text text_soup
           parallel_page).
  reflexivity.
Defined.

Lemma scrape_verse_flush_witness :
  progress_file
    (scrape_verse ascii_lower ascii_upper same_text same_text
       (parsed_as genesis_page) text_soup TOBIT 1 1 tobit_cached_world).2
  = progress_file tobit_cached_world
  ∧ output_file
      (scrape_verse ascii_lower ascii_upper same_text same_text
         (parsed_as genesis_page) text_soup TOBIT 1 1 tobit_cached_world).2
    = output_file tobit_cached_world.
Proof.
  apply (scrape_verse_flush ascii_lower ascii_upper same_text same_text
           (parsed_as genesis_page) text_soup TOBIT 1 1 tobit_cached_world).
  vm_compute. reflexivity.
Defined.

Lemma scrape_verse_records_witness :
  ∃ t text,
    verse_of
      (data (scrape_verse ascii_lower ascii_upper same_text same_text
               (parsed_as genesis_page) text_soup TOBIT 1 1 tobit_cached_world).2)
      (t, py "Tobit", py "1", py "1") = Some text
    ∧ text ≠ [].
Proof.
  apply (scrape_verse_records ascii_lower ascii_upper same_text same_text
           (parsed_as genesis_page) text_soup TOBIT 1 1 tobit_cached_world).
  - reflexivity.
  - vm_compute. reflexivity.
Defined.

Lemma scrape_verse_twice_witness :
  (scrape_verse ascii_lower ascii_upper same_text same_text
     (parsed_as genesis_page) text_soup TOBIT 1 1
     (scrape_verse ascii_lower ascii_upper same_text same_text
        (parsed_as genesis_page) text_soup TOBIT 1 1 tobit_cached_world).2).1 = true.
Proof.
  rewrite (scrape_verse_twice ascii_lower ascii_upper same_text same_text
             (parsed_as genesis_page) text_soup TOBIT 1 1 tobit_cached_world).
  - reflexivity.
  - vm_compute. reflexivity.
Defined.

Lemma scrape_all_resumed_offline_witness :
  requests (scrape_all ascii_lower ascii_upper same_text same_text
              (parsed_as genesis_page) text_soup all_done_world).2
  = requests all_done_world
  ∧ html_cache (scrape_all ascii_lower ascii_upper same_text same_text
                  (parsed_as genesis_page) text_soup all_done_world).2
    = html_cache all_done_world.
Proof.
  destruct (scrape_all_resumed_offline ascii_lower ascii_upper same_text same_text
              (parsed_as genesis_page) text_soup all_done_world)
    as (_ & _ & Hcache & Hrequests & _).
  - intros book chapter verse Hin. apply completed_lookup.
    unfold all_done_world. rewrite progress_mark_all. rewrite decide_True; [reflexivity|].
    apply list_elem_of_fmap. exists (book, chapter, verse).
    split; [reflexivity|]. apply in_table_units. exact Hin.
  - split; [exact Hrequests | exact Hcache].
Defined.

Lemma apply_mapping_keeps_chapters_witness :
  ∃ new_data new_chapters,
    apply_mapping_to_version_file ascii_upper (py "danish") danish_mapping
      (Holds (JObject exodus_chapter_file))
    = Holds (JObject new_data)
    ∧ od_get (py "2 Mosebog") new_data = Some (JObject new_chapters)
    ∧ py "1" ∈ new_chapters.*1.
Proof.
  assert (Htarget : target_name_of {[py "Exodus" := py "2 Mosebog"]} (py "Exodus")
                    = py "2 Mosebog") by (vm_compute; reflexivity).
  rewrite <- Htarget.
  apply (apply_mapping_keeps_chapters ascii_upper (py "danish") danish_mapping
           {[py "Exodus" := py "2 Mosebog"]} exodus_chapter_file
           (py "Exodus") (py "1")
           [(py "1", JObject [(py "1", JString (py "Now these are the names"))])]).
  - reflexivity.
  - apply NoDup_singleton.
  - apply Forall_singleton. eexists. reflexivity.
  - apply list_elem_of_singleton. reflexivity.
  - apply list_elem_of_singleton. reflexivity.
Defined.


Lemma organize_versions_frame_witness :
  (organize_versions ascii_lower [py "versions"] [py "versions_gz"] colliding_fs).2
    !! [py "versions_gz"; py "en"; NIV_FILE] = Some (File (py "old")).
Proof.
  apply (organize_versions_frame ascii_lower [py "versions"] [py "versions_gz"]
           colliding_fs [py "versions_gz"; py "en"; NIV_FILE] (py "old")).
  - reflexivity.
  - intros name Hname. discriminate Hname.
Defined.
